(* ===== verification/_CoqProject ===== *)
-Q . S2P
Prelude.v
Bitarray.v
Prob.v
RandBytes.v
Urandom.v
Contract.v
Operators.v
Machine.v
Entropy.v
Otp.v
Runs.v
Loops.v
Minimize.v
