(* ===== verification/Prelude.v ===== *)
(** * randbox: a verification development of the probabilistic bit buffer

    The repository (tdeitch/randbox) is three Python files.

    - [src/pyrand.py] defines the class [RandBytes]: a buffer of [n]
      random bytes held as a big-endian [bitarray] ([_i]), its byte length
      ([_n]), a per-bit probability of being one ([_pr_one]) and a one-shot
      flag ([_wrapped], true while the buffer is live).  The constructor
      draws [n] bytes from [os.urandom]; [__len__] checks the flag;
      [entropy] sums [min_entropy] over [_pr_one]; [unwrap] clears the flag
      and returns the bits; [__and__], [__or__], [__xor__] accept a
      [bitarray] or another [RandBytes] (identity [id(self) == id(other)]
      selects the correlated case) and [__invert__] negates.  Every
      operator builds a fresh [RandBytes] (drawing fresh random bytes it
      then overwrites) and clears the flag of its operands.  The module
      functions [shannon_entropy] and [min_entropy] give the per-bit
      entropies.
    - [src/otp.py] is the driver: a one-time pad [otp] that encrypts a
      message with [key ^ m], asserts entropies, unwraps both buffers and
      decrypts with [bxor]; [selfXor] and [newAnd] assert entropies of
      [i ^ i] and [i & j]; [main] runs them in sequence.
    - [src/minimize.py] is a script over pyeda expressions: a class [RB]
      whose [__xor__] builds an [Xor] expression of fresh variables, and a
      call to the external minimiser espresso on [Or(u ^ u, dummy)].

    ** Files and what they model

    - [Prelude] (this file): the Python exceptions raised by the code
      ([exn]), the result of a computation that may raise ([result]), the
      state-and-exception monad [PyM] in which the state survives a raise
      (as Python's heap survives an exception), Python list indexing and
      index assignment that raise [IndexError] out of range, the
      [for i in range(k)] loop [py_for], and the lemmas and hint database
      [randbox] that the component files share.
    - [Bitarray]: the part of the [bitarray] library the code calls
      (big-endian [frombytes]/[tobytes], [&], [|], [^] that raise
      [ValueError] on a length mismatch, [~]), with bytes as [Z].
    - [Prob]: the per-bit probability updates written in the loops of
      [__and__], [__or__], [__xor__], [__invert__], over exact rationals
      [Q], and their meaning: each formula is the probability of a one in
      the output of the Boolean operator applied to independent (or, in
      the same-object case, identical) Bernoulli bits.
    - [RandBytes]: the object heap of the program (a [gmap] from object
      identities to [RandBytes] records, state [St]), the random source as
      a stream of bytes consumed by [os.urandom] ([urandom]),
      [RandBytes_init], [rb_len], [unwrap], and the skeleton [rb_binop]
      shared by [__and__], [__or__] and [__xor__], parameterised by the
      bitarray operator, the loop body over a bitarray operand and the
      update for a [RandBytes] operand; with the lemmas on each branch,
      the checker [wf_stateb] of well-formedness and the concrete state
      [demo_st] of the witnesses.
      The class [BinopLaws] is the interface between the per-operator
      parts and the skeleton: the skeleton's lemmas are proved once
      against it.
    - [Contract]: [binop_spec], the relational contract of an operator
      call, whose error case [binop_error] lists the code's guards with
      the exception each raises; the preservation of well-formedness and
      of consumed objects.
    - [Operators]: the per-operator parts ([and_bits_body], [and_pair],
      ...), [rb_and], [rb_or], [rb_xor], [rb_invert], the three instances
      of [BinopLaws], and the behaviour of each method on every branch.
    - [Urandom]: the uniform distribution of [os.urandom(n)] as the list
      of all byte strings of length [n] ([keys]), with frequencies of
      events and the counting lemmas for one, two and three independent
      keys.
    - [Machine]: the method calls as a step relation [step] on [St], the
      call with its returned value [exec], reachability, and the program
      [unwrap_all] that unwraps a list of buffers in turn.
    - [Entropy]: [min_entropy], [shannon_entropy] and the [entropy]
      method ([rb_entropy]) over the reals ([ln x / ln 2] for
      [math.log(x, 2)]).
    - [Otp]: [otp.py] over a [World] made of the object state and the
      printed output: [otp], [selfXor], [newAnd], [main] and [bxor] as
      written, and [bxor_bytes], the byte-wise decryption the
      specification describes.
    - [Runs]: whole runs against the uniform source: a client
      [and_then] that computes [(x & y) op z] of three fresh buffers, and
      [otp] with the key bytes of the stream set to each possible value
      ([with_key]).
    - [Loops]: Python's [for] statement as the interpreter runs it,
      through the iterator protocol ([range_next], one unit of fuel per
      call of [next], [for_range_fuel]), to show that the probability
      loops of the operators stop.
    - [Minimize]: [minimize.py]'s [RB] class and script over pyeda
      expressions as syntax with a Boolean meaning; [to_dnf] and espresso
      are the interface [Minimizer] (the result is equivalent to the
      argument).

    ** What the theorems show

    - The operators on two distinct buffers, on the same buffer and on a
      bitarray, and [~], compute the bits and the probabilities the
      specification's table gives, consume exactly their operands and read
      [len(self)] fresh random bytes (C1-C4, C12, C13, C16).
    - Errors: a consumed receiver or operand raises [RuntimeError], a
      length mismatch [ValueError], another operand type [TypeError], a
      negative length [ValueError]; in every case the state is unchanged
      (C5, C6, C14-C16).  The operators refine the contract [binop_spec]
      on every branch (C9); every call from a well-formed state returns a
      value or raises one of the documented exceptions, never
      [IndexError] (C10).
    - Invariants over every reachable state: every buffer has [8 n] bits
      and [8 n] probabilities in [[0,1]] (C8, C20); a consumed buffer never
      changes again and every later operator on it raises (C7).
    - Liveness: from every state the program can reach a state in which
      every buffer is consumed and unusable, by unwrapping each (C11).
    - Termination: the probability loops of [&], [|], [^], run through
      the iterator protocol on a well-formed state, stop within
      [len(self)*8 + 1] calls of [next] with the update the operator
      stores (C35).
    - The probability formulas are the probabilities of the Boolean
      operators on independent Bernoulli bits, and on one object they are
      right only for certain bits, hence the identity case (C18, C19).
    - Against the uniform distribution of [os.urandom]: the object
      [RandBytes(n)] allocates holds the bits read, and its [.5] is the
      true frequency of every bit, two bits being independent (C21); in
      the run [(x & y) op z] of three fresh buffers the result's
      [_pr_one] is the true frequency of every bit, at [p = 1/4],
      [q = 1/2] (C22); every ciphertext [otp] can print is printed for
      exactly one value of the key bytes, whatever the message (C23).
    - Entropy: [8 n] for the buffer [RandBytes(n)] allocates, 0 for
      [x ^ x], that of [x] for [~x] and [x ^ m], strictly between 24 and
      28 for [a & b] of two fresh 8-byte buffers, whose Shannon entropy
      exceeds 28, and between 0 and [8 n] always (C24-C29).
    - The driver: [bxor] XORs byte [i] with *bit* [i] of the key, so
      [otp] raises [IndexError] on every non-empty message after its
      assertions pass and [main] stops in its first call; the ciphertext
      [otp] prints decrypts byte-wise with the key object's bits;
      [selfXor] and [newAnd] pass (C30-C34).
    - [minimize.py]: [x ^ x] is false under every assignment, so the
      expression the script minimises is equivalent to [dummy], and the
      three objects get different variable names (C36).
    - [unwrap] and [entropy] do not check the one-shot flag (C17, C29).

    ** Modelling choices

    - Python floats are modelled by exact rationals [Q]: every probability
      the program produces from [.5] by the four operators is a dyadic
      rational, which a float holds exactly as long as its mantissa fits
      53 bits.  Equalities of probabilities are stated up to [Qeq], and
      the update functions are [Proper] for it.  Entropies are reals.
    - Object identity is the key of the heap; fresh identities come from a
      counter.  A [bitarray] is an immutable value [list bool] (the code
      never mutates one in place after building it).
    - [os.urandom] is a stream [nat -> Z] of bytes with a read position:
      the constructor called inside each operator advances it, as the
      code does.  Its randomness is the uniform distribution on byte
      strings ([Urandom.keys]); probabilities are frequencies over the
      enumeration of all [256 ^ n] outcomes, so no measure theory is
      needed and the counts are computed by induction on [n].
    - Loops are [py_for] over [range], a recursion on the number of
      iterations; there is no unbounded recursion.  Fuel appears only in
      [Loops], to run a loop the way the interpreter does; [count + 1]
      calls of [next] suffice for [count] iterations, and the theorem
      takes any fuel above that bound.
    - Witnesses run on small concrete states ([demo_st]: three one-byte
      buffers, one consumed); well-formedness of a concrete state is
      decided by the boolean checker [wf_stateb].

    ** Not modelled

    - The joint distribution of an arbitrary run (the theorems on the
      uniform source cover a fresh buffer, the run [(x & y) op z] and
      [otp], not every state a program reaches), float rounding, the text
      format of [print], [.decode('utf-8')] (never reached on a non-empty
      message), the endianness checks of [bitarray] (every bitarray of
      the repository is big-endian), the [if __name__ == "__main__"]
      guard of [otp.py] (it only calls [main]), and pyeda/espresso beyond
      their contract: what espresso prints is not modelled.
*)

From stdpp Require Export base list.
From Stdlib Require Export ZArith.

(** ** Python exceptions raised by the code *)

(** [NameError] stands for a reference to an object identity that is not
    in the heap; a program that only uses identities it was given never
    raises it. *)
Inductive exn :=
| RuntimeError
| ValueError
| TypeError
| IndexError
| AssertionError
| NameError.

#[export] Instance exn_eq_dec : EqDecision exn.
Proof. solve_decision. Defined.

Inductive result (A : Type) :=
| Ok (a : A)
| Raise (e : exn).
Arguments Ok {A} a.
Arguments Raise {A} e.

Definition rbind {A B} (r : result A) (k : A -> result B) : result B :=
  match r with
  | Ok a => k a
  | Raise e => Raise e
  end.

(** ** The state and exception monad *)

(** A computation on state [S]: the final state is returned also when an
    exception is raised, so that effects performed before a [raise] stay,
    as in Python. *)
Definition PyM (S A : Type) : Type := S -> S * result A.

Definition ret {S A} (a : A) : PyM S A := fun s => (s, Ok a).
Definition raise {S A} (e : exn) : PyM S A := fun s => (s, Raise e).
Definition bind {S A B} (c : PyM S A) (k : A -> PyM S B) : PyM S B :=
  fun s => let '(s', r) := c s in
           match r with
           | Ok a => k a s'
           | Raise e => (s', Raise e)
           end.
Definition get {S} : PyM S S := fun s => (s, Ok s).
Definition put {S} (s : S) : PyM S unit := fun _ => (s, Ok tt).
Definition lift_res {S A} (r : result A) : PyM S A := fun s => (s, r).

Declare Scope py_scope.
Delimit Scope py_scope with py.
Notation "x <- c ;; k" := (bind c (fun x => k))
  (at level 100, c at next level, right associativity) : py_scope.
Notation "c ;; k" := (bind c (fun _ => k))
  (at level 100, right associativity) : py_scope.
Notation "x <-! r ;; k" := (rbind r (fun x => k))
  (at level 100, r at next level, right associativity) : py_scope.
Open Scope py_scope.

(** ** Python lists *)

(** [l[i]]: raises [IndexError] out of range. *)
Definition py_getitem {A} (l : list A) (i : nat) : result A :=
  match l !! i with
  | Some x => Ok x
  | None => Raise IndexError
  end.

(** [l[i] = v]: raises [IndexError] out of range (stdpp's [insert] would
    silently do nothing there). *)
Definition py_setitem {A} (l : list A) (i : nat) (v : A) : result (list A) :=
  if decide (i < length l) then Ok (<[i:=v]> l) else Raise IndexError.

(** [for i in range(start, start + count): acc = body(i, acc)], stopping at
    the first exception. *)
Fixpoint py_for {A} (start count : nat) (body : nat -> A -> result A) (acc : A)
  : result A :=
  match count with
  | O => Ok acc
  | S c => acc' <-! body start acc ;; py_for (S start) c body acc'
  end.

(** ** Shared lemmas *)

Create HintDb randbox.
Create Rewrite HintDb randbox.

Section PyLists.
Context {A : Type}.

Lemma py_getitem_lookup (l : list A) i x : l !! i = Some x -> py_getitem l i = Ok x.
Proof. unfold py_getitem. by intros ->. Qed.

Lemma py_getitem_ge (l : list A) i : length l <= i -> py_getitem l i = Raise IndexError.
Proof. unfold py_getitem. intros H. by rewrite lookup_ge_None_2. Qed.

Lemma py_setitem_lt (l : list A) i v : i < length l -> py_setitem l i v = Ok (<[i:=v]> l).
Proof. unfold py_setitem. intros H. by rewrite decide_True. Qed.

Lemma py_setitem_ge (l : list A) i v : length l <= i -> py_setitem l i v = Raise IndexError.
Proof. unfold py_setitem. intros H. rewrite decide_False; [done | lia]. Qed.

(** A loop over [range(s, s + c1 + c2)] is the loop over the first [c1]
    indices followed by the loop over the rest. *)
Lemma py_for_split body s c1 c2 (acc : A) :
  py_for s (c1 + c2) body acc =
    (acc' <-! py_for s c1 body acc ;; py_for (s + c1) c2 body acc').
Proof.
  revert s acc. induction c1 as [|c1 IH]; intros s acc; simpl.
  - by rewrite Nat.add_0_r.
  - destruct (body s acc) as [a|e]; simpl; [|done].
    rewrite IH. by replace (S s + c1) with (s + S c1) by lia.
Qed.

(** A loop whose body at index [i] only replaces [acc[i]] by [upd i acc[i]]
    computes [imap] of [upd] over the indices it visits. *)
Lemma py_for_pointwise `{Inhabited A} (upd : nat -> A -> A) body s c (acc : list A) :
  s + c <= length acc ->
  (forall i (acc' : list A), s <= i < s + c -> length acc' = length acc ->
     body i acc' = Ok (<[i := upd i (acc' !!! i)]> acc')) ->
  py_for s c body acc =
    Ok (imap (fun j x => if decide (s <= j < s + c) then upd j x else x) acc).
Proof.
  revert s acc. induction c as [|c IH]; intros s acc Hlen Hbody; simpl.
  - f_equal. apply list_eq. intros j. rewrite list_lookup_imap.
    destruct (acc !! j); simpl; [rewrite decide_False by lia|]; done.
  - rewrite Hbody by lia. simpl.
    rewrite IH; cycle 1.
    { rewrite length_insert. lia. }
    { intros i acc' Hi Hl. apply Hbody; rewrite ?length_insert in *; lia. }
    f_equal. apply list_eq. intros j. rewrite !list_lookup_imap.
    destruct (decide (j = s)) as [->|Hne].
    + rewrite list_lookup_insert_eq by lia.
      destruct (lookup_lt_is_Some_2 acc s) as [x Hx]; [lia|].
      rewrite Hx. simpl. rewrite (list_lookup_total_correct _ _ _ Hx).
      rewrite decide_False by lia. rewrite decide_True by lia. done.
    + rewrite list_lookup_insert_ne by done.
      destruct (acc !! j); simpl; [|done].
      repeat case_decide; try done; lia.
Qed.

(** The same loop over the whole of [range(len(acc))], when the update at
    [i] reads two other lists at [i], computes their [zip_with]. *)
Lemma imap_read2_zip_with `{Inhabited A} {B C} `{Inhabited B} `{Inhabited C}
    (f : B -> C -> A) (l1 : list B) (l2 : list C) (acc : list A) :
  length l1 = length acc -> length l2 = length acc ->
  imap (fun j x => if decide (0 <= j < 0 + length acc) then f (l1 !!! j) (l2 !!! j) else x) acc
  = zip_with f l1 l2.
Proof.
  intros Hl1 Hl2. apply list_eq. intros j. rewrite list_lookup_imap, lookup_zip_with.
  destruct (decide (j < length acc)) as [Hj|Hj].
  - destruct (lookup_lt_is_Some_2 acc j) as [x Hx]; [lia|].
    destruct (lookup_lt_is_Some_2 l1 j) as [y Hy]; [lia|].
    destruct (lookup_lt_is_Some_2 l2 j) as [z Hz]; [lia|].
    rewrite Hx, Hy, Hz. simpl. rewrite decide_True by lia.
    by rewrite (list_lookup_total_correct _ _ _ Hy), (list_lookup_total_correct _ _ _ Hz).
  - rewrite !lookup_ge_None_2 by lia. done.
Qed.
(** The same, when the update at [i] combines the current value with
    another list read at [i]. *)
Lemma imap_self_zip_with `{Inhabited A} {B} `{Inhabited B}
    (f : A -> B -> A) (l : list B) (acc : list A) :
  length l = length acc ->
  imap (fun j x => if decide (0 <= j < 0 + length acc) then f x (l !!! j) else x) acc
  = zip_with f acc l.
Proof.
  intros Hl. apply list_eq. intros j. rewrite list_lookup_imap, lookup_zip_with.
  destruct (decide (j < length acc)) as [Hj|Hj].
  - destruct (lookup_lt_is_Some_2 acc j) as [x Hx]; [lia|].
    destruct (lookup_lt_is_Some_2 l j) as [y Hy]; [lia|].
    rewrite Hx, Hy. simpl. rewrite decide_True by lia.
    by rewrite (list_lookup_total_correct _ _ _ Hy).
  - rewrite !lookup_ge_None_2 by lia. done.
Qed.
Lemma Forall_zip_with_2 {B C} (P : A -> Prop) (R : B -> Prop) (T : C -> Prop)
    (f : A -> B -> C) (l1 : list A) (l2 : list B) :
  (forall a b, P a -> R b -> T (f a b)) -> Forall P l1 -> Forall R l2 ->
  Forall T (zip_with f l1 l2).
Proof.
  intros Hf H1. revert l2. induction H1 as [|a l1 Ha _ IH]; intros [|b l2] H2; simpl; [done..|].
  inversion H2; subst. constructor; auto.
Qed.
End PyLists.

Section Monad.
Context {S : Type}.

Lemma bind_ret_l {A B} (a : A) (k : A -> PyM S B) s : bind (ret a) k s = k a s.
Proof. reflexivity. Qed.

Lemma bind_raise {A B} e (k : A -> PyM S B) s : bind (raise e) k s = (s, Raise e).
Proof. reflexivity. Qed.

Lemma bind_assoc {A B C} (c : PyM S A) (f : A -> PyM S B) (g : B -> PyM S C) s :
  bind (bind c f) g s = bind c (fun a => bind (f a) g) s.
Proof. unfold bind. destruct (c s) as [s' [a|e]]; reflexivity. Qed.

Lemma bind_ok {A B} (c : PyM S A) (k : A -> PyM S B) s s' a :
  c s = (s', Ok a) -> bind c k s = k a s'.
Proof. intros H. unfold bind. by rewrite H. Qed.
End Monad.

#[export] Hint Rewrite @bind_ret_l @bind_raise @bind_assoc : randbox.
#[export] Hint Resolve py_getitem_lookup py_setitem_lt : randbox.
