(* ===== verification/Bitarray.v ===== *)
(** * The part of the [bitarray] library that randbox calls

    A [bitarray(endian='big')] is a [list bool]; a byte is a [Z] in
    [0, 256).  [frombytes] appends each byte most significant bit first,
    [tobytes] packs bits eight at a time and pads the last byte with zero
    bits; [&], [|], [^] raise [ValueError] on operands of different
    lengths and [~] negates every bit.  (The library also refuses operands
    of different endianness; every bitarray of the repository is
    big-endian, so the endianness is not modelled.)  The lemmas give the
    lengths, the byte/bit round trips and the algebra of [^] that the
    theorems on [otp] use. *)

From S2P Require Import Prelude.

Open Scope Z_scope.

(** ** Bytes and bits *)

(** The eight bits of a byte, most significant first. *)
Definition byte_bits (b : Z) : list bool :=
  [Z.testbit b 7; Z.testbit b 6; Z.testbit b 5; Z.testbit b 4;
   Z.testbit b 3; Z.testbit b 2; Z.testbit b 1; Z.testbit b 0].

(** The byte whose bits, most significant first, are [l]. *)
Definition bits_byte (l : list bool) : Z :=
  fold_left (fun acc b => acc * 2 + Z.b2z b) l 0.

(** [a.frombytes(bs)] on an empty big-endian bitarray. *)
Definition frombytes (bs : list Z) : list bool := concat (map byte_bits bs).

(** [a.tobytes()] (and [bytearray(a)]): whole bytes, then a last byte
    padded with zero bits. *)
Fixpoint tobytes (a : list bool) : list Z :=
  match a with
  | b7 :: b6 :: b5 :: b4 :: b3 :: b2 :: b1 :: b0 :: rest =>
      bits_byte [b7; b6; b5; b4; b3; b2; b1; b0] :: tobytes rest
  | [] => []
  | part => [bits_byte (part ++ replicate (8 - length part) false)]
  end.

Definition is_byte (b : Z) : bool := (0 <=? b) && (b <? 256).

(** ** Bitwise operators *)

Definition ba_binop (f : bool -> bool -> bool) (a b : list bool) : result (list bool) :=
  if decide (length a = length b) then Ok (zip_with f a b) else Raise ValueError.

Definition ba_and : list bool -> list bool -> result (list bool) := ba_binop andb.
Definition ba_or : list bool -> list bool -> result (list bool) := ba_binop orb.
Definition ba_xor : list bool -> list bool -> result (list bool) := ba_binop xorb.
Definition ba_invert (a : list bool) : list bool := map negb a.

(** ** Lengths *)

Lemma length_byte_bits b : length (byte_bits b) = 8%nat.
Proof. reflexivity. Qed.

Lemma length_frombytes bs : length (frombytes bs) = (8 * length bs)%nat.
Proof.
  unfold frombytes. induction bs as [|b bs IH]; cbn [map concat]; [done|].
  rewrite length_app, IH, length_byte_bits. simpl length. lia.
Qed.

Lemma ba_binop_ok f a b :
  length a = length b -> ba_binop f a b = Ok (zip_with f a b).
Proof. intros H. unfold ba_binop. by rewrite decide_True. Qed.

Lemma ba_binop_mismatch f a b :
  length a <> length b -> ba_binop f a b = Raise ValueError.
Proof. intros H. unfold ba_binop. by rewrite decide_False. Qed.

Lemma length_zip_with_eq {A B C} (f : A -> B -> C) l1 l2 :
  length l1 = length l2 -> length (zip_with f l1 l2) = length l1.
Proof. intros H. rewrite length_zip_with. lia. Qed.

#[export] Hint Rewrite length_frombytes @length_map @length_zip_with : randbox.

(** ** Round trips *)

Lemma bits_byte_byte_bits b : is_byte b = true -> bits_byte (byte_bits b) = b.
Proof.
  unfold is_byte. intros Hb. apply andb_true_iff in Hb as [H0 H1].
  apply Z.leb_le in H0. apply Z.ltb_lt in H1.
  assert (Hall : forallb (fun z => bits_byte (byte_bits z) =? z) (map Z.of_nat (seq 0 256)) = true)
    by (vm_compute; reflexivity).
  rewrite forallb_forall in Hall.
  apply Z.eqb_eq, Hall. apply in_map_iff. exists (Z.to_nat b).
  split; [lia|]. apply in_seq. lia.
Qed.

Lemma tobytes_frombytes bs : Forall (fun b => is_byte b = true) bs -> tobytes (frombytes bs) = bs.
Proof.
  induction 1 as [|b bs Hb _ IH]; [done|].
  unfold frombytes in *. simpl. rewrite IH. f_equal. by apply bits_byte_byte_bits.
Qed.

(** [a.padbits]: the zero bits [tobytes] appends to fill the last byte. *)
Definition padbits (n : nat) : nat := ((8 - n mod 8) mod 8)%nat.

Lemma byte_bits_bits_byte (l : list bool) : length l = 8%nat -> byte_bits (bits_byte l) = l.
Proof.
  intros Hl. do 8 (destruct l as [|? l]; [simpl in Hl; lia|]). destruct l; [|simpl in Hl; lia].
  repeat match goal with b : bool |- _ => destruct b end; reflexivity.
Qed.

Lemma padbits_add8 n : padbits (8 + n) = padbits n.
Proof. unfold padbits. f_equal. f_equal. replace (8 + n)%nat with (n + 1 * 8)%nat by lia.
       by rewrite Nat.Div0.mod_add. Qed.

(** The last, partial byte of [tobytes]: its bits and the padding. *)
Ltac tobytes_tail :=
  unfold frombytes; cbn [tobytes map concat app length replicate Nat.sub];
  rewrite ?app_nil_r, ?byte_bits_bits_byte by reflexivity; reflexivity.

(** [frombytes] reads the low eight bits of each number. *)
Lemma byte_bits_mod z : byte_bits z = byte_bits (z mod 256).
Proof.
  unfold byte_bits. change 256 with (2 ^ 8).
  by rewrite !(Z.mod_pow2_bits_low z 8) by lia.
Qed.

Lemma is_byte_mod z : is_byte (z mod 256) = true.
Proof.
  unfold is_byte. pose proof (Z.mod_pos_bound z 256 ltac:(lia)).
  apply andb_true_iff. split; [apply Z.leb_le | apply Z.ltb_lt]; lia.
Qed.

Lemma tobytes_byte_bits_app z r : tobytes (byte_bits z ++ r) = bits_byte (byte_bits z) :: tobytes r.
Proof. reflexivity. Qed.

Lemma tobytes_frombytes_mod (k : list Z) : tobytes (frombytes k) = map (fun z => z mod 256) k.
Proof.
  induction k as [|z k IH]; [done|]. unfold frombytes in *. cbn [map concat].
  rewrite tobytes_byte_bits_app, IH, byte_bits_mod, bits_byte_byte_bits by apply is_byte_mod.
  done.
Qed.

Lemma is_byte_mod_small m : is_byte m = true -> m mod 256 = m.
Proof.
  unfold is_byte. intros Hm. apply andb_true_iff in Hm as [H0 H1].
  apply Z.leb_le in H0. apply Z.ltb_lt in H1. by apply Z.mod_small.
Qed.

Lemma lxor_mod256 x y : Z.lxor x y mod 256 = Z.lxor (x mod 256) (y mod 256).
Proof.
  change 256 with (2 ^ 8). rewrite <- !(Z.land_ones _ 8) by lia.
  apply Z.bits_inj'. intros i _. rewrite Z.lxor_spec, !Z.land_spec, Z.lxor_spec.
  by destruct (Z.testbit x i), (Z.testbit y i), (Z.testbit (Z.ones 8) i).
Qed.

Lemma is_byte_lxor x y : is_byte x = true -> is_byte y = true -> is_byte (Z.lxor x y) = true.
Proof.
  intros Hx Hy. rewrite <- (is_byte_mod_small x Hx), <- (is_byte_mod_small y Hy), <- lxor_mod256.
  apply is_byte_mod.
Qed.

(** ** Algebra of [^] *)

Lemma zip_with_xorb_cancel (a b : list bool) :
  length a = length b -> zip_with xorb (zip_with xorb a b) b = a.
Proof.
  revert b. induction a as [|x a IH]; intros [|y b] Hl; simpl in *; try done; try lia.
  rewrite IH by lia. by destruct x, y.
Qed.

(** Byte-wise [^] of two byte strings is bit-wise [^] of their bits. *)
Lemma frombytes_lxor (k m : list Z) :
  length k = length m ->
  zip_with xorb (frombytes k) (frombytes m) = frombytes (zip_with Z.lxor k m).
Proof.
  revert m. induction k as [|x k IH]; intros [|y m] Hl; simpl in Hl; try done; try lia.
  unfold frombytes in *. cbn [map concat zip_with]. rewrite zip_with_app by reflexivity.
  rewrite IH by lia. f_equal. unfold byte_bits. cbn [zip_with]. by rewrite !Z.lxor_spec.
Qed.

(** ** Round trips *)

Lemma frombytes_tobytes_pad (a : list bool) :
  frombytes (tobytes a) = a ++ replicate (padbits (length a)) false.
Proof.
  remember (length a) as n eqn:Hn. revert a Hn. induction n as [n IH] using lt_wf_ind. intros a ->.
  do 8 (destruct a as [|? a]; [tobytes_tail|]).
  unfold frombytes in *. cbn [tobytes map concat].
  rewrite byte_bits_bits_byte by reflexivity. rewrite (IH (length a)) by (simpl; lia).
  cbn [length app]. by rewrite <- padbits_add8.
Qed.

Lemma length_tobytes (a : list bool) (k : nat) : length a = (8 * k)%nat -> length (tobytes a) = k.
Proof.
  revert a. induction k as [|k IH]; intros a Hl.
  - destruct a; [done | simpl in Hl; lia].
  - do 8 (destruct a as [|? a]; [simpl in Hl; lia|]).
    simpl in Hl. simpl. rewrite IH by lia. done.
Qed.

Lemma frombytes_tobytes (a : list bool) (k : nat) :
  length a = (8 * k)%nat -> frombytes (tobytes a) = a.
Proof.
  intros Hl. rewrite frombytes_tobytes_pad, Hl. unfold padbits.
  rewrite Nat.mul_comm, Nat.Div0.mod_mul. simpl. apply app_nil_r.
Qed.

Lemma is_byte_bits_byte (l : list bool) : length l = 8%nat -> is_byte (bits_byte l) = true.
Proof.
  intros Hl. do 8 (destruct l as [|? l]; [simpl in Hl; lia|]). destruct l; [|simpl in Hl; lia].
  repeat match goal with b : bool |- _ => destruct b end; reflexivity.
Qed.

(** Every number [tobytes] produces is a byte. *)
Lemma tobytes_bytes (a : list bool) : Forall (fun b => is_byte b = true) (tobytes a).
Proof.
  remember (length a) as n eqn:Hn. revert a Hn. induction n as [n IH] using lt_wf_ind. intros a ->.
  do 8 (destruct a as [|? a];
        [cbn [tobytes]; repeat constructor; apply is_byte_bits_byte; reflexivity|]).
  cbn [tobytes]. constructor; [by apply is_byte_bits_byte|]. apply (IH (length a)); [simpl; lia | done].
Qed.

