(* ===== verification/Prob.v ===== *)
(** * Per-bit probability propagation

    The bodies of the loops of [RandBytes.__and__], [__or__], [__xor__]
    and [__invert__] ([src/pyrand.py]) update the probability that an
    output bit is one, one index at a time.  This file gives each update
    as a function on [Q] and its meaning: [bern p] is the Bernoulli
    distribution with [Pr(1) = p]; [pr_indep f p q] is the probability
    that [f x y] is one for independent [x ~ bern p], [y ~ bern q];
    [pr_same f p] the same for [y = x] (the same object on both sides);
    [pr_lit f p b] for a known second operand [b].  The theorems show the
    code's formulas are these probabilities, keep [[0,1]] and respect
    [Qeq]. *)

From S2P Require Import Prelude.
From Stdlib Require Export QArith.
From Stdlib Require Import Lqa Morphisms.

Open Scope Q_scope.

#[export] Instance Q_inhabited : Inhabited Q := populate 0.

(** ** The code's updates *)

(** [__and__] with a bitarray: [if not other[i]: newRB._pr_one[i] = 0]. *)
Definition and_lit (p : Q) (b : bool) : Q := if b then p else 0.
(** [__or__] with a bitarray: [if other[i]: newRB._pr_one[i] = 1]. *)
Definition or_lit (p : Q) (b : bool) : Q := if b then 1 else p.
(** [__xor__] with a bitarray:
    [if other[i]: newRB._pr_one[i] = 1 - newRB._pr_one[i]]. *)
Definition xor_lit (p : Q) (b : bool) : Q := if b then 1 - p else p.

(** [self._pr_one[i] * other._pr_one[i]] *)
Definition and_pr (p q : Q) : Q := p * q.
(** [1 - ((1 - self._pr_one[i]) * (1 - other._pr_one[i]))] *)
Definition or_pr (p q : Q) : Q := 1 - ((1 - p) * (1 - q)).
(** [self._pr_one[i] * (1 - other._pr_one[i]) + other._pr_one[i] * (1 - self._pr_one[i])] *)
Definition xor_pr (p q : Q) : Q := p * (1 - q) + q * (1 - p).
(** [1 - i for i in self._pr_one] *)
Definition not_pr (p : Q) : Q := 1 - p.

(** ** Their meaning *)

Definition bern (p : Q) (x : bool) : Q := if x then p else 1 - p.

Definition pr_when (c : bool) (w : Q) : Q := if c then w else 0.

Definition pr_indep (f : bool -> bool -> bool) (p q : Q) : Q :=
  pr_when (f true true) (bern p true * bern q true) +
  pr_when (f true false) (bern p true * bern q false) +
  pr_when (f false true) (bern p false * bern q true) +
  pr_when (f false false) (bern p false * bern q false).

Definition pr_same (f : bool -> bool -> bool) (p : Q) : Q :=
  pr_when (f true true) (bern p true) + pr_when (f false false) (bern p false).

Definition pr_lit (f : bool -> bool -> bool) (p : Q) (b : bool) : Q :=
  pr_when (f true b) (bern p true) + pr_when (f false b) (bern p false).

Definition pr_un (f : bool -> bool) (p : Q) : Q :=
  pr_when (f true) (bern p true) + pr_when (f false) (bern p false).

Definition is_prob (p : Q) : Prop := 0 <= p <= 1.

Definition is_probb (p : Q) : bool := Qle_bool 0 p && Qle_bool p 1.

Lemma is_probb_spec p : is_probb p = true <-> is_prob p.
Proof.
  unfold is_probb, is_prob. rewrite andb_true_iff, !Qle_bool_iff. done.
Qed.

Ltac unfold_pr :=
  unfold pr_indep, pr_same, pr_lit, pr_un, pr_when, bern,
    and_lit, or_lit, xor_lit, and_pr, or_pr, xor_pr, not_pr, is_prob in *.

(** ** The formulas are the probabilities *)

Lemma Qprod_compl_zero p : p * (1 - p) == 0 <-> p == 0 \/ p == 1.
Proof.
  split.
  - intros H. apply Qmult_integral in H as [H|H]; [by left | right; lra].
  - intros [H|H]; rewrite H; reflexivity.
Qed.

(** C18 The updates of [__and__], [__or__] and [__xor__] for two
    different objects are the probabilities that [x & y], [x | y] and
    [x ^ y] are one for independent bits with [Pr(x = 1) = p] and
    [Pr(y = 1) = q].  Applied to the same object they give the right
    value only for a bit known for certain ([p = 0] or [p = 1]), which is
    why the code treats [id(self) == id(other)] apart. *)
Theorem binop_pr_indep (p q : Q) :
  and_pr p q == pr_indep andb p q /\
  or_pr p q == pr_indep orb p q /\
  xor_pr p q == pr_indep xorb p q /\
  (and_pr p p == pr_same andb p <-> p == 0 \/ p == 1) /\
  (or_pr p p == pr_same orb p <-> p == 0 \/ p == 1) /\
  (xor_pr p p == pr_same xorb p <-> p == 0 \/ p == 1).
Proof.
  rewrite <- !Qprod_compl_zero. unfold_pr; simpl.
  split_and!; try ring; split; intros; nra.
Qed.

(** C19 The updates with a known bitarray operand [b] and the update of
    [__invert__] are the probabilities that [x & b], [x | b], [x ^ b] and
    [~x] are one for a bit with [Pr(x = 1) = p]. *)
Theorem lit_pr_exact (p : Q) (b : bool) :
  and_lit p b == pr_lit andb p b /\
  or_lit p b == pr_lit orb p b /\
  xor_lit p b == pr_lit xorb p b /\
  not_pr p == pr_un negb p.
Proof. unfold_pr; destruct b; simpl; repeat split; ring. Qed.

(** On identical operands the independent formulas are wrong in general:
    only the identities below hold. *)
Lemma pr_same_values (p : Q) :
  pr_same andb p == p /\ pr_same orb p == p /\ pr_same xorb p == 0.
Proof. unfold_pr; simpl; repeat split; ring. Qed.

(** ** Range *)

Lemma and_pr_range p q : is_prob p -> is_prob q -> is_prob (and_pr p q).
Proof. unfold_pr. intros. split; nra. Qed.

Lemma or_pr_range p q : is_prob p -> is_prob q -> is_prob (or_pr p q).
Proof. unfold_pr. intros. split; nra. Qed.

Lemma xor_pr_range p q : is_prob p -> is_prob q -> is_prob (xor_pr p q).
Proof. unfold_pr. intros. split; nra. Qed.

Lemma not_pr_range p : is_prob p -> is_prob (not_pr p).
Proof. unfold_pr. intros. split; lra. Qed.

Lemma lit_range p b :
  is_prob p -> is_prob (and_lit p b) /\ is_prob (or_lit p b) /\ is_prob (xor_lit p b).
Proof. unfold_pr. intros. destruct b; repeat split; lra. Qed.

#[export] Hint Resolve and_pr_range or_pr_range xor_pr_range not_pr_range : randbox.

(** ** Compatibility with [Qeq] *)

#[export] Instance and_pr_proper : Proper (Qeq ==> Qeq ==> Qeq) and_pr.
Proof. intros p p' Hp q q' Hq. unfold and_pr. by rewrite Hp, Hq. Qed.
#[export] Instance or_pr_proper : Proper (Qeq ==> Qeq ==> Qeq) or_pr.
Proof. intros p p' Hp q q' Hq. unfold or_pr. by rewrite Hp, Hq. Qed.
#[export] Instance xor_pr_proper : Proper (Qeq ==> Qeq ==> Qeq) xor_pr.
Proof. intros p p' Hp q q' Hq. unfold xor_pr. by rewrite Hp, Hq. Qed.
#[export] Instance not_pr_proper : Proper (Qeq ==> Qeq) not_pr.
Proof. intros p p' Hp. unfold not_pr. by rewrite Hp. Qed.

(** C20 Every update the operators apply maps probabilities to
    probabilities: the entries of [_pr_one] stay in [[0, 1]]. *)
Theorem updates_keep_prob (p q : Q) (b : bool) :
  is_prob p -> is_prob q ->
  is_prob (and_pr p q) /\ is_prob (or_pr p q) /\ is_prob (xor_pr p q) /\ is_prob (not_pr p) /\
  is_prob (and_lit p b) /\ is_prob (or_lit p b) /\ is_prob (xor_lit p b).
Proof.
  intros Hp Hq. destruct (lit_range p b Hp) as (? & ? & ?).
  split_and!; auto with randbox.
Qed.

Lemma updates_keep_prob_witness :
  is_prob (and_pr (1#2) (1#3)) /\ is_prob (or_pr (1#2) (1#3)) /\ is_prob (xor_pr (1#2) (1#3)) /\
  is_prob (not_pr (1#2)) /\ is_prob (and_lit (1#2) true) /\ is_prob (or_lit (1#2) true) /\
  is_prob (xor_lit (1#2) true).
Proof. apply updates_keep_prob; apply is_probb_spec; reflexivity. Defined.
