(* ===== verification/RandBytes.v ===== *)
(** * The class [RandBytes] of [src/pyrand.py]

    The program's state [St] is its object heap (object identity to
    [RandBytes] record; Python's [id]), the counter that gives fresh
    identities, and the operating system's random source (a byte stream
    and the position [os.urandom] has reached).  Every method is a
    computation in [PyM St]; an operand of a binary operator is a
    [bitarray] value, a reference to a [RandBytes] object, or any other
    Python value ([OpOther]).  The three binary operators share their
    shape, [rb_binop], and differ in the bit operation, the loop over a
    [bitarray] operand and the update for a [RandBytes] operand, which
    are given separately as in the source.

    This file holds the state, the primitives, [__init__], [__len__],
    [unwrap] and the skeleton [rb_binop] with the lemmas on its branches,
    the checker [wf_stateb], the concrete state [demo_st] of the
    witnesses, and the interface [BinopLaws] through which the skeleton uses the
    per-operator parts.  The parts of each operator ([and_bits_body],
    [and_pair], ...), [rb_and], [rb_or], [rb_xor] and [rb_invert] are in
    [Operators]; the contract and the invariants in [Contract]; the state
    machine in [Machine]. *)

From S2P Require Import Prelude Bitarray Prob.
From stdpp Require Import gmap.
From Stdlib Require Import Lqa.

Open Scope py_scope.

(** ** State *)

Record RandBytes := mkRB {
  _wrapped : bool;
  _i : list bool;
  _n : Z;
  _pr_one : list Q
}.

Record St := mkSt {
  heap : gmap nat RandBytes;
  next_id : nat;
  urandom_src : nat -> Z;
  urandom_pos : nat
}.

Abbreviation M := (PyM St).

Inductive Operand :=
| OpBits (b : list bool)
| OpRB (x : nat)
| OpOther.

(** ** Heap and random source *)

Definition deref (x : nat) : M RandBytes :=
  fun s => match heap s !! x with
           | Some o => (s, Ok o)
           | None => (s, Raise NameError)
           end.

Definition store (x : nat) (o : RandBytes) : M unit :=
  fun s => (mkSt (<[x:=o]> (heap s)) (next_id s) (urandom_src s) (urandom_pos s), Ok tt).

Definition alloc (o : RandBytes) : M nat :=
  fun s => (mkSt (<[next_id s:=o]> (heap s)) (S (next_id s)) (urandom_src s) (urandom_pos s),
            Ok (next_id s)).

(** [os.urandom(n)]: [ValueError] for a negative [n]. *)
Definition urandom (n : Z) : M (list Z) :=
  fun s => if decide (n < 0)%Z then (s, Raise ValueError)
           else let k := Z.to_nat n in
                (mkSt (heap s) (next_id s) (urandom_src s) (urandom_pos s + k),
                 Ok (map (fun j => urandom_src s (urandom_pos s + j)) (seq 0 k))).

Definition with_wrapped (o : RandBytes) (w : bool) : RandBytes :=
  mkRB w (_i o) (_n o) (_pr_one o).

(** [x._wrapped = False] *)
Definition consume (x : nat) : M unit :=
  o <- deref x ;; store x (with_wrapped o false).

(** [newRB._i = bits; newRB._pr_one = pr] *)
Definition set_bits_pr (x : nat) (bits : list bool) (pr : list Q) : M unit :=
  o <- deref x ;; store x (mkRB (_wrapped o) bits (_n o) pr).

(** ** Methods *)

(** [RandBytes.__init__(self, n)] *)
Definition RandBytes_init (n : Z) : M nat :=
  bs <- urandom n ;;
  alloc (mkRB true (frombytes bs) n (replicate (Z.to_nat (n * 8)) (1#2))).

(** [RandBytes.__len__(self)] *)
Definition rb_len (self : nat) : M Z :=
  o <- deref self ;;
  if negb (_wrapped o) then raise RuntimeError else ret (_n o).

(** [RandBytes.unwrap(self)] *)
Definition unwrap (self : nat) : M (list bool) :=
  o <- deref self ;;
  store self (with_wrapped o false) ;;
  ret (_i o).

(** [newRB._pr_one[i] = f(self._pr_one[i], other._pr_one[i])] *)
Definition pair_body (f : Q -> Q -> Q) (p q : list Q) (i : nat) (acc : list Q) : result (list Q) :=
  x <-! py_getitem p i ;; y <-! py_getitem q i ;; py_setitem acc i (f x y).

(** [for i in range(k): ...] *)
Definition pair_loop (f : Q -> Q -> Q) (k : nat) (p q pr : list Q) : result (list Q) :=
  py_for 0 k (pair_body f p q) pr.

(** The common shape of [__and__], [__or__] and [__xor__]. *)
Definition rb_binop
    (bitop : list bool -> list bool -> result (list bool))
    (bits_body : list bool -> nat -> list Q -> result (list Q))
    (pair : bool -> Z -> RandBytes -> RandBytes -> list Q -> result (list Q))
    (self : nat) (other : Operand) : M nat :=
  s <- deref self ;;
  if negb (_wrapped s) then raise RuntimeError else
  match other with
  | OpBits b =>
      if decide (length (_i s) <> length b) then raise ValueError else
      k <- rb_len self ;;
      r <- RandBytes_init k ;;
      bits <- lift_res (bitop (_i s) b) ;;
      k' <- rb_len self ;;
      pr <- lift_res (py_for 0 (Z.to_nat (k' * 8)) (bits_body b) (_pr_one s)) ;;
      set_bits_pr r bits pr ;;
      consume self ;;
      ret r
  | OpRB x =>
      k1 <- rb_len self ;;
      k2 <- rb_len x ;;
      if decide (k1 <> k2) then raise ValueError else
      k <- rb_len self ;;
      r <- RandBytes_init k ;;
      o <- deref x ;;
      bits <- lift_res (bitop (_i s) (_i o)) ;;
      k' <- rb_len self ;;
      pr <- lift_res (pair (bool_decide (self = x)) k' s o (_pr_one s)) ;;
      set_bits_pr r bits pr ;;
      consume self ;;
      consume x ;;
      ret r
  | OpOther => raise TypeError
  end.

(** ** Well-formedness *)

(** A live object of [n] bytes has [8 n] bits and [8 n] probabilities in
    [[0,1]]; every identity at or above the counter is free. *)
Definition wf_rb (o : RandBytes) : Prop :=
  (0 <= _n o)%Z /\
  length (_i o) = Z.to_nat (_n o * 8) /\
  length (_pr_one o) = Z.to_nat (_n o * 8) /\
  Forall is_prob (_pr_one o).

Definition wf_state (s : St) : Prop :=
  map_Forall (fun _ => wf_rb) (heap s) /\
  forall x, next_id s <= x -> heap s !! x = None.

(** ** Step lemmas of the primitives *)

Definition upd_heap (s : St) (h : gmap nat RandBytes) : St :=
  mkSt h (next_id s) (urandom_src s) (urandom_pos s).

(** The bytes [os.urandom(n)] returns and the object the constructor builds. *)
Definition urandom_bytes (s : St) (n : Z) : list Z :=
  map (fun j => urandom_src s (urandom_pos s + j)) (seq 0 (Z.to_nat n)).

Definition fresh_rb (s : St) (n : Z) : RandBytes :=
  mkRB true (frombytes (urandom_bytes s n)) n (replicate (Z.to_nat (n * 8)) (1#2)).

Definition init_state (s : St) (n : Z) : St :=
  mkSt (<[next_id s := fresh_rb s n]> (heap s)) (S (next_id s)) (urandom_src s)
       (urandom_pos s + Z.to_nat n).

Section Steps.
Context {A : Type} (s : St).

Lemma bind_deref (k : RandBytes -> M A) x o : heap s !! x = Some o -> bind (deref x) k s = k o s.
Proof. intros H. unfold bind, deref. by rewrite H. Qed.

Lemma bind_rb_len_live (k : Z -> M A) x o :
  heap s !! x = Some o -> _wrapped o = true -> bind (rb_len x) k s = k (_n o) s.
Proof. intros H Hw. unfold rb_len. rewrite bind_assoc, (bind_deref _ _ o) by done. by rewrite Hw. Qed.

Lemma bind_store (k : unit -> M A) x o : bind (store x o) k s = k tt (upd_heap s (<[x:=o]> (heap s))).
Proof. reflexivity. Qed.

Lemma bind_lift_ok {B} (k : B -> M A) (a : B) : bind (lift_res (Ok a)) k s = k a s.
Proof. reflexivity. Qed.

Lemma bind_consume (k : unit -> M A) x o :
  heap s !! x = Some o ->
  bind (consume x) k s = k tt (upd_heap s (<[x:=with_wrapped o false]> (heap s))).
Proof. intros H. unfold consume. rewrite bind_assoc, (bind_deref _ _ o) by done. reflexivity. Qed.

Lemma bind_set_bits_pr (k : unit -> M A) x o bits pr :
  heap s !! x = Some o ->
  bind (set_bits_pr x bits pr) k s =
    k tt (upd_heap s (<[x:=mkRB (_wrapped o) bits (_n o) pr]> (heap s))).
Proof. intros H. unfold set_bits_pr. rewrite bind_assoc, (bind_deref _ _ o) by done. reflexivity. Qed.

Lemma bind_init (k : nat -> M A) n : (0 <= n)%Z -> bind (RandBytes_init n) k s = k (next_id s) (init_state s n).
Proof. intros Hn. unfold RandBytes_init, bind, urandom. rewrite decide_False by lia. reflexivity. Qed.
End Steps.

Lemma rb_len_dead s x o :
  heap s !! x = Some o -> _wrapped o = false -> rb_len x s = (s, Raise RuntimeError).
Proof. intros H Hw. unfold rb_len, bind, deref. cbv beta. rewrite H. by rewrite Hw. Qed.

(** ** The loops compute [zip_with] *)

Lemma bits_loop_zip (g : Q -> bool -> Q) (body : list bool -> nat -> list Q -> result (list Q))
    (b : list bool) (pr : list Q) :
  length b = length pr ->
  (forall i acc, i < length pr -> length acc = length pr ->
     body b i acc = Ok (<[i := g (acc !!! i) (b !!! i)]> acc)) ->
  py_for 0 (length pr) (body b) pr = Ok (zip_with g pr b).
Proof.
  intros Hl Hbody. rewrite (py_for_pointwise (fun i x => g x (b !!! i))).
  - f_equal. by apply imap_self_zip_with.
  - lia.
  - intros i acc Hi Hacc. apply Hbody; lia.
Qed.

Lemma pair_loop_zip (f : Q -> Q -> Q) (p q pr : list Q) :
  length p = length pr -> length q = length pr ->
  pair_loop f (length pr) p q pr = Ok (zip_with f p q).
Proof.
  intros Hp Hq. unfold pair_loop.
  rewrite (py_for_pointwise (fun i _ => f (p !!! i) (q !!! i))).
  - f_equal. by apply imap_read2_zip_with.
  - lia.
  - intros i acc Hi Hacc. unfold pair_body.
    rewrite (py_getitem_lookup p i (p !!! i)) by (apply list_lookup_lookup_total_lt; lia).
    simpl.
    rewrite (py_getitem_lookup q i (q !!! i)) by (apply list_lookup_lookup_total_lt; lia).
    apply py_setitem_lt. lia.
Qed.

(** ** The shared operator shape, branch by branch *)

(** The state after an operator that succeeded: the counter has given
    one identity and the constructor read [n] bytes. *)
Definition post_state (s : St) (h : gmap nat RandBytes) (n : Z) : St :=
  mkSt h (S (next_id s)) (urandom_src s) (urandom_pos s + Z.to_nat n).

Ltac lk := cbn [heap init_state upd_heap]; simplify_map_eq; done.

Section Binop.
Context (bitop : list bool -> list bool -> result (list bool))
        (body : list bool -> nat -> list Q -> result (list Q))
        (pair : bool -> Z -> RandBytes -> RandBytes -> list Q -> result (list Q)).
Context (s : St) (x : nat) (ox : RandBytes) (Hx : heap s !! x = Some ox).

Lemma rb_binop_dead_self other :
  _wrapped ox = false -> rb_binop bitop body pair x other s = (s, Raise RuntimeError).
Proof. intros Hw. unfold rb_binop. rewrite (bind_deref _ _ _ ox), Hw by done. done. Qed.

Context (Hwx : _wrapped ox = true).

Lemma rb_binop_other_type : rb_binop bitop body pair x OpOther s = (s, Raise TypeError).
Proof. unfold rb_binop. rewrite (bind_deref _ _ _ ox), Hwx by done. done. Qed.

Lemma rb_binop_bits_mismatch b :
  length (_i ox) <> length b -> rb_binop bitop body pair x (OpBits b) s = (s, Raise ValueError).
Proof.
  intros Hl. unfold rb_binop. rewrite (bind_deref _ _ _ ox), Hwx by done. cbn [negb].
  by rewrite decide_True.
Qed.

Lemma rb_binop_missing_other y :
  heap s !! y = None -> rb_binop bitop body pair x (OpRB y) s = (s, Raise NameError).
Proof.
  intros Hy. unfold rb_binop. rewrite (bind_deref _ _ _ ox), Hwx by done. cbn [negb].
  rewrite (bind_rb_len_live _ _ _ ox) by done.
  unfold bind at 1, rb_len, bind, deref. cbv beta. by rewrite Hy.
Qed.

Lemma rb_binop_dead_other y oy :
  heap s !! y = Some oy -> _wrapped oy = false ->
  rb_binop bitop body pair x (OpRB y) s = (s, Raise RuntimeError).
Proof.
  intros Hy Hwy. unfold rb_binop. rewrite (bind_deref _ _ _ ox), Hwx by done. cbn [negb].
  rewrite (bind_rb_len_live _ _ _ ox) by done.
  unfold bind at 1. by rewrite (rb_len_dead _ _ oy).
Qed.

Lemma rb_binop_len_mismatch y oy :
  heap s !! y = Some oy -> _wrapped oy = true -> _n ox <> _n oy ->
  rb_binop bitop body pair x (OpRB y) s = (s, Raise ValueError).
Proof.
  intros Hy Hwy Hn. unfold rb_binop. rewrite (bind_deref _ _ _ ox), Hwx by done. cbn [negb].
  rewrite (bind_rb_len_live _ _ _ ox), (bind_rb_len_live _ _ _ oy) by done.
  by rewrite decide_True.
Qed.

Context (Hfresh : heap s !! next_id s = None) (Hn0 : (0 <= _n ox)%Z).

Lemma rb_binop_bits_ok b bits pr :
  length (_i ox) = length b ->
  bitop (_i ox) b = Ok bits ->
  py_for 0 (Z.to_nat (_n ox * 8)) (body b) (_pr_one ox) = Ok pr ->
  rb_binop bitop body pair x (OpBits b) s =
    (post_state s (<[x := with_wrapped ox false]>
       (<[next_id s := mkRB true bits (_n ox) pr]> (heap s))) (_n ox), Ok (next_id s)).
Proof.
  intros Hl Hbits Hpr.
  assert (Hxf : x <> next_id s) by (intros ->; congruence).
  unfold rb_binop. rewrite (bind_deref _ _ _ ox), Hwx by done. cbn [negb].
  rewrite decide_False by (intros Hne; exact (Hne Hl)).
  rewrite (bind_rb_len_live _ _ _ ox), bind_init by done.
  rewrite Hbits, bind_lift_ok, (bind_rb_len_live _ _ _ ox) by lk.
  rewrite Hpr, bind_lift_ok.
  rewrite (bind_set_bits_pr _ _ _ (fresh_rb s (_n ox))) by lk.
  rewrite (bind_consume _ _ _ ox) by lk.
  unfold ret, post_state, upd_heap, init_state. simpl. by rewrite insert_insert_eq.
Qed.

Lemma rb_binop_pair_ok y oy bits pr :
  heap s !! y = Some oy -> _wrapped oy = true -> _n ox = _n oy ->
  bitop (_i ox) (_i oy) = Ok bits ->
  pair (bool_decide (x = y)) (_n ox) ox oy (_pr_one ox) = Ok pr ->
  rb_binop bitop body pair x (OpRB y) s =
    (post_state s (<[y := with_wrapped oy false]> (<[x := with_wrapped ox false]>
       (<[next_id s := mkRB true bits (_n ox) pr]> (heap s)))) (_n ox), Ok (next_id s)).
Proof.
  intros Hy Hwy Hn Hbits Hpr.
  assert (Hxf : x <> next_id s) by (intros ->; congruence).
  assert (Hyf : y <> next_id s) by (intros ->; congruence).
  unfold rb_binop. rewrite (bind_deref _ _ _ ox), Hwx by done. cbn [negb].
  rewrite (bind_rb_len_live _ _ _ ox), (bind_rb_len_live _ _ _ oy) by done.
  rewrite decide_False by congruence.
  rewrite (bind_rb_len_live _ _ _ ox), bind_init by done.
  rewrite (bind_deref _ _ _ oy) by lk.
  rewrite Hbits, bind_lift_ok, (bind_rb_len_live _ _ _ ox) by lk.
  rewrite Hpr, bind_lift_ok.
  rewrite (bind_set_bits_pr _ _ _ (fresh_rb s (_n ox))) by lk.
  rewrite (bind_consume _ _ _ ox) by lk.
  destruct (decide (x = y)) as [<-|Hxy].
  - assert (oy = ox) as -> by congruence.
    rewrite (bind_consume _ _ _ (with_wrapped ox false)) by lk.
    unfold ret, post_state, upd_heap, init_state. simpl. by rewrite !insert_insert_eq.
  - rewrite (bind_consume _ _ _ oy) by lk.
    unfold ret, post_state, upd_heap, init_state. simpl. by rewrite insert_insert_eq.
Qed.
End Binop.

Lemma rb_binop_missing_self bitop body pair s x other :
  heap s !! x = None -> rb_binop bitop body pair x other s = (s, Raise NameError).
Proof. intros Hx. unfold rb_binop, bind, deref. cbv beta. by rewrite Hx. Qed.

(** ** What each operator's parts promise to the shared shape *)

(** [bitop] is the bitwise operator [f]; the loop over a [bitarray]
    operand computes [g_lit] at every index; the update for a
    [RandBytes] operand computes [g2] at every index for two distinct
    objects and [g_self] for the same object; all three keep
    probabilities in [[0,1]]. *)
Class BinopLaws (f : bool -> bool -> bool) (g_lit : Q -> bool -> Q) (g2 : Q -> Q -> Q)
    (g_self : Q -> Q) (bitop : list bool -> list bool -> result (list bool))
    (body : list bool -> nat -> list Q -> result (list Q))
    (pair : bool -> Z -> RandBytes -> RandBytes -> list Q -> result (list Q)) := {
  law_bitop a b : length a = length b -> bitop a b = Ok (zip_with f a b);
  law_body b pr : length b = length pr ->
    py_for 0 (length pr) (body b) pr = Ok (zip_with g_lit pr b);
  law_pair o o' : wf_rb o -> wf_rb o' -> _n o = _n o' ->
    pair false (_n o) o o' (_pr_one o) = Ok (zip_with g2 (_pr_one o) (_pr_one o'));
  law_self o : wf_rb o -> pair true (_n o) o o (_pr_one o) = Ok (map g_self (_pr_one o));
  law_lit_prob p b : is_prob p -> is_prob (g_lit p b);
  law_g2_prob p q : is_prob p -> is_prob q -> is_prob (g2 p q);
  law_self_prob p : is_prob p -> is_prob (g_self p)
}.

Lemma pair_loop_wf f o o' :
  wf_rb o -> wf_rb o' -> _n o = _n o' ->
  pair_loop f (Z.to_nat (_n o * 8)) (_pr_one o) (_pr_one o') (_pr_one o)
  = Ok (zip_with f (_pr_one o) (_pr_one o')).
Proof.
  intros (_ & _ & Hl & _) (_ & _ & Hl' & _) Hn.
  rewrite <- Hl. apply pair_loop_zip; lia.
Qed.

Lemma map_const_replicate {A B} (c : B) (l : list A) : map (fun _ => c) l = replicate (length l) c.
Proof. induction l; simpl; f_equal; auto. Qed.

Lemma wf_lookup s x o : wf_state s -> heap s !! x = Some o -> wf_rb o.
Proof. intros [Hall _] Hx. exact (Hall x o Hx). Qed.

Lemma wf_fresh s : wf_state s -> heap s !! next_id s = None.
Proof. intros [_ Hf]. by apply Hf. Qed.

#[export] Hint Resolve wf_lookup wf_fresh : randbox.

(** ** The other methods, branch by branch *)

Section Methods.
Context (s : St) (x : nat) (ox : RandBytes) (Hx : heap s !! x = Some ox).

Lemma rb_len_live x_live : _wrapped ox = x_live -> x_live = true -> rb_len x s = (s, Ok (_n ox)).
Proof. intros Hw ->. unfold rb_len, bind, deref. cbv beta. rewrite Hx. by rewrite Hw. Qed.

(** [unwrap] does not look at [_wrapped]: it succeeds on a consumed
    buffer too. *)
Lemma unwrap_spec :
  unwrap x s = (upd_heap s (<[x := with_wrapped ox false]> (heap s)), Ok (_i ox)).
Proof. unfold unwrap. rewrite (bind_deref _ _ _ ox) by done. reflexivity. Qed.

End Methods.

Lemma rb_init_negative s n : (n < 0)%Z -> RandBytes_init n s = (s, Raise ValueError).
Proof. intros Hn. unfold RandBytes_init, bind, urandom. by rewrite decide_True. Qed.

Lemma rb_init_ok s n : (0 <= n)%Z -> RandBytes_init n s = (init_state s n, Ok (next_id s)).
Proof. intros Hn. unfold RandBytes_init, bind, urandom. by rewrite decide_False by lia. Qed.

Lemma rb_len_state s x : fst (rb_len x s) = s.
Proof.
  unfold rb_len, bind, deref. cbv beta.
  destruct (heap s !! x) as [o|]; [|done]. by destruct (_wrapped o).
Qed.

Lemma unwrap_missing s x : heap s !! x = None -> unwrap x s = (s, Raise NameError).
Proof. intros Hx. unfold unwrap, bind, deref. cbv beta. by rewrite Hx. Qed.

(** ** Deciding well-formedness *)

Definition wf_rbb (o : RandBytes) : bool :=
  (0 <=? _n o)%Z && (length (_i o) =? Z.to_nat (_n o * 8)) &&
  (length (_pr_one o) =? Z.to_nat (_n o * 8)) && forallb is_probb (_pr_one o).

Definition wf_stateb (s : St) : bool :=
  forallb (fun '(k, o) => (k <? next_id s) && wf_rbb o) (map_to_list (heap s)).

Lemma wf_rbb_spec o : wf_rbb o = true -> wf_rb o.
Proof.
  unfold wf_rbb, wf_rb. rewrite !andb_true_iff, Z.leb_le, !Nat.eqb_eq, forallb_forall.
  intros (((Hn & Hi) & Hp) & Hpr). split_and!; [done..|].
  apply Forall_forall. intros p Hin. apply is_probb_spec, Hpr, list_elem_of_In, Hin.
Qed.

Lemma wf_stateb_spec s : wf_stateb s = true -> wf_state s.
Proof.
  unfold wf_stateb. rewrite forallb_forall. intros Hall.
  assert (Hk : forall k o, heap s !! k = Some o -> k < next_id s /\ wf_rb o).
  { intros k o Hk. apply elem_of_map_to_list, list_elem_of_In, Hall in Hk.
    apply andb_true_iff in Hk as [Hlt Ho]. split; [by apply Nat.ltb_lt | by apply wf_rbb_spec]. }
  split.
  - intros k o Ho. by apply Hk in Ho as [_ ?].
  - intros z Hz. destruct (heap s !! z) as [o|] eqn:Ho; [|done].
    apply Hk in Ho as [? _]. lia.
Qed.

(** A small concrete state used by the witnesses: two live one-byte
    buffers, objects 0 and 1, and a consumed one, object 2. *)
Definition demo_obj (b : Z) : RandBytes := mkRB true (frombytes [b]) 1 (replicate 8 (1#2)).
Definition demo_st : St :=
  mkSt (<[2 := with_wrapped (demo_obj 7) false]> (<[1 := demo_obj 200]> (<[0 := demo_obj 105]> ∅)))
       3 (fun k => Z.of_nat (k * 37 mod 256)) 0.

Ltac wit := first [ apply wf_stateb_spec; vm_compute; reflexivity | reflexivity | lia ].

(** ** Properties of [__init__] and [unwrap] *)

Lemma with_wrapped_consumed o : _wrapped o = false -> with_wrapped o false = o.
Proof. destruct o; simpl. by intros ->. Qed.

Lemma wf_fresh_rb s n : (0 <= n)%Z -> wf_rb (fresh_rb s n).
Proof.
  intros Hn. unfold fresh_rb, wf_rb, urandom_bytes. simpl.
  rewrite length_frombytes, length_map, length_seq, length_replicate.
  split_and!; [lia | lia | lia |]. apply Forall_replicate. unfold is_prob. lra.
Qed.


(** A heap built from [heap s] by inserting well-formed objects at
    identities below [S (next_id s)] is well-formed. *)


(** C16 [RandBytes(n)] for [n >= 0] allocates a fresh live buffer of
    [8 n] bits read from the next [n] bytes of the random source, every
    probability [1/2]; for [n < 0] it raises [ValueError] (from
    [os.urandom]) and changes nothing. *)
Theorem rb_init_fresh s n :
  ((0 <= n)%Z ->
     RandBytes_init n s = (init_state s n, Ok (next_id s)) /\
     heap (init_state s n) !! next_id s = Some (fresh_rb s n) /\
     _wrapped (fresh_rb s n) = true /\
     _i (fresh_rb s n) = frombytes (urandom_bytes s n) /\
     length (_i (fresh_rb s n)) = Z.to_nat (n * 8) /\
     _pr_one (fresh_rb s n) = replicate (Z.to_nat (n * 8)) (1#2) /\
     urandom_pos (init_state s n) = urandom_pos s + Z.to_nat n) /\
  ((n < 0)%Z -> RandBytes_init n s = (s, Raise ValueError)).
Proof.
  split; [|apply rb_init_negative]. intros Hn.
  split_and!; try done.
  - by apply rb_init_ok.
  - unfold init_state. simpl. by rewrite lookup_insert_eq.
  - apply (wf_fresh_rb s n Hn).
Qed.

(** C17 [unwrap] does not check the one-shot flag: on a consumed buffer
    it returns the raw bits again and leaves the state as it was. *)
Theorem unwrap_consumed s x ox :
  heap s !! x = Some ox -> _wrapped ox = false -> unwrap x s = (s, Ok (_i ox)).
Proof.
  intros Hx Hw. rewrite (unwrap_spec _ _ ox Hx), with_wrapped_consumed by done.
  rewrite insert_id by done. by destruct s.
Qed.

Lemma rb_init_fresh_witness :
  RandBytes_init 2 demo_st = (init_state demo_st 2, Ok 3) /\
  length (_i (fresh_rb demo_st 2)) = 16.
Proof.
  destruct (proj1 (rb_init_fresh demo_st 2) ltac:(lia)) as (H1 & _ & _ & _ & H2 & _).
  split; [exact H1 | exact H2].
Defined.

Lemma unwrap_consumed_witness : unwrap 2 demo_st = (demo_st, Ok (_i (demo_obj 7))).
Proof. apply (unwrap_consumed demo_st 2 (with_wrapped (demo_obj 7) false)); wit. Defined.
