(* ===== verification/Urandom.v ===== *)
(** * The random source as a uniform distribution

    [os.urandom(n)] (called by [RandBytes.__init__], [src/pyrand.py]
    line 16) must return [n] cryptographically random bytes (the
    specification, section 4.1).  Elsewhere the development treats its
    output as an arbitrary stream; here the ideal source is the uniform
    distribution on byte strings of length [n]: [keys n] lists all of
    them, each once, and the probability of an event is the fraction
    [freq] of the strings in which it holds.

    Against that distribution the theorem checks the probability model
    of the constructor: the object [RandBytes(n)] allocates holds the
    bits of the bytes read, and the [.5] that [__init__] puts in
    [_pr_one] is the frequency of a one in every bit.  The counting
    lemmas for two and three independent keys and for the pad
    ([k |-> k ^ m] is a bijection of the keys) serve the theorems on
    whole runs in [Runs]. *)

From S2P Require Import Prelude Bitarray Prob RandBytes.
From stdpp Require Import list gmap.
From Stdlib Require Import Lqa.

Open Scope py_scope.

(** ** The uniform source *)

(** The 256 values of a byte. *)
Definition all_bytes : list Z := map Z.of_nat (seq 0 256).

(** Every string of [n] bytes, each once: the outcomes of
    [os.urandom(n)]. *)
Fixpoint keys (n : nat) : list (list Z) :=
  match n with
  | O => [[]]
  | S n => flat_map (fun b => map (cons b) (keys n)) all_bytes
  end.

(** The number of outcomes in which an event holds. *)
Fixpoint count_if {A} (P : A -> bool) (l : list A) : nat :=
  match l with
  | [] => 0
  | x :: l => (if P x then 1 else 0) + count_if P l
  end.

(** The probability of an event under the uniform distribution on [l]. *)
Definition freq {A} (P : A -> bool) (l : list A) : Q :=
  inject_Z (Z.of_nat (count_if P l)) / inject_Z (Z.of_nat (length l)).

(** ** Counting *)

Section Counting.
Context {A : Type}.
Implicit Types (P R : A -> bool) (l : list A).

Lemma count_if_app P l1 l2 : count_if P (l1 ++ l2) = count_if P l1 + count_if P l2.
Proof. induction l1 as [|x l1 IH]; simpl; [done|]. rewrite IH. lia. Qed.

Lemma count_if_ext P R l : (forall x, P x = R x) -> count_if P l = count_if R l.
Proof. intros H. induction l as [|x l IH]; simpl; [done|]. by rewrite H, IH. Qed.

Lemma count_if_true l : count_if (fun _ => true) l = length l.
Proof. induction l; simpl; lia. Qed.

Lemma count_if_false l : count_if (fun _ => false) l = 0.
Proof. by induction l. Qed.

Lemma count_if_negb P l : count_if P l + count_if (fun x => negb (P x)) l = length l.
Proof. induction l as [|x l IH]; simpl; [done|]. destruct (P x); simpl; lia. Qed.

Lemma count_if_le P l : count_if P l <= length l.
Proof. pose proof (count_if_negb P l). lia. Qed.
End Counting.

Lemma count_if_map {A B} (P : B -> bool) (f : A -> B) (l : list A) :
  count_if P (map f l) = count_if (fun x => P (f x)) l.
Proof. induction l as [|x l IH]; simpl; [done|]. by rewrite IH. Qed.

(** An event on [b :: k] that is the conjunction of an event on the first
    byte and one on the rest has the product of their counts. *)
Lemma count_if_cons_prod (P : list Z -> bool) (Q : Z -> bool) (R : list Z -> bool) B L :
  (forall b k, P (b :: k) = Q b && R k) ->
  count_if P (flat_map (fun b => map (cons b) L) B) = count_if Q B * count_if R L.
Proof.
  intros HP. induction B as [|b B IH]; simpl; [done|].
  rewrite count_if_app, count_if_map, IH.
  rewrite (count_if_ext _ (fun k => Q b && R k)) by done.
  destruct (Q b); cbn [andb].
  - rewrite (count_if_ext (fun k => R k) R) by done. lia.
  - rewrite count_if_false. lia.
Qed.

Lemma count_keys_S (P : list Z -> bool) (Q : Z -> bool) (R : list Z -> bool) n :
  (forall b k, P (b :: k) = Q b && R k) ->
  count_if P (keys (S n)) = count_if Q all_bytes * count_if R (keys n).
Proof. apply count_if_cons_prod. Qed.

Lemma length_keys n : length (keys n) = 256 ^ n.
Proof.
  rewrite <- count_if_true. induction n as [|n IH]; [done|].
  rewrite (count_keys_S _ (fun _ => true) (fun _ => true)) by done.
  rewrite IH, Nat.pow_succ_r'. done.
Qed.

(** An event that holds in one outcome in [d] has probability [1 / d]. *)
Lemma freq_inv {A} (P : A -> bool) l (d : nat) :
  l <> [] -> (d * count_if P l = length l)%nat -> freq P l == 1 / inject_Z (Z.of_nat d).
Proof.
  intros Hne Hc. unfold freq. rewrite <- Hc, Nat2Z.inj_mul, inject_Z_mult.
  assert (Hpos : count_if P l <> 0%nat /\ d <> 0%nat) by (destruct l; [done | simpl length in Hc; lia]).
  assert (Hq : ~ inject_Z (Z.of_nat (count_if P l)) == 0).
  { intros H. unfold Qeq in H. simpl in H. lia. }
  assert (Hd : ~ inject_Z (Z.of_nat d) == 0).
  { intros H. unfold Qeq in H. simpl in H. lia. }
  field. auto.
Qed.

(** ** The bits of a fresh buffer *)

Lemma frombytes_cons b k : frombytes (b :: k) = byte_bits b ++ frombytes k.
Proof. reflexivity. Qed.

Lemma bit_frombytes_cons b k i :
  frombytes (b :: k) !!! i = if decide (i < 8) then byte_bits b !!! i else frombytes k !!! (i - 8).
Proof.
  rewrite frombytes_cons. case_decide.
  - apply lookup_total_app_l. rewrite length_byte_bits. done.
  - rewrite lookup_total_app_r; rewrite length_byte_bits; [done | lia].
Qed.

(** Half of the 256 bytes have any given bit set. *)
Lemma count_byte_bit i : i < 8 -> count_if (fun b => byte_bits b !!! i) all_bytes = 128.
Proof. intros Hi. do 8 (destruct i as [|i]; [reflexivity|]). lia. Qed.

Lemma count_bit_keys n i : i < 8 * n -> 2 * count_if (fun k => frombytes k !!! i) (keys n) = 256 ^ n.
Proof.
  revert i. induction n as [|n IH]; intros i Hi; [lia|].
  rewrite Nat.pow_succ_r'. destruct (decide (i < 8)).
  - rewrite (count_keys_S _ (fun b => byte_bits b !!! i) (fun _ => true)).
    + rewrite count_byte_bit, count_if_true, length_keys by done. lia.
    + intros b k. rewrite bit_frombytes_cons, decide_True by done. by rewrite andb_true_r.
  - rewrite (count_keys_S _ (fun _ => true) (fun k => frombytes k !!! (i - 8))).
    + rewrite count_if_true. specialize (IH (i - 8) ltac:(lia)). simpl length. lia.
    + intros b k. by rewrite bit_frombytes_cons, decide_False by lia.
Qed.

(** Two different bits of a byte are both set in a quarter of the bytes. *)
Lemma count_byte_bits2 i j :
  i < 8 -> j < 8 -> i <> j -> count_if (fun b => byte_bits b !!! i && byte_bits b !!! j) all_bytes = 64.
Proof.
  intros Hi Hj Hij.
  do 8 (destruct i as [|i]; [do 8 (destruct j as [|j]; [first [lia | reflexivity]|]); lia|]). lia.
Qed.

Lemma count_two_bits_keys n i j :
  i < 8 * n -> j < 8 * n -> i <> j ->
  4 * count_if (fun k => frombytes k !!! i && frombytes k !!! j) (keys n) = 256 ^ n.
Proof.
  revert i j. induction n as [|n IH]; intros i j Hi Hj Hij; [lia|].
  rewrite Nat.pow_succ_r'. destruct (decide (i < 8)), (decide (j < 8)).
  - rewrite (count_keys_S _ (fun b => byte_bits b !!! i && byte_bits b !!! j) (fun _ => true)).
    + rewrite count_byte_bits2, count_if_true, length_keys by done. lia.
    + intros b k. rewrite !bit_frombytes_cons, !decide_True by done. by rewrite andb_true_r.
  - rewrite (count_keys_S _ (fun b => byte_bits b !!! i) (fun k => frombytes k !!! (j - 8))).
    + rewrite count_byte_bit by done. pose proof (count_bit_keys n (j - 8) ltac:(lia)). lia.
    + intros b k. by rewrite !bit_frombytes_cons, decide_True, decide_False by lia.
  - rewrite (count_keys_S _ (fun b => byte_bits b !!! j) (fun k => frombytes k !!! (i - 8))).
    + rewrite count_byte_bit by done. pose proof (count_bit_keys n (i - 8) ltac:(lia)). lia.
    + intros b k. rewrite !bit_frombytes_cons, decide_False, decide_True by lia. apply andb_comm.
  - rewrite (count_keys_S _ (fun _ => true)
               (fun k => frombytes k !!! (i - 8) && frombytes k !!! (j - 8))).
    + rewrite count_if_true. specialize (IH (i - 8) (j - 8) ltac:(lia) ltac:(lia) ltac:(lia)).
      simpl length. lia.
    + intros b k. by rewrite !bit_frombytes_cons, !decide_False by lia.
Qed.

Lemma keys_nonempty n : keys n <> [].
Proof. intros H. pose proof (length_keys n) as Hl. rewrite H in Hl. simpl in Hl. pose proof (Nat.pow_nonzero 256 n). lia. Qed.

(** ** The one-time pad: [k |-> k ^ m] is a bijection of the keys *)

Lemma count_if_ext_in {A} (P R : A -> bool) l :
  (forall x, In x l -> P x = R x) -> count_if P l = count_if R l.
Proof.
  intros H. induction l as [|x l IH]; simpl; [done|].
  rewrite H by (by left). rewrite IH; [done|]. intros y Hy. apply H. by right.
Qed.

Lemma in_all_bytes b : In b all_bytes <-> is_byte b = true.
Proof.
  unfold all_bytes, is_byte. rewrite in_map_iff, andb_true_iff, Z.leb_le, Z.ltb_lt. split.
  - intros (j & <- & Hj). apply in_seq in Hj. lia.
  - intros H. exists (Z.to_nat b). split; [lia|]. apply in_seq. lia.
Qed.

Lemma in_keys n k : In k (keys n) -> length k = n /\ Forall (fun b => is_byte b = true) k.
Proof.
  revert k. induction n as [|n IH]; intros k Hk; cbn [keys] in Hk.
  - destruct Hk as [<-|[]]. split; [done | constructor].
  - apply in_flat_map in Hk as (b & Hb & Hk). apply in_map_iff in Hk as (k' & <- & Hk').
    apply IH in Hk' as [Hl Hf]. split; [simpl; lia | constructor; [by apply in_all_bytes | done]].
Qed.

(** Every byte occurs once in [all_bytes]. *)
Lemma count_byte_eq c : is_byte c = true -> count_if (fun b => bool_decide (b = c)) all_bytes = 1.
Proof.
  intros Hc. apply in_all_bytes in Hc.
  assert (Hall : forallb (fun c => Nat.eqb (count_if (fun b => bool_decide (b = c)) all_bytes) 1)
                   all_bytes = true) by (vm_compute; reflexivity).
  rewrite forallb_forall in Hall. by apply Nat.eqb_eq, Hall.
Qed.

Lemma lxor_eq_iff b m t : Z.lxor b m = t <-> b = Z.lxor t m.
Proof.
  split; [intros <- | intros ->]; by rewrite Z.lxor_assoc, Z.lxor_nilpotent, Z.lxor_0_r.
Qed.

Lemma bool_decide_cons {A} `{EqDecision A} (x y : A) l l' :
  bool_decide (x :: l = y :: l') = bool_decide (x = y) && bool_decide (l = l').
Proof.
  rewrite <- bool_decide_and. apply bool_decide_ext.
  split; [intros H; injection H; auto | intros [-> ->]; done].
Qed.

(** For bytes [m] and [t], exactly one key [k] has [k ^ m = t]. *)
Lemma count_keys_lxor (m t : list Z) :
  Forall (fun b => is_byte b = true) m -> Forall (fun b => is_byte b = true) t ->
  length t = length m ->
  count_if (fun k => bool_decide (zip_with Z.lxor k m = t)) (keys (length m)) = 1.
Proof.
  intros Hm. revert t. induction Hm as [|mb m Hmb Hm IH]; intros [|tb t] Ht Hl; simpl in Hl; try lia.
  - reflexivity.
  - inversion Ht as [|? ? Htb Ht']; subst. cbn [length].
    rewrite (count_keys_S _ (fun b => bool_decide (Z.lxor b mb = tb))
                            (fun k => bool_decide (zip_with Z.lxor k m = t)))
      by (intros b k; apply bool_decide_cons).
    rewrite IH by (done || lia).
    rewrite (count_if_ext _ (fun b => bool_decide (b = Z.lxor tb mb)))
      by (intros b; apply bool_decide_ext, lxor_eq_iff).
    rewrite count_byte_eq by (by apply is_byte_lxor). done.
Qed.

Lemma Forall_zip_lxor (k m : list Z) :
  Forall (fun b => is_byte b = true) k -> Forall (fun b => is_byte b = true) m ->
  Forall (fun b => is_byte b = true) (zip_with Z.lxor k m).
Proof.
  intros Hk. revert m. induction Hk as [|x k Hx _ IH]; intros [|y m] Hm; cbn [zip_with];
    [constructor.. |].
  inversion Hm; subst. constructor; [by apply is_byte_lxor | by apply IH].
Qed.

(** ** Two independent sources *)

Lemma count_if_bool {A} (g : bool -> bool) (R : A -> bool) l :
  count_if (fun y => g (R y)) l =
    Nat.b2n (g true) * count_if R l + Nat.b2n (g false) * count_if (fun y => negb (R y)) l.
Proof.
  induction l as [|y l IH]; simpl; [lia|]. rewrite IH.
  destruct (R y), (g true), (g false); simpl; lia.
Qed.

(** An event on a pair of independent outcomes, counted by the four
    values of the two bits it depends on. *)
Lemma count_if_prod {A B} (f : bool -> bool -> bool) (P : A -> bool) (R : B -> bool) la lb :
  count_if (fun ab => f (P ab.1) (R ab.2)) (list_prod la lb) =
    Nat.b2n (f true true) * count_if P la * count_if R lb +
    Nat.b2n (f true false) * count_if P la * count_if (fun y => negb (R y)) lb +
    Nat.b2n (f false true) * count_if (fun x => negb (P x)) la * count_if R lb +
    Nat.b2n (f false false) * count_if (fun x => negb (P x)) la * count_if (fun y => negb (R y)) lb.
Proof.
  induction la as [|a la IH]; simpl; [lia|].
  rewrite count_if_app, count_if_map, IH. cbn [fst snd].
  rewrite (count_if_bool (f (P a)) R lb).
  destruct (P a), (f true true), (f true false), (f false true), (f false false); simpl; lia.
Qed.

Lemma in_keys_length n k : In k (keys n) -> length (frombytes k) = (8 * n)%nat.
Proof. intros Hk. apply in_keys in Hk as [Hl _]. by rewrite length_frombytes, Hl. Qed.

(** Bit [i] of [f a b] for independent uniform [a] and [b] is one with
    probability [N / 4], [N] the number of inputs on which [f] is one. *)
Lemma freq_pairs (f : bool -> bool -> bool) n i :
  i < 8 * n ->
  freq (fun ab => zip_with f (frombytes ab.1) (frombytes ab.2) !!! i) (list_prod (keys n) (keys n)) ==
  inject_Z (Z.of_nat (Nat.b2n (f true true) + Nat.b2n (f true false) +
                      Nat.b2n (f false true) + Nat.b2n (f false false))) / inject_Z 4.
Proof.
  intros Hi. unfold freq. set (P := fun k : list Z => frombytes k !!! i).
  rewrite (count_if_ext_in _ (fun ab => f (P ab.1) (P ab.2))).
  2:{ intros [a b] Hab. apply in_prod_iff in Hab as [Ha Hb]. unfold P.
      apply lookup_total_zip_with; rewrite (in_keys_length n); lia || done. }
  rewrite (count_if_prod f P P), length_prod. unfold P.
  pose proof (count_bit_keys n i Hi) as Hc.
  pose proof (count_if_negb (fun k => frombytes k !!! i) (keys n)) as Hn.
  rewrite length_keys in Hn.
  set (c := count_if (fun k => frombytes k !!! i) (keys n)) in *.
  set (c' := count_if (fun x => negb (frombytes x !!! i)) (keys n)) in *.
  assert (c' = c) as -> by lia. rewrite length_keys, <- Hc.
  assert (Hq : ~ inject_Z (Z.of_nat c) == 0).
  { intros H. unfold Qeq in H. simpl in H. pose proof (Nat.pow_nonzero 256 n). lia. }
  rewrite !Nat2Z.inj_add, !Nat2Z.inj_mul, !inject_Z_plus, !inject_Z_mult.
  change (inject_Z (Z.of_nat 2)) with (2 # 1). change (inject_Z 4) with (4 # 1).
  field. exact Hq.
Qed.

(** ** Three independent sources *)

(** Three independent keys of [n] bytes. *)
Definition triples (n : nat) : list ((list Z * list Z) * list Z) :=
  list_prod (list_prod (keys n) (keys n)) (keys n).

(** Bit [i] of [f (a & b) c] for independent uniform [a], [b], [c]:
    [a & b] is one in a quarter of the outcomes, [c] in half. *)
Lemma freq_and_then (f : bool -> bool -> bool) n i :
  i < 8 * n ->
  freq (fun abc => f (frombytes abc.1.1 !!! i && frombytes abc.1.2 !!! i) (frombytes abc.2 !!! i)) (triples n) ==
  inject_Z (Z.of_nat (Nat.b2n (f true true) + Nat.b2n (f true false) +
                      3 * Nat.b2n (f false true) + 3 * Nat.b2n (f false false))) / inject_Z 8.
Proof.
  intros Hi. unfold freq, triples. set (P := fun k : list Z => frombytes k !!! i).
  rewrite (count_if_prod f (fun ab => P ab.1 && P ab.2) P).
  rewrite (count_if_prod andb P P), (count_if_prod (fun x y => negb (x && y)) P P).
  rewrite !length_prod, length_keys. simpl Nat.b2n.
  pose proof (count_bit_keys n i Hi) as Hc. fold P in Hc.
  pose proof (count_if_negb P (keys n)) as Hn. rewrite length_keys in Hn.
  set (c := count_if P (keys n)) in *.
  set (c' := count_if (fun x => negb (P x)) (keys n)) in *.
  assert (c' = c) as -> by lia. rewrite <- Hc.
  assert (Hq : ~ inject_Z (Z.of_nat c) == 0).
  { intros H. unfold Qeq in H. simpl in H. pose proof (Nat.pow_nonzero 256 n). lia. }
  rewrite !Nat.add_0_r, !Nat.mul_0_l, !Nat.add_0_l, !Nat.mul_1_l.
  replace (c * c + c * c + c * c) with (3 * (c * c)) by lia.
  rewrite !Nat2Z.inj_add, !Nat2Z.inj_mul, !inject_Z_plus, !inject_Z_mult.
  change (inject_Z (Z.of_nat 2)) with (2 # 1). change (inject_Z (Z.of_nat 3)) with (3 # 1).
  change (inject_Z 8) with (8 # 1).
  field. exact Hq.
Qed.

(** For any message of bytes and any bit string [c] of its length,
    exactly one key gives [key ^ m = c]. *)
Lemma count_cipher_keys (msg : list Z) (c : list bool) :
  Forall (fun b => is_byte b = true) msg -> length c = (8 * length msg)%nat ->
  count_if (fun k => bool_decide (zip_with xorb (frombytes k) (frombytes msg) = c))
    (keys (length msg)) = 1%nat.
Proof.
  intros Hm Hc.
  rewrite (count_if_ext_in _ (fun k => bool_decide (zip_with Z.lxor k msg = tobytes c))).
  - apply count_keys_lxor; [done | apply tobytes_bytes | by apply length_tobytes].
  - intros k Hk. apply in_keys in Hk as [Hl Hb].
    rewrite frombytes_lxor by lia. apply bool_decide_ext. split.
    + intros <-. rewrite tobytes_frombytes; [done|]. by apply Forall_zip_lxor.
    + intros ->. by apply (frombytes_tobytes c (length msg)).
Qed.

(** ** Claims *)

Lemma fresh_pr_one s n i : i < 8 * n -> _pr_one (fresh_rb s (Z.of_nat n)) !!! i = 1 # 2.
Proof. intros Hi. unfold fresh_rb. simpl. apply lookup_total_replicate_2. lia. Qed.

(** The object [RandBytes(n)] allocates. *)
Lemma rb_init_obj s n o :
  heap (fst (RandBytes_init (Z.of_nat n) s)) !! next_id s = Some o -> o = fresh_rb s (Z.of_nat n).
Proof. rewrite rb_init_ok by lia. simpl. rewrite lookup_insert_eq. congruence. Qed.

(** C21 The probability model of [__init__] is exact for the ideal
    source: the object [RandBytes(n)] allocates holds the bits of the [n]
    bytes [os.urandom] returns, and under the uniform distribution of
    those bytes every bit is one with the probability its [_pr_one]
    entry gives it ([.5]), and any two different bits are independent
    (both are one with the product of their entries). *)
Theorem fresh_bits_uniform (s : St) (n : nat) (o : RandBytes) :
  heap (fst (RandBytes_init (Z.of_nat n) s)) !! next_id s = Some o ->
  _i o = frombytes (map (fun j => urandom_src s (urandom_pos s + j)) (seq 0 n)) /\
  (forall i, i < 8 * n -> freq (fun k => frombytes k !!! i) (keys n) == _pr_one o !!! i) /\
  (forall i j, i < 8 * n -> j < 8 * n -> i <> j ->
     freq (fun k => frombytes k !!! i && frombytes k !!! j) (keys n) == _pr_one o !!! i * _pr_one o !!! j).
Proof.
  intros Ho. apply rb_init_obj in Ho as ->. split_and!.
  - unfold fresh_rb, urandom_bytes. simpl. by rewrite Nat2Z.id.
  - intros i Hi. rewrite fresh_pr_one by done.
    rewrite (freq_inv _ _ 2); [vm_compute; reflexivity | apply keys_nonempty |].
    rewrite length_keys. by apply count_bit_keys.
  - intros i j Hi Hj Hij. rewrite !fresh_pr_one by done.
    rewrite (freq_inv _ _ 4); [vm_compute; reflexivity | apply keys_nonempty |].
    rewrite length_keys. by apply count_two_bits_keys.
Qed.

(** ** Witnesses *)

Lemma fresh_bits_uniform_witness :
  _i (fresh_rb demo_st 1) = frombytes (map (fun j => urandom_src demo_st (urandom_pos demo_st + j)) (seq 0 1)) /\
  freq (fun k => frombytes k !!! 3) (keys 1) == _pr_one (fresh_rb demo_st 1) !!! 3 /\
  freq (fun k => frombytes k !!! 0 && frombytes k !!! 5) (keys 1) ==
    _pr_one (fresh_rb demo_st 1) !!! 0 * _pr_one (fresh_rb demo_st 1) !!! 5.
Proof.
  destruct (fresh_bits_uniform demo_st 1 (fresh_rb demo_st 1)) as (H0 & H1 & H2);
    [rewrite rb_init_ok by lia; simpl; by rewrite lookup_insert_eq|].
  split_and!; [exact H0 | apply H1; lia | apply H2; lia].
Defined.
