(* ===== verification/Contract.v ===== *)
(** * The contract of the binary operators and the invariants it keeps

    [binop_spec] says what a call [x OP other] of [__and__], [__or__] or
    [__xor__] may do to the object state: raise and leave the state as it
    was, or return a fresh object holding the result and consume the
    operands.  The shared skeleton [rb_binop] meets it for every instance
    of [BinopLaws] ([rb_binop_meets_spec]); from the contract follow the
    preservation of [wf_state] by every method and the fact that a
    consumed object is never changed again ([frozen]). *)

From S2P Require Import Prelude Bitarray Prob RandBytes.
From stdpp Require Import gmap.
From Stdlib Require Import Lqa.

Open Scope py_scope.

(** ** When a binary operator raises *)

(** The exceptions of the specification's taxonomy (its section 7), as
    the code raises them: a consumed buffer gives [RuntimeError], a length
    mismatch [ValueError], an operand of another type [TypeError]. *)
Definition documented (e : exn) : bool :=
  match e with RuntimeError | ValueError | TypeError => true | _ => false end.

(** The objects an operand refers to are in the heap. *)
Definition operand_in_heap (s : St) (other : Operand) : Prop :=
  match other with OpRB y => is_Some (heap s !! y) | _ => True end.

(** The guards of [__and__], [__or__], [__xor__] in the order the code
    tests them, each with the exception it raises. *)
Inductive binop_error (s : St) (x : nat) : Operand -> exn -> Prop :=
| be_missing other : heap s !! x = None -> binop_error s x other NameError
| be_dead other ox :
    heap s !! x = Some ox -> _wrapped ox = false -> binop_error s x other RuntimeError
| be_bits_len ox b :
    heap s !! x = Some ox -> _wrapped ox = true -> length (_i ox) <> length b ->
    binop_error s x (OpBits b) ValueError
| be_other_missing ox y :
    heap s !! x = Some ox -> _wrapped ox = true -> heap s !! y = None ->
    binop_error s x (OpRB y) NameError
| be_other_dead ox y oy :
    heap s !! x = Some ox -> _wrapped ox = true -> heap s !! y = Some oy -> _wrapped oy = false ->
    binop_error s x (OpRB y) RuntimeError
| be_len ox y oy :
    heap s !! x = Some ox -> _wrapped ox = true -> heap s !! y = Some oy -> _wrapped oy = true ->
    _n ox <> _n oy -> binop_error s x (OpRB y) ValueError
| be_type ox :
    heap s !! x = Some ox -> _wrapped ox = true -> binop_error s x OpOther TypeError.

Lemma binop_error_documented s x other e :
  binop_error s x other e -> is_Some (heap s !! x) -> operand_in_heap s other ->
  documented e = true.
Proof.
  destruct 1 as [? Hx|? ? Hx|? ? Hx|? y Hx _ Hy|?|?|?]; intros Hsx Hother; try done;
    [rewrite Hx in Hsx | simpl in Hother; rewrite Hy in Hother]; by destruct Hsx.
Qed.

Section BinopSpec.
Context {f g_lit g2 g_self bitop body pair}
        `{!BinopLaws f g_lit g2 g_self bitop body pair}.

(** The result object of each successful branch. *)
Definition bits_result (ox : RandBytes) (b : list bool) : RandBytes :=
  mkRB true (zip_with f (_i ox) b) (_n ox) (zip_with g_lit (_pr_one ox) b).
Definition pair_result (ox oy : RandBytes) : RandBytes :=
  mkRB true (zip_with f (_i ox) (_i oy)) (_n ox) (zip_with g2 (_pr_one ox) (_pr_one oy)).
Definition self_result (ox : RandBytes) : RandBytes :=
  mkRB true (zip_with f (_i ox) (_i ox)) (_n ox) (map g_self (_pr_one ox)).

(** What a call [x OP other] may do: raise with the state unchanged, or
    return a fresh object and consume its operands. *)
Inductive binop_spec (s : St) (x : nat) : Operand -> St * result nat -> Prop :=
| bs_error other e : binop_error s x other e -> binop_spec s x other (s, Raise e)
| bs_bits ox b :
    heap s !! x = Some ox -> _wrapped ox = true -> length (_i ox) = length b ->
    binop_spec s x (OpBits b)
      (post_state s (<[x := with_wrapped ox false]>
         (<[next_id s := bits_result ox b]> (heap s))) (_n ox), Ok (next_id s))
| bs_pair ox y oy :
    heap s !! x = Some ox -> heap s !! y = Some oy -> x <> y ->
    _wrapped ox = true -> _wrapped oy = true -> _n ox = _n oy ->
    binop_spec s x (OpRB y)
      (post_state s (<[y := with_wrapped oy false]> (<[x := with_wrapped ox false]>
         (<[next_id s := pair_result ox oy]> (heap s)))) (_n ox), Ok (next_id s))
| bs_self ox :
    heap s !! x = Some ox -> _wrapped ox = true ->
    binop_spec s x (OpRB x)
      (post_state s (<[x := with_wrapped ox false]>
         (<[next_id s := self_result ox]> (heap s))) (_n ox), Ok (next_id s)).

Ltac spec_error :=
  apply bs_error;
  first [ solve [eapply be_missing; eauto] | solve [eapply be_dead; eauto]
        | solve [eapply be_bits_len; eauto] | solve [eapply be_other_missing; eauto]
        | solve [eapply be_other_dead; eauto] | solve [eapply be_len; eauto]
        | solve [eapply be_type; eauto] ].

Context (s : St) (Hwf : wf_state s).

Lemma rb_binop_bits x ox b :
  heap s !! x = Some ox -> _wrapped ox = true -> length (_i ox) = length b ->
  rb_binop bitop body pair x (OpBits b) s =
    (post_state s (<[x := with_wrapped ox false]>
       (<[next_id s := bits_result ox b]> (heap s))) (_n ox), Ok (next_id s)).
Proof.
  intros Hx Hw Hl. pose proof (wf_lookup _ _ _ Hwf Hx) as (Hn & Hi & Hp & _).
  apply rb_binop_bits_ok; eauto with randbox.
  - by apply law_bitop.
  - rewrite <- Hp. apply law_body. lia.
Qed.

Lemma rb_binop_pair x ox y oy :
  heap s !! x = Some ox -> heap s !! y = Some oy -> x <> y ->
  _wrapped ox = true -> _wrapped oy = true -> _n ox = _n oy ->
  rb_binop bitop body pair x (OpRB y) s =
    (post_state s (<[y := with_wrapped oy false]> (<[x := with_wrapped ox false]>
       (<[next_id s := pair_result ox oy]> (heap s)))) (_n ox), Ok (next_id s)).
Proof.
  intros Hx Hy Hxy Hwx Hwy Hn.
  pose proof (wf_lookup _ _ _ Hwf Hx) as Hox. pose proof (wf_lookup _ _ _ Hwf Hy) as Hoy.
  apply rb_binop_pair_ok; eauto with randbox.
  - apply Hox.
  - apply law_bitop. destruct Hox as (_ & -> & _), Hoy as (_ & -> & _). by rewrite Hn.
  - rewrite bool_decide_false by done. by apply law_pair.
Qed.

Lemma rb_binop_self x ox :
  heap s !! x = Some ox -> _wrapped ox = true ->
  rb_binop bitop body pair x (OpRB x) s =
    (post_state s (<[x := with_wrapped ox false]>
       (<[next_id s := self_result ox]> (heap s))) (_n ox), Ok (next_id s)).
Proof.
  intros Hx Hw. pose proof (wf_lookup _ _ _ Hwf Hx) as Hox.
  rewrite (rb_binop_pair_ok _ _ _ _ _ _ Hx Hw (wf_fresh _ Hwf) (proj1 Hox) x ox
             (zip_with f (_i ox) (_i ox)) (map g_self (_pr_one ox))); try done.
  - by rewrite insert_insert_eq.
  - by apply law_bitop.
  - rewrite bool_decide_true by done. by apply law_self.
Qed.

(** The implementation meets the specification in every branch. *)
Lemma rb_binop_meets_spec x other :
  binop_spec s x other (rb_binop bitop body pair x other s).
Proof.
  destruct (heap s !! x) as [ox|] eqn:Hx; [|rewrite rb_binop_missing_self by done; spec_error].
  destruct (_wrapped ox) eqn:Hw; [|rewrite (rb_binop_dead_self _ _ _ _ _ ox) by done; spec_error].
  destruct other as [b|y|].
  - destruct (decide (length (_i ox) = length b)).
    + rewrite (rb_binop_bits x ox) by done. by constructor.
    + rewrite (rb_binop_bits_mismatch _ _ _ _ _ ox) by done. spec_error.
  - destruct (decide (x = y)) as [<-|Hxy].
    + rewrite (rb_binop_self x ox) by done. by constructor.
    + destruct (heap s !! y) as [oy|] eqn:Hy;
        [|rewrite (rb_binop_missing_other _ _ _ _ _ ox) by done; spec_error].
      destruct (_wrapped oy) eqn:Hwy;
        [|rewrite (rb_binop_dead_other _ _ _ _ _ ox Hx Hw y oy) by done; spec_error].
      destruct (decide (_n ox = _n oy)).
      * rewrite (rb_binop_pair x ox y oy) by done. by constructor.
      * rewrite (rb_binop_len_mismatch _ _ _ _ _ ox Hx Hw y oy) by done. spec_error.
  - rewrite (rb_binop_other_type _ _ _ _ _ ox) by done. spec_error.
Qed.
End BinopSpec.

(** ** Well-formedness is preserved *)

Lemma wf_with_wrapped o w : wf_rb o -> wf_rb (with_wrapped o w).
Proof. done. Qed.

Lemma wf_in_heap_lt s x o : wf_state s -> heap s !! x = Some o -> x < next_id s.
Proof.
  intros [_ Hf] Hx. destruct (decide (x < next_id s)); [done|].
  rewrite Hf in Hx by lia. discriminate.
Qed.


#[export] Hint Resolve wf_with_wrapped wf_fresh_rb map_Forall_insert_2 : randbox.

Ltac wf_post Hwf :=
  split; [repeat apply map_Forall_insert_2; eauto with randbox; try apply (proj1 Hwf)
         | let z := fresh "z" in let Hz := fresh "Hz" in
           intros z Hz; simpl in *; rewrite ?lookup_insert_ne by lia; apply (proj2 Hwf); lia].

Lemma rb_init_wf s n : wf_state s -> wf_state (fst (RandBytes_init n s)).
Proof.
  intros Hwf. destruct (decide (n < 0)%Z).
  - by rewrite rb_init_negative.
  - rewrite rb_init_ok by lia. simpl. unfold init_state. wf_post Hwf. apply wf_fresh_rb. lia.
Qed.

Section BinopWf.
Context {f g_lit g2 g_self bitop body pair}
        `{!BinopLaws f g_lit g2 g_self bitop body pair}.

Lemma wf_bits_result ox b :
  wf_rb ox -> length (_i ox) = length b -> wf_rb (bits_result (f:=f) (g_lit:=g_lit) ox b).
Proof.
  intros (Hn & Hi & Hp & Hpr) Hl. unfold wf_rb, bits_result; simpl.
  rewrite !length_zip_with. split_and!; [lia | lia | lia |].
  eapply (Forall_zip_with_2 is_prob (fun _ => True)); [|done|by apply Forall_true].
  intros. by apply law_lit_prob.
Qed.

Lemma wf_pair_result ox oy :
  wf_rb ox -> wf_rb oy -> _n ox = _n oy -> wf_rb (pair_result (f:=f) (g2:=g2) ox oy).
Proof.
  intros (Hn & Hi & Hp & Hpr) (Hn' & Hi' & Hp' & Hpr') Hnn. unfold wf_rb, pair_result; simpl.
  rewrite !length_zip_with. rewrite Hnn in *. split_and!; [lia | lia | lia |].
  eapply Forall_zip_with_2; [|exact Hpr|exact Hpr']. intros. by apply law_g2_prob.
Qed.

Lemma wf_self_result ox : wf_rb ox -> wf_rb (self_result (f:=f) (g_self:=g_self) ox).
Proof.
  intros (Hn & Hi & Hp & Hpr). unfold wf_rb, self_result; simpl.
  rewrite length_zip_with, length_map. split_and!; [lia | lia | lia |].
  apply Forall_map. eapply Forall_impl; [exact Hpr|]. intros. by apply law_self_prob.
Qed.

Lemma binop_spec_wf s x other r :
  wf_state s -> binop_spec (f:=f) (g_lit:=g_lit) (g2:=g2) (g_self:=g_self) s x other r ->
  wf_state (fst r).
Proof.
  intros Hwf Hs. destruct Hs as [| ox b Hx | ox y oy Hx Hy | ox Hx]; simpl; [done|..];
    pose proof (wf_in_heap_lt _ _ _ Hwf Hx);
    pose proof (wf_lookup _ _ _ Hwf Hx);
    try (pose proof (wf_in_heap_lt _ _ _ Hwf Hy); pose proof (wf_lookup _ _ _ Hwf Hy));
    unfold post_state; wf_post Hwf.
  - by apply wf_bits_result.
  - by apply wf_pair_result.
  - by apply wf_self_result.
Qed.

Lemma rb_binop_wf s x other :
  wf_state s -> wf_state (fst (rb_binop bitop body pair x other s)).
Proof. intros Hwf. eapply binop_spec_wf; [done|]. by apply rb_binop_meets_spec. Qed.
End BinopWf.

Lemma unwrap_wf s x : wf_state s -> wf_state (fst (unwrap x s)).
Proof.
  intros Hwf. destruct (heap s !! x) as [ox|] eqn:Hx; [|by rewrite unwrap_missing].
  rewrite (unwrap_spec _ _ ox) by done. simpl.
  split; [apply map_Forall_insert_2; eauto with randbox; apply (proj1 Hwf)|].
  pose proof (wf_in_heap_lt _ _ _ Hwf Hx).
  intros z Hz. simpl in *. rewrite lookup_insert_ne by lia. apply (proj2 Hwf). lia.
Qed.

(** ** Consumed objects are never changed again *)

Definition frozen (s s' : St) : Prop :=
  forall z oz, heap s !! z = Some oz -> _wrapped oz = false -> heap s' !! z = Some oz.

Lemma binop_spec_frozen {f g_lit g2 g_self} s x other r :
  wf_state s -> binop_spec (f:=f) (g_lit:=g_lit) (g2:=g2) (g_self:=g_self) s x other r ->
  frozen s (fst r).
Proof.
  intros Hwf Hs z oz Hz Hwz. pose proof (wf_in_heap_lt _ _ _ Hwf Hz).
  destruct Hs as [| ox b Hx Hwx | ox y oy Hx Hy _ Hwx Hwy | ox Hx Hwx]; simpl; [done|..];
    unfold post_state; simpl; rewrite !lookup_insert_ne by (intros ?; subst; congruence || lia); done.
Qed.

Lemma rb_binop_frozen {f g_lit g2 g_self bitop body pair}
    `{!BinopLaws f g_lit g2 g_self bitop body pair} s x other :
  wf_state s -> frozen s (fst (rb_binop bitop body pair x other s)).
Proof. intros Hwf. eapply binop_spec_frozen; [done|]. by apply rb_binop_meets_spec. Qed.
