(* ===== verification/Operators.v ===== *)
(** * The operators of [RandBytes] and what each computes

    The parts in which [__and__], [__or__] and [__xor__] differ, as
    written in [src/pyrand.py]: the loop body over a bitarray operand
    ([and_bits_body], ...) and the update for a [RandBytes] operand
    ([and_pair], ...); the three operators as instances of the skeleton
    [rb_binop]; and [__invert__].  Each operator's parts meet the
    interface [BinopLaws].  The theorems give the behaviour on every
    branch: the fresh object an operator returns on live operands (two
    distinct objects, the same object, a bitarray) and the exception it
    raises, with the state unchanged, on a consumed operand, a length
    mismatch or an operand of another type; and the refinement of the
    contract. *)

From S2P Require Import Prelude Bitarray Prob RandBytes Contract.
From stdpp Require Import gmap.
From Stdlib Require Import Lqa.

Open Scope py_scope.

(** ** The code of each operator *)

(** The loop bodies over a [bitarray] operand [other]. *)
Definition and_bits_body (other : list bool) (i : nat) (pr : list Q) : result (list Q) :=
  b <-! py_getitem other i ;;
  if negb b then py_setitem pr i 0%Q else Ok pr.

Definition or_bits_body (other : list bool) (i : nat) (pr : list Q) : result (list Q) :=
  b <-! py_getitem other i ;;
  if b then py_setitem pr i 1%Q else Ok pr.

Definition xor_bits_body (other : list bool) (i : nat) (pr : list Q) : result (list Q) :=
  b <-! py_getitem other i ;;
  if b then (p <-! py_getitem pr i ;; py_setitem pr i (1 - p)%Q) else Ok pr.

(** The update for a [RandBytes] operand: [same] is [id(self) == id(other)],
    [k] is [len(self)], [pr] the copy [self._pr_one[:]]. *)
Definition and_pair (same : bool) (k : Z) (s o : RandBytes) (pr : list Q) : result (list Q) :=
  if negb same then pair_loop and_pr (Z.to_nat (k * 8)) (_pr_one s) (_pr_one o) pr else Ok pr.

Definition or_pair (same : bool) (k : Z) (s o : RandBytes) (pr : list Q) : result (list Q) :=
  if negb same then pair_loop or_pr (Z.to_nat (k * 8)) (_pr_one s) (_pr_one o) pr else Ok pr.

Definition xor_pair (same : bool) (k : Z) (s o : RandBytes) (pr : list Q) : result (list Q) :=
  if same then Ok (replicate (length (_i s)) 0%Q)
  else pair_loop xor_pr (Z.to_nat (k * 8)) (_pr_one s) (_pr_one o) pr.

(** [RandBytes.__and__(self, other)] *)
Definition rb_and : nat -> Operand -> M nat := rb_binop ba_and and_bits_body and_pair.
(** [RandBytes.__or__(self, other)] *)
Definition rb_or : nat -> Operand -> M nat := rb_binop ba_or or_bits_body or_pair.
(** [RandBytes.__xor__(self, other)] *)
Definition rb_xor : nat -> Operand -> M nat := rb_binop ba_xor xor_bits_body xor_pair.

(** [RandBytes.__invert__(self)] *)
Definition rb_invert (self : nat) : M nat :=
  s <- deref self ;;
  if negb (_wrapped s) then raise RuntimeError else
  k <- rb_len self ;;
  r <- RandBytes_init k ;;
  set_bits_pr r (ba_invert (_i s)) (map not_pr (_pr_one s)) ;;
  consume self ;;
  ret r.

(** ** Their loops compute [zip_with] *)

Ltac bits_body_step b :=
  intros i acc Hi Hacc;
  unfold and_bits_body, or_bits_body, xor_bits_body;
  rewrite (py_getitem_lookup b i (b !!! i)) by (apply list_lookup_lookup_total_lt; lia);
  simpl.

Lemma insert_total_id {A} `{Inhabited A} (l : list A) i :
  i < length l -> Ok (<[i := l !!! i]> l) = Ok l.
Proof. intros Hi. f_equal. apply list_insert_id, list_lookup_lookup_total_lt. lia. Qed.

Lemma and_bits_loop (b : list bool) (pr : list Q) :
  length b = length pr ->
  py_for 0 (length pr) (and_bits_body b) pr = Ok (zip_with and_lit pr b).
Proof.
  intros Hl. apply bits_loop_zip; [done|]. bits_body_step b.
  unfold and_lit. destruct (b !!! i); simpl.
  - symmetry. apply insert_total_id. lia.
  - apply py_setitem_lt. lia.
Qed.

Lemma or_bits_loop (b : list bool) (pr : list Q) :
  length b = length pr ->
  py_for 0 (length pr) (or_bits_body b) pr = Ok (zip_with or_lit pr b).
Proof.
  intros Hl. apply bits_loop_zip; [done|]. bits_body_step b.
  unfold or_lit. destruct (b !!! i); simpl.
  - apply py_setitem_lt. lia.
  - symmetry. apply insert_total_id. lia.
Qed.

Lemma xor_bits_loop (b : list bool) (pr : list Q) :
  length b = length pr ->
  py_for 0 (length pr) (xor_bits_body b) pr = Ok (zip_with xor_lit pr b).
Proof.
  intros Hl. apply bits_loop_zip; [done|]. bits_body_step b.
  unfold xor_lit. destruct (b !!! i); simpl.
  - rewrite (py_getitem_lookup _ _ (acc !!! i)) by (apply list_lookup_lookup_total_lt; lia).
    apply py_setitem_lt. lia.
  - symmetry. apply insert_total_id. lia.
Qed.

(** ** Each operator meets the interface of the shared shape *)

#[export] Instance and_laws :
  BinopLaws andb and_lit and_pr id ba_and and_bits_body and_pair.
Proof.
  split; intros.
  - by apply ba_binop_ok.
  - by apply and_bits_loop.
  - by apply pair_loop_wf.
  - by rewrite list_fmap_id.
  - by apply lit_range.
  - by apply and_pr_range.
  - done.
Qed.

#[export] Instance or_laws :
  BinopLaws orb or_lit or_pr id ba_or or_bits_body or_pair.
Proof.
  split; intros.
  - by apply ba_binop_ok.
  - by apply or_bits_loop.
  - by apply pair_loop_wf.
  - by rewrite list_fmap_id.
  - by apply lit_range.
  - by apply or_pr_range.
  - done.
Qed.

#[export] Instance xor_laws :
  BinopLaws xorb xor_lit xor_pr (fun _ => 0%Q) ba_xor xor_bits_body xor_pair.
Proof.
  split; intros.
  - by apply ba_binop_ok.
  - by apply xor_bits_loop.
  - by apply pair_loop_wf.
  - match goal with H : wf_rb _ |- _ => destruct H as (_ & Hi & Hp & _) end.
    unfold xor_pair. simpl. by rewrite map_const_replicate, Hi, Hp.
  - by apply lit_range.
  - by apply xor_pr_range.
  - unfold is_prob. lra.
Qed.

(** ** [__invert__], branch by branch *)

Section Invert.
Context (s : St) (x : nat) (ox : RandBytes) (Hx : heap s !! x = Some ox).

Lemma rb_invert_dead : _wrapped ox = false -> rb_invert x s = (s, Raise RuntimeError).
Proof. intros Hw. unfold rb_invert. rewrite (bind_deref _ _ _ ox), Hw by done. done. Qed.

Lemma rb_invert_ok :
  _wrapped ox = true -> heap s !! next_id s = None -> (0 <= _n ox)%Z ->
  rb_invert x s =
    (post_state s (<[x := with_wrapped ox false]>
       (<[next_id s := mkRB true (map negb (_i ox)) (_n ox) (map not_pr (_pr_one ox))]>
          (heap s))) (_n ox), Ok (next_id s)).
Proof.
  intros Hw Hf Hn.
  assert (Hxf : x <> next_id s) by (intros ->; congruence).
  unfold rb_invert. rewrite (bind_deref _ _ _ ox), Hw by done. cbn [negb].
  rewrite (bind_rb_len_live _ _ _ ox), bind_init by done.
  rewrite (bind_set_bits_pr _ _ _ (fresh_rb s (_n ox))) by lk.
  rewrite (bind_consume _ _ _ ox) by lk.
  unfold ret, post_state, upd_heap, init_state. simpl. by rewrite insert_insert_eq.
Qed.
End Invert.

Lemma rb_invert_missing s x : heap s !! x = None -> rb_invert x s = (s, Raise NameError).
Proof. intros Hx. unfold rb_invert, bind, deref. cbv beta. by rewrite Hx. Qed.

Lemma rb_invert_wf s x : wf_state s -> wf_state (fst (rb_invert x s)).
Proof.
  intros Hwf. destruct (heap s !! x) as [ox|] eqn:Hx; [|by rewrite rb_invert_missing].
  destruct (_wrapped ox) eqn:Hw; [|by rewrite (rb_invert_dead _ _ ox)].
  pose proof (wf_in_heap_lt _ _ _ Hwf Hx).
  pose proof (wf_lookup _ _ _ Hwf Hx) as (Hn & Hi & Hp & Hpr).
  rewrite (rb_invert_ok _ _ ox) by eauto with randbox. simpl. unfold post_state. wf_post Hwf.
  unfold wf_rb; simpl. rewrite !length_map. split_and!; [lia | lia | lia |].
  apply Forall_map. eapply Forall_impl; [exact Hpr|]. intros. by apply not_pr_range.
Qed.

(** ** Properties of the class *)

Lemma zip_with_diag {A} (f : A -> A -> A) (l : list A) :
  zip_with f l l = map (fun a => f a a) l.
Proof. induction l; simpl; f_equal; auto. Qed.

Lemma zip_with_xorb_diag (l : list bool) : zip_with xorb l l = replicate (length l) false.
Proof. rewrite zip_with_diag, <- map_const_replicate. apply map_ext. intros []; done. Qed.

Lemma zip_with_andb_diag (l : list bool) : zip_with andb l l = l.
Proof. rewrite zip_with_diag. rewrite <- (map_id l) at 2. apply map_ext. intros []; done. Qed.

Lemma zip_with_orb_diag (l : list bool) : zip_with orb l l = l.
Proof. rewrite zip_with_diag. rewrite <- (map_id l) at 2. apply map_ext. intros []; done. Qed.

(** C1 [x ^ y] on two distinct live buffers of the same length returns
    a fresh live buffer whose bits are the XOR of the operands' bits and
    whose probability at each index is [p (1 - q) + q (1 - p)]; both
    operands are consumed, [len(x)] random bytes are read, and nothing
    else changes. *)
Theorem rb_xor_distinct s x y ox oy :
  wf_state s -> heap s !! x = Some ox -> heap s !! y = Some oy -> x <> y ->
  _wrapped ox = true -> _wrapped oy = true -> _n ox = _n oy ->
  rb_xor x (OpRB y) s =
    (post_state s (<[y := with_wrapped oy false]> (<[x := with_wrapped ox false]>
       (<[next_id s := mkRB true (zip_with xorb (_i ox) (_i oy)) (_n ox)
                          (zip_with xor_pr (_pr_one ox) (_pr_one oy))]> (heap s)))) (_n ox),
     Ok (next_id s)).
Proof. intros Hwf. exact (rb_binop_pair (f:=xorb) s Hwf x ox y oy). Qed.

(** C2 [x & y] and [x | y] on two distinct live buffers of the same
    length: bits ANDed (ORed), probability [p q] ([1 - (1 - p)(1 - q)]) at
    each index, both operands consumed. *)
Theorem rb_andor_distinct s x y ox oy :
  wf_state s -> heap s !! x = Some ox -> heap s !! y = Some oy -> x <> y ->
  _wrapped ox = true -> _wrapped oy = true -> _n ox = _n oy ->
  rb_and x (OpRB y) s =
    (post_state s (<[y := with_wrapped oy false]> (<[x := with_wrapped ox false]>
       (<[next_id s := mkRB true (zip_with andb (_i ox) (_i oy)) (_n ox)
                          (zip_with and_pr (_pr_one ox) (_pr_one oy))]> (heap s)))) (_n ox),
     Ok (next_id s)) /\
  rb_or x (OpRB y) s =
    (post_state s (<[y := with_wrapped oy false]> (<[x := with_wrapped ox false]>
       (<[next_id s := mkRB true (zip_with orb (_i ox) (_i oy)) (_n ox)
                          (zip_with or_pr (_pr_one ox) (_pr_one oy))]> (heap s)))) (_n ox),
     Ok (next_id s)).
Proof.
  intros Hwf Hx Hy Hxy Hwx Hwy Hn. split.
  - exact (rb_binop_pair (f:=andb) s Hwf x ox y oy Hx Hy Hxy Hwx Hwy Hn).
  - exact (rb_binop_pair (f:=orb) s Hwf x ox y oy Hx Hy Hxy Hwx Hwy Hn).
Qed.

(** C3 [x ^ x] on a live buffer returns a buffer of zero bits whose
    probabilities are all exactly 0 (the outcome is certain), and
    consumes [x]. *)
Theorem rb_xor_self s x ox :
  wf_state s -> heap s !! x = Some ox -> _wrapped ox = true ->
  rb_xor x (OpRB x) s =
    (post_state s (<[x := with_wrapped ox false]>
       (<[next_id s := mkRB true (replicate (length (_i ox)) false) (_n ox)
                          (replicate (length (_pr_one ox)) 0%Q)]> (heap s))) (_n ox),
     Ok (next_id s)).
Proof.
  intros Hwf Hx Hw. unfold rb_xor. rewrite (rb_binop_self (f:=xorb) s Hwf x ox Hx Hw).
  unfold self_result. by rewrite zip_with_xorb_diag, map_const_replicate.
Qed.

(** C4 [x & x] and [x | x] on a live buffer return a buffer with the
    same bits and the same probabilities as [x], and consume [x]. *)
Theorem rb_andor_self s x ox :
  wf_state s -> heap s !! x = Some ox -> _wrapped ox = true ->
  rb_and x (OpRB x) s =
    (post_state s (<[x := with_wrapped ox false]>
       (<[next_id s := mkRB true (_i ox) (_n ox) (_pr_one ox)]> (heap s))) (_n ox),
     Ok (next_id s)) /\
  rb_or x (OpRB x) s =
    (post_state s (<[x := with_wrapped ox false]>
       (<[next_id s := mkRB true (_i ox) (_n ox) (_pr_one ox)]> (heap s))) (_n ox),
     Ok (next_id s)).
Proof.
  intros Hwf Hx Hw. split.
  - unfold rb_and. rewrite (rb_binop_self (f:=andb) s Hwf x ox Hx Hw).
    unfold self_result. by rewrite zip_with_andb_diag, list_fmap_id.
  - unfold rb_or. rewrite (rb_binop_self (f:=orb) s Hwf x ox Hx Hw).
    unfold self_result. by rewrite zip_with_orb_diag, list_fmap_id.
Qed.

(** C12 [x ^ m], [x & m] and [x | m] for a live buffer [x] and a
    bitarray [m] of its length: the bits are combined bit by bit, the
    probability at each index where [m] is one is replaced by [1 - p]
    (XOR), forced to 0 where [m] is zero (AND) or to 1 where [m] is one
    (OR); only [x] is consumed. *)
Theorem rb_bits_ops s x ox m :
  wf_state s -> heap s !! x = Some ox -> _wrapped ox = true -> length (_i ox) = length m ->
  rb_xor x (OpBits m) s =
    (post_state s (<[x := with_wrapped ox false]>
       (<[next_id s := mkRB true (zip_with xorb (_i ox) m) (_n ox)
                          (zip_with xor_lit (_pr_one ox) m)]> (heap s))) (_n ox),
     Ok (next_id s)) /\
  rb_and x (OpBits m) s =
    (post_state s (<[x := with_wrapped ox false]>
       (<[next_id s := mkRB true (zip_with andb (_i ox) m) (_n ox)
                          (zip_with and_lit (_pr_one ox) m)]> (heap s))) (_n ox),
     Ok (next_id s)) /\
  rb_or x (OpBits m) s =
    (post_state s (<[x := with_wrapped ox false]>
       (<[next_id s := mkRB true (zip_with orb (_i ox) m) (_n ox)
                          (zip_with or_lit (_pr_one ox) m)]> (heap s))) (_n ox),
     Ok (next_id s)).
Proof.
  intros Hwf Hx Hw Hl. split_and!.
  - exact (rb_binop_bits (f:=xorb) s Hwf x ox m Hx Hw Hl).
  - exact (rb_binop_bits (f:=andb) s Hwf x ox m Hx Hw Hl).
  - exact (rb_binop_bits (f:=orb) s Hwf x ox m Hx Hw Hl).
Qed.

(** C13 [~x] on a live buffer returns a buffer whose bits are negated and
    whose probabilities are [1 - p], and consumes [x]. *)
Theorem rb_invert_spec s x ox :
  wf_state s -> heap s !! x = Some ox -> _wrapped ox = true ->
  rb_invert x s =
    (post_state s (<[x := with_wrapped ox false]>
       (<[next_id s := mkRB true (map negb (_i ox)) (_n ox) (map not_pr (_pr_one ox))]>
          (heap s))) (_n ox), Ok (next_id s)).
Proof.
  intros Hwf Hx Hw. apply rb_invert_ok; eauto with randbox. apply (wf_lookup _ _ _ Hwf Hx).
Qed.

(** C5 On a consumed buffer, [len], [&], [|], [^] and [~] raise
    [RuntimeError] and leave the state as it was. *)
Theorem rb_consumed_self_raises s x ox :
  heap s !! x = Some ox -> _wrapped ox = false ->
  rb_len x s = (s, Raise RuntimeError) /\
  rb_invert x s = (s, Raise RuntimeError) /\
  forall other,
    rb_and x other s = (s, Raise RuntimeError) /\
    rb_or x other s = (s, Raise RuntimeError) /\
    rb_xor x other s = (s, Raise RuntimeError).
Proof.
  intros Hx Hw. split_and!; [by apply (rb_len_dead _ _ ox) | by apply (rb_invert_dead _ _ ox) |].
  intros other. split_and!; by apply (rb_binop_dead_self _ _ _ _ _ ox).
Qed.

(** C6 A live buffer combined with a consumed buffer raises
    [RuntimeError] (from [len(other)]) and changes nothing: in particular
    the live operand is not consumed. *)
Theorem rb_consumed_other_raises s x ox y oy :
  heap s !! x = Some ox -> _wrapped ox = true ->
  heap s !! y = Some oy -> _wrapped oy = false ->
  rb_and x (OpRB y) s = (s, Raise RuntimeError) /\
  rb_or x (OpRB y) s = (s, Raise RuntimeError) /\
  rb_xor x (OpRB y) s = (s, Raise RuntimeError).
Proof. intros Hx Hw Hy Hwy. split_and!; by apply (rb_binop_dead_other _ _ _ _ _ ox Hx Hw y oy). Qed.

(** C14 Operands of different lengths raise [ValueError] and leave the
    state as it was: neither operand is consumed and no random byte is
    read. *)
Theorem rb_length_mismatch_raises s x ox :
  heap s !! x = Some ox -> _wrapped ox = true ->
  (forall m, length (_i ox) <> length m ->
     rb_and x (OpBits m) s = (s, Raise ValueError) /\
     rb_or x (OpBits m) s = (s, Raise ValueError) /\
     rb_xor x (OpBits m) s = (s, Raise ValueError)) /\
  (forall y oy, heap s !! y = Some oy -> _wrapped oy = true -> _n ox <> _n oy ->
     rb_and x (OpRB y) s = (s, Raise ValueError) /\
     rb_or x (OpRB y) s = (s, Raise ValueError) /\
     rb_xor x (OpRB y) s = (s, Raise ValueError)).
Proof.
  intros Hx Hw. split.
  - intros m Hm. split_and!; by apply (rb_binop_bits_mismatch _ _ _ _ _ ox).
  - intros y oy Hy Hwy Hn. split_and!; by apply (rb_binop_len_mismatch _ _ _ _ _ ox Hx Hw y oy).
Qed.

(** C15 A live buffer combined with a value that is neither a bitarray
    nor a [RandBytes] raises [TypeError] and changes nothing. *)
Theorem rb_unsupported_operand s x ox :
  heap s !! x = Some ox -> _wrapped ox = true ->
  rb_and x OpOther s = (s, Raise TypeError) /\
  rb_or x OpOther s = (s, Raise TypeError) /\
  rb_xor x OpOther s = (s, Raise TypeError).
Proof. intros Hx Hw. split_and!; by apply (rb_binop_other_type _ _ _ _ _ ox). Qed.


(** C9 Refinement: on every well-formed state, every receiver and
    every operand, [__and__], [__or__] and [__xor__] behave as the
    contract [binop_spec] allows: they raise the exception of the first
    failing guard of [binop_error] (a missing or consumed receiver, a
    length mismatch, a missing or consumed other buffer, an operand of
    another type) and leave the state unchanged, or they return the id of
    a fresh object that holds the bitwise result and the propagated
    probabilities, and consume the receiver and (when different) the
    other operand. *)
Theorem rb_ops_refine_spec (s : St) (x : nat) (other : Operand) :
  wf_state s ->
  binop_spec (f:=andb) (g_lit:=and_lit) (g2:=and_pr) (g_self:=id) s x other (rb_and x other s) /\
  binop_spec (f:=orb) (g_lit:=or_lit) (g2:=or_pr) (g_self:=id) s x other (rb_or x other s) /\
  binop_spec (f:=xorb) (g_lit:=xor_lit) (g2:=xor_pr) (g_self:=fun _ => 0%Q) s x other (rb_xor x other s).
Proof. intros Hwf. split_and!; unfold rb_and, rb_or, rb_xor; by apply rb_binop_meets_spec. Qed.

(** ** Witnesses on the concrete state [demo_st] *)

Lemma rb_xor_distinct_witness :
  rb_xor 0 (OpRB 1) demo_st =
    (post_state demo_st (<[1 := with_wrapped (demo_obj 200) false]>
       (<[0 := with_wrapped (demo_obj 105) false]>
       (<[3 := mkRB true (zip_with xorb (_i (demo_obj 105)) (_i (demo_obj 200))) 1
                 (zip_with xor_pr (_pr_one (demo_obj 105)) (_pr_one (demo_obj 200)))]>
          (heap demo_st)))) 1, Ok 3).
Proof. apply (rb_xor_distinct demo_st 0 1 (demo_obj 105) (demo_obj 200)); wit. Defined.

Lemma rb_andor_distinct_witness :
  rb_and 0 (OpRB 1) demo_st =
    (post_state demo_st (<[1 := with_wrapped (demo_obj 200) false]>
       (<[0 := with_wrapped (demo_obj 105) false]>
       (<[3 := mkRB true (zip_with andb (_i (demo_obj 105)) (_i (demo_obj 200))) 1
                 (zip_with and_pr (_pr_one (demo_obj 105)) (_pr_one (demo_obj 200)))]>
          (heap demo_st)))) 1, Ok 3) /\
  rb_or 0 (OpRB 1) demo_st =
    (post_state demo_st (<[1 := with_wrapped (demo_obj 200) false]>
       (<[0 := with_wrapped (demo_obj 105) false]>
       (<[3 := mkRB true (zip_with orb (_i (demo_obj 105)) (_i (demo_obj 200))) 1
                 (zip_with or_pr (_pr_one (demo_obj 105)) (_pr_one (demo_obj 200)))]>
          (heap demo_st)))) 1, Ok 3).
Proof. apply (rb_andor_distinct demo_st 0 1 (demo_obj 105) (demo_obj 200)); wit. Defined.

Lemma rb_xor_self_witness :
  rb_xor 1 (OpRB 1) demo_st =
    (post_state demo_st (<[1 := with_wrapped (demo_obj 200) false]>
       (<[3 := mkRB true (replicate (length (_i (demo_obj 200))) false) 1
                 (replicate (length (_pr_one (demo_obj 200))) 0%Q)]> (heap demo_st))) 1, Ok 3).
Proof. apply (rb_xor_self demo_st 1 (demo_obj 200)); wit. Defined.

Lemma rb_andor_self_witness :
  rb_and 1 (OpRB 1) demo_st =
    (post_state demo_st (<[1 := with_wrapped (demo_obj 200) false]>
       (<[3 := mkRB true (_i (demo_obj 200)) 1 (_pr_one (demo_obj 200))]> (heap demo_st))) 1,
     Ok 3) /\
  rb_or 1 (OpRB 1) demo_st =
    (post_state demo_st (<[1 := with_wrapped (demo_obj 200) false]>
       (<[3 := mkRB true (_i (demo_obj 200)) 1 (_pr_one (demo_obj 200))]> (heap demo_st))) 1,
     Ok 3).
Proof. apply (rb_andor_self demo_st 1 (demo_obj 200)); wit. Defined.

Lemma rb_bits_ops_witness :
  rb_xor 0 (OpBits (frombytes [15%Z])) demo_st =
    (post_state demo_st (<[0 := with_wrapped (demo_obj 105) false]>
       (<[3 := mkRB true (zip_with xorb (_i (demo_obj 105)) (frombytes [15%Z])) 1
                 (zip_with xor_lit (_pr_one (demo_obj 105)) (frombytes [15%Z]))]> (heap demo_st))) 1,
     Ok 3) /\
  rb_and 0 (OpBits (frombytes [15%Z])) demo_st =
    (post_state demo_st (<[0 := with_wrapped (demo_obj 105) false]>
       (<[3 := mkRB true (zip_with andb (_i (demo_obj 105)) (frombytes [15%Z])) 1
                 (zip_with and_lit (_pr_one (demo_obj 105)) (frombytes [15%Z]))]> (heap demo_st))) 1,
     Ok 3) /\
  rb_or 0 (OpBits (frombytes [15%Z])) demo_st =
    (post_state demo_st (<[0 := with_wrapped (demo_obj 105) false]>
       (<[3 := mkRB true (zip_with orb (_i (demo_obj 105)) (frombytes [15%Z])) 1
                 (zip_with or_lit (_pr_one (demo_obj 105)) (frombytes [15%Z]))]> (heap demo_st))) 1,
     Ok 3).
Proof. apply (rb_bits_ops demo_st 0 (demo_obj 105)); wit. Defined.

Lemma rb_invert_spec_witness :
  rb_invert 0 demo_st =
    (post_state demo_st (<[0 := with_wrapped (demo_obj 105) false]>
       (<[3 := mkRB true (map negb (_i (demo_obj 105))) 1 (map not_pr (_pr_one (demo_obj 105)))]>
          (heap demo_st))) 1,
     Ok 3).
Proof. apply (rb_invert_spec demo_st 0 (demo_obj 105)); wit. Defined.

Lemma rb_consumed_self_raises_witness :
  rb_len 2 demo_st = (demo_st, Raise RuntimeError) /\
  rb_invert 2 demo_st = (demo_st, Raise RuntimeError) /\
  forall other,
    rb_and 2 other demo_st = (demo_st, Raise RuntimeError) /\
    rb_or 2 other demo_st = (demo_st, Raise RuntimeError) /\
    rb_xor 2 other demo_st = (demo_st, Raise RuntimeError).
Proof. apply (rb_consumed_self_raises demo_st 2 (with_wrapped (demo_obj 7) false)); wit. Defined.

Lemma rb_consumed_other_raises_witness :
  rb_and 0 (OpRB 2) demo_st = (demo_st, Raise RuntimeError) /\
  rb_or 0 (OpRB 2) demo_st = (demo_st, Raise RuntimeError) /\
  rb_xor 0 (OpRB 2) demo_st = (demo_st, Raise RuntimeError).
Proof.
  apply (rb_consumed_other_raises demo_st 0 (demo_obj 105) 2 (with_wrapped (demo_obj 7) false)); wit.
Defined.

Lemma rb_length_mismatch_raises_witness :
  rb_xor 0 (OpBits (frombytes [1%Z; 2%Z])) demo_st = (demo_st, Raise ValueError).
Proof.
  apply (proj1 (rb_length_mismatch_raises demo_st 0 (demo_obj 105) ltac:(wit) ltac:(wit))
           (frombytes [1%Z; 2%Z]) ltac:(vm_compute; lia)).
Defined.

Lemma rb_unsupported_operand_witness :
  rb_xor 0 OpOther demo_st = (demo_st, Raise TypeError).
Proof. apply (rb_unsupported_operand demo_st 0 (demo_obj 105)); wit. Defined.



Lemma rb_ops_refine_spec_witness :
  binop_spec (f:=andb) (g_lit:=and_lit) (g2:=and_pr) (g_self:=id) demo_st 0 (OpRB 1) (rb_and 0 (OpRB 1) demo_st) /\
  binop_spec (f:=orb) (g_lit:=or_lit) (g2:=or_pr) (g_self:=id) demo_st 0 (OpRB 1) (rb_or 0 (OpRB 1) demo_st) /\
  binop_spec (f:=xorb) (g_lit:=xor_lit) (g2:=xor_pr) (g_self:=fun _ => 0%Q) demo_st 0 (OpRB 1)
    (rb_xor 0 (OpRB 1) demo_st).
Proof. apply rb_ops_refine_spec. wit. Defined.

