(* ===== verification/Machine.v ===== *)
(** * The class as a state machine

    A program using the class is a sequence of method calls ([call],
    [run_call]); [step] is one call and [reachable] the states reached
    from an empty heap; [exec] is a call with the value it returns.  The
    theorems: every reachable state is well-formed, a consumed buffer
    stays consumed and inert in every later state, every call raises
    only the documented exceptions, and from every state a state in which
    all buffers are consumed can be reached ([unwrap_all]). *)

From S2P Require Import Prelude Bitarray Prob RandBytes Contract Operators.
From stdpp Require Import gmap.
From Stdlib Require Import Lqa.

Open Scope py_scope.

(** ** The program as a step relation *)

(** A call of a method of the class; [entropy] reads the state without
    changing it and is in [Entropy]. *)
Inductive call :=
| CInit (n : Z)
| CLen (x : nat)
| CUnwrap (x : nat)
| CAnd (x : nat) (other : Operand)
| COr (x : nat) (other : Operand)
| CXor (x : nat) (other : Operand)
| CInvert (x : nat).

Definition run_call (c : call) (s : St) : St :=
  match c with
  | CInit n => fst (RandBytes_init n s)
  | CLen x => fst (rb_len x s)
  | CUnwrap x => fst (unwrap x s)
  | CAnd x o => fst (rb_and x o s)
  | COr x o => fst (rb_or x o s)
  | CXor x o => fst (rb_xor x o s)
  | CInvert x => fst (rb_invert x s)
  end.

Inductive step : St -> St -> Prop :=
| step_call c s : step s (run_call c s).

Definition initial (src : nat -> Z) : St := mkSt ∅ 0 src 0.

Definition reachable (src : nat -> Z) (s : St) : Prop := rtc step (initial src) s.

(** What a call returns to the Python caller: the new object, the length,
    or the raw bits. *)
Inductive value := VId (x : nat) | VInt (n : Z) | VBits (b : list bool).

Definition vmap {A} (f : A -> value) (c : M A) : M value := x <- c ;; ret (f x).

(** One call with its result. *)
Definition exec (c : call) : M value :=
  match c with
  | CInit n => vmap VId (RandBytes_init n)
  | CLen x => vmap VInt (rb_len x)
  | CUnwrap x => vmap VBits (unwrap x)
  | CAnd x o => vmap VId (rb_and x o)
  | COr x o => vmap VId (rb_or x o)
  | CXor x o => vmap VId (rb_xor x o)
  | CInvert x => vmap VId (rb_invert x)
  end.

(** The objects a call refers to are in the heap (a Python program can
    only name objects that exist). *)
Definition call_in_heap (s : St) (c : call) : Prop :=
  match c with
  | CInit _ => True
  | CLen x | CUnwrap x | CInvert x => is_Some (heap s !! x)
  | CAnd x o | COr x o | CXor x o => is_Some (heap s !! x) /\ operand_in_heap s o
  end.

(** A result is a value or one of the documented exceptions. *)
Definition documented_result {A} (r : result A) : bool :=
  match r with Ok _ => true | Raise e => documented e end.

Lemma run_call_wf c s : wf_state s -> wf_state (run_call c s).
Proof.
  intros Hwf. destruct c; simpl.
  - by apply rb_init_wf.
  - by rewrite rb_len_state.
  - by apply unwrap_wf.
  - by apply (rb_binop_wf (f:=andb)).
  - by apply (rb_binop_wf (f:=orb)).
  - by apply (rb_binop_wf (f:=xorb)).
  - by apply rb_invert_wf.
Qed.

Lemma run_call_frozen c s : wf_state s -> frozen s (run_call c s).
Proof.
  intros Hwf z oz Hz Hwz. pose proof (wf_in_heap_lt _ _ _ Hwf Hz).
  destruct c as [n|x|x|x o|x o|x o|x]; simpl.
  - destruct (decide (n < 0)%Z); [by rewrite rb_init_negative|].
    rewrite rb_init_ok by lia. simpl. rewrite lookup_insert_ne by lia. done.
  - by rewrite rb_len_state.
  - destruct (heap s !! x) as [ox|] eqn:Hx; [|by rewrite unwrap_missing].
    rewrite (unwrap_spec _ _ ox) by done. simpl.
    destruct (decide (x = z)) as [->|]; [|by rewrite lookup_insert_ne].
    rewrite lookup_insert_eq. assert (ox = oz) as -> by congruence.
    by rewrite with_wrapped_consumed.
  - by apply (rb_binop_frozen (f:=andb)).
  - by apply (rb_binop_frozen (f:=orb)).
  - by apply (rb_binop_frozen (f:=xorb)).
  - destruct (heap s !! x) as [ox|] eqn:Hx; [|by rewrite rb_invert_missing].
    destruct (_wrapped ox) eqn:Hw; [|by rewrite (rb_invert_dead _ _ ox)].
    rewrite (rb_invert_ok _ _ ox) by (eauto with randbox; apply (wf_lookup _ _ _ Hwf Hx)).
    simpl. rewrite !lookup_insert_ne by (intros ?; subst; congruence || lia). done.
Qed.

Lemma steps_wf s s' : rtc step s s' -> wf_state s -> wf_state s'.
Proof. induction 1 as [|s1 s2 s3 [c] _ IH]; intros Hwf; [done|]. by apply IH, run_call_wf. Qed.

Lemma steps_frozen s s' : rtc step s s' -> wf_state s -> frozen s s'.
Proof.
  induction 1 as [|s1 s2 s3 [c] _ IH]; intros Hwf z oz Hz Hwz; [done|].
  apply IH; [by apply run_call_wf | by apply run_call_frozen | done].
Qed.

(** ** Calls raise only documented exceptions *)

Lemma vmap_fst {A} (f : A -> value) (c : M A) s : fst (vmap f c s) = fst (c s).
Proof. unfold vmap, bind. destruct (c s) as [? []]; done. Qed.

Lemma vmap_documented {A} (f : A -> value) (c : M A) s :
  documented_result (snd (vmap f c s)) = documented_result (snd (c s)).
Proof. unfold vmap, bind. destruct (c s) as [? []]; done. Qed.

Lemma exec_state c s : fst (exec c s) = run_call c s.
Proof. destruct c; apply vmap_fst. Qed.

Lemma binop_spec_documented {f g_lit g2 g_self} s x other r :
  binop_spec (f:=f) (g_lit:=g_lit) (g2:=g2) (g_self:=g_self) s x other r ->
  is_Some (heap s !! x) -> operand_in_heap s other -> documented_result (snd r) = true.
Proof. destruct 1; try done. simpl. by apply binop_error_documented. Qed.

Lemma rb_binop_documented {f g_lit g2 g_self bitop body pair}
    `{!BinopLaws f g_lit g2 g_self bitop body pair} s x other :
  wf_state s -> is_Some (heap s !! x) -> operand_in_heap s other ->
  documented_result (snd (rb_binop bitop body pair x other s)) = true.
Proof. intros Hwf. apply (binop_spec_documented (f:=f) (g_lit:=g_lit) (g2:=g2) (g_self:=g_self)). by apply rb_binop_meets_spec. Qed.

Lemma initial_wf src : wf_state (initial src).
Proof. by apply wf_stateb_spec. Qed.

(** Every method but [unwrap] on a consumed buffer raises [RuntimeError]
    and changes nothing. *)
Lemma dead_methods_raise s z oz :
  heap s !! z = Some oz -> _wrapped oz = false ->
  rb_len z s = (s, Raise RuntimeError) /\
  rb_invert z s = (s, Raise RuntimeError) /\
  forall other,
    rb_and z other s = (s, Raise RuntimeError) /\
    rb_or z other s = (s, Raise RuntimeError) /\
    rb_xor z other s = (s, Raise RuntimeError).
Proof.
  intros Hz Hw. split_and!; [by apply (rb_len_dead _ _ oz) | by apply (rb_invert_dead _ _ oz) |].
  intros other. split_and!; by apply (rb_binop_dead_self _ _ _ _ _ oz).
Qed.

(** ** Draining the heap *)

(** [x.unwrap()] for each [x] of [xs] in turn. *)
Definition unwrap_all (xs : list nat) (s : St) : St :=
  foldl (fun s x => run_call (CUnwrap x) s) s xs.

Lemma unwrap_all_steps xs s : rtc step s (unwrap_all xs s).
Proof.
  revert s. induction xs as [|y xs IH]; intros s; [done|].
  eapply rtc_l; [constructor | apply IH].
Qed.

Lemma unwrap_heap s y x :
  heap (run_call (CUnwrap y) s) !! x =
    if decide (x = y) then (fun o => with_wrapped o false) <$> heap s !! x else heap s !! x.
Proof.
  simpl. destruct (heap s !! y) as [oy|] eqn:Hy.
  - rewrite (unwrap_spec _ _ oy) by done. simpl. case_decide as Hxy.
    + subst. by rewrite lookup_insert_eq, Hy.
    + by rewrite lookup_insert_ne.
  - rewrite unwrap_missing by done. case_decide; subst; [by rewrite Hy | done].
Qed.

Lemma unwrap_all_heap xs s x :
  heap (unwrap_all xs s) !! x =
    if decide (x ∈ xs) then (fun o => with_wrapped o false) <$> heap s !! x else heap s !! x.
Proof.
  revert s. induction xs as [|y xs IH]; intros s; cbn [unwrap_all foldl].
  - by rewrite decide_False by set_solver.
  - unfold unwrap_all in IH. rewrite IH, unwrap_heap.
    destruct (decide (x = y)) as [->|Hxy].
    + rewrite (decide_True (P := y ∈ y :: xs)) by set_solver.
      case_decide; by destruct (heap s !! y).
    + destruct (decide (x ∈ xs));
        [rewrite (decide_True (P := x ∈ y :: xs)) | rewrite (decide_False (P := x ∈ y :: xs))];
        rewrite ?elem_of_cons; naive_solver.
Qed.

(** C8 Every state reachable from the initial state by calls of the
    class's methods is well-formed: each buffer has [8 n] bits and [8 n]
    probabilities in [[0,1]], and fresh identities are unused. *)
Theorem reachable_wf src s : reachable src s -> wf_state s.
Proof. intros Hr. eapply steps_wf; [exact Hr | apply initial_wf]. Qed.

(** C7 Once a buffer is consumed it never changes again, and in every
    later state [len], [&], [|], [^] and [~] on it raise [RuntimeError]. *)
Theorem consumed_forever src s s' z oz :
  reachable src s -> rtc step s s' ->
  heap s !! z = Some oz -> _wrapped oz = false ->
  heap s' !! z = Some oz /\
  rb_len z s' = (s', Raise RuntimeError) /\
  rb_invert z s' = (s', Raise RuntimeError) /\
  forall other,
    rb_and z other s' = (s', Raise RuntimeError) /\
    rb_or z other s' = (s', Raise RuntimeError) /\
    rb_xor z other s' = (s', Raise RuntimeError).
Proof.
  intros Hr Hs Hz Hw.
  assert (Hz' : heap s' !! z = Some oz).
  { eapply steps_frozen; [exact Hs | | exact Hz | exact Hw].
    eapply steps_wf; [exact Hr | apply initial_wf]. }
  split; [done|]. by apply (dead_methods_raise _ _ oz).
Qed.

(** C10 Exception safety of the class: from a well-formed state, every
    method call whose references exist returns a value or raises one of
    the documented exceptions ([RuntimeError], [ValueError], [TypeError]);
    in particular no loop of the class ever raises [IndexError]. *)
Theorem class_raises_documented s c :
  wf_state s -> call_in_heap s c -> documented_result (snd (exec c s)) = true.
Proof.
  intros Hwf Hc. destruct c as [n|x|x|x o|x o|x o|x]; simpl in Hc; unfold exec; rewrite vmap_documented.
  - destruct (decide (n < 0)%Z); [by rewrite rb_init_negative | by rewrite rb_init_ok by lia].
  - destruct Hc as [ox Hx]. destruct (_wrapped ox) eqn:Hw;
      [by rewrite (rb_len_live _ _ ox Hx true Hw) | by rewrite (rb_len_dead _ _ ox)].
  - destruct Hc as [ox Hx]. by rewrite (unwrap_spec _ _ ox).
  - destruct Hc. by apply (rb_binop_documented (f:=andb)).
  - destruct Hc. by apply (rb_binop_documented (f:=orb)).
  - destruct Hc. by apply (rb_binop_documented (f:=xorb)).
  - destruct Hc as [ox Hx]. destruct (_wrapped ox) eqn:Hw; [|by rewrite (rb_invert_dead _ _ ox)].
    rewrite (rb_invert_ok _ _ ox) by (eauto with randbox; apply (wf_lookup _ _ _ Hwf Hx)). done.
Qed.

(** C11 Liveness of the one-shot discipline: from every state, the
    program can go on to a state in which every buffer is consumed (by
    calling [unwrap] on each), each keeping its bits and probabilities,
    and in which [len], [&], [|], [^] and [~] on every buffer raise
    [RuntimeError]. *)
Theorem buffers_drain s :
  exists s', rtc step s s' /\
    (forall x, heap s' !! x = (fun o => with_wrapped o false) <$> heap s !! x) /\
    (forall x o, heap s' !! x = Some o ->
       rb_len x s' = (s', Raise RuntimeError) /\ rb_invert x s' = (s', Raise RuntimeError) /\
       forall other, rb_and x other s' = (s', Raise RuntimeError) /\
         rb_or x other s' = (s', Raise RuntimeError) /\ rb_xor x other s' = (s', Raise RuntimeError)).
Proof.
  set (s' := unwrap_all (elements (dom (heap s))) s).
  assert (Hh : forall x, heap s' !! x = (fun o => with_wrapped o false) <$> heap s !! x).
  { intros x. unfold s'. rewrite unwrap_all_heap. case_decide as Hx; [done|].
    rewrite elem_of_elements, elem_of_dom in Hx. by apply eq_None_not_Some in Hx as ->. }
  exists s'. split_and!; [apply unwrap_all_steps | exact Hh |].
  intros x o Hx. apply (dead_methods_raise _ _ o Hx).
  rewrite Hh in Hx. apply fmap_Some in Hx as (o0 & _ & ->). done.
Qed.

(** ** Witnesses *)

Definition demo_src : nat -> Z := fun k => Z.of_nat (k * 37 mod 256).
Definition demo_run1 : St := run_call (CInit 1) (initial demo_src).
Definition demo_run2 : St := run_call (CUnwrap 0) demo_run1.

Lemma reachable_wf_witness : wf_state demo_run2.
Proof.
  apply (reachable_wf demo_src).
  apply (rtc_l _ _ demo_run1); [constructor|]. apply rtc_once. constructor.
Defined.

Lemma consumed_forever_witness :
  rb_xor 0 (OpRB 0) (run_call (CInit 1) demo_run2) =
    (run_call (CInit 1) demo_run2, Raise RuntimeError).
Proof.
  apply (consumed_forever demo_src demo_run2 (run_call (CInit 1) demo_run2) 0
           (with_wrapped (fresh_rb (initial demo_src) 1) false)).
  - apply (rtc_l _ _ demo_run1); [constructor|]. apply rtc_once. constructor.
  - apply rtc_once. constructor.
  - wit.
  - wit.
Defined.

Lemma class_raises_documented_witness :
  documented_result (snd (exec (CXor 0 (OpRB 2)) demo_st)) = true.
Proof. apply class_raises_documented; [wit | simpl; split; eexists; reflexivity]. Defined.
