(* ===== verification/Entropy.v ===== *)
(** * Entropy of a buffer ([shannon_entropy], [min_entropy], [RandBytes.entropy])

    The per-bit entropies of [src/pyrand.py] over the reals, with
    [math.log(x, 2)] as [ln x / ln 2], and the [entropy] method, which sums
    [min_entropy] over [_pr_one] without looking at [_wrapped].  The
    theorems give the values the driver [src/otp.py] asserts: [n] fresh
    bytes carry [8 n] bits, [x ^ x] carries none, [a & b] of two fresh
    8-byte buffers carries between 24 and 28 bits of min-entropy (and more
    than 28 bits of Shannon entropy: [shannon_entropy] is defined but
    [entropy] does not use it);
    [~] and [^] with a known bitarray keep the entropy; a consumed buffer
    still reports its entropy. *)

From S2P Require Import Prelude Bitarray Prob RandBytes Contract Operators Machine.
From stdpp Require Import gmap.
From Stdlib Require Import Reals Qreals Rpower Psatz Morphisms.

Open Scope py_scope.
Open Scope R_scope.

(** ** Definitions *)

(** [math.log(x, 2)] *)
Definition log2 (x : R) : R := ln x / ln 2.

(** [pr == 0 or (1-pr) == 0] *)
Definition certain (pr : Q) : bool := Qeq_bool pr 0 || Qeq_bool (1 - pr) 0.

(** [shannon_entropy(pr)] *)
Definition shannon_entropy (pr : Q) : R :=
  if certain pr then 0
  else -1 * (Q2R pr * log2 (Q2R pr) + Q2R (1 - pr) * log2 (Q2R (1 - pr))).

(** [min_entropy(pr)] *)
Definition min_entropy (pr : Q) : R :=
  if certain pr then 0
  else if negb (Qle_bool pr (1#2)) then -1 * log2 (Q2R pr)
  else -1 * log2 (Q2R (1 - pr)).

(** [sum(l)]: a left fold from [0]. *)
Definition py_sum (l : list R) : R := fold_left Rplus l 0.

(** [sum([min_entropy(i) for i in pr])] *)
Definition entropy_of (pr : list Q) : R := py_sum (map min_entropy pr).

(** [RandBytes.entropy(self)]: no check of [_wrapped]. *)
Definition rb_entropy (self : nat) : M R :=
  o <- deref self ;; ret (entropy_of (_pr_one o)).

(** The same sum with [shannon_entropy], which the code never calls. *)
Definition shannon_of (pr : list Q) : R := py_sum (map shannon_entropy pr).

(** ** Sums *)

Lemma fold_left_Rplus_acc (l : list R) a : fold_left Rplus l a = a + fold_left Rplus l 0.
Proof.
  revert a. induction l as [|x l IH]; intros a; simpl; [lra|].
  rewrite (IH (a + x)), (IH (0 + x)). lra.
Qed.

Lemma py_sum_cons x l : py_sum (x :: l) = x + py_sum l.
Proof. unfold py_sum. simpl. rewrite fold_left_Rplus_acc. lra. Qed.

Lemma py_sum_replicate k c : py_sum (replicate k c) = INR k * c.
Proof.
  induction k as [|k IH]; [unfold py_sum; simpl; lra|].
  rewrite replicate_S, py_sum_cons, IH, S_INR. lra.
Qed.

Lemma py_sum_map_ext {A} (f g : A -> R) (l : list A) :
  (forall a, In a l -> f a = g a) -> py_sum (map f l) = py_sum (map g l).
Proof. intros H. f_equal. by apply map_ext_in. Qed.

(** ** The per-bit entropies *)

Lemma certain_Qeq p p' : (p == p')%Q -> certain p = certain p'.
Proof.
  intros H. unfold certain. rewrite (Qeqb_comp p p' H 0%Q 0%Q (Qeq_refl 0)).
  f_equal. apply Qeqb_comp; [by rewrite H | reflexivity].
Qed.

#[export] Instance min_entropy_proper : Proper (Qeq ==> eq) min_entropy.
Proof.
  intros p p' H. unfold min_entropy. rewrite (certain_Qeq p p' H).
  assert (Hle : Qle_bool p (1#2) = Qle_bool p' (1#2)).
  { apply eq_true_iff_eq. rewrite !Qle_bool_iff. by rewrite H. }
  rewrite Hle. by rewrite (Qeq_eqR _ _ H), (Qeq_eqR (1 - p) (1 - p')) by (by rewrite H).
Qed.

Lemma ln_half : ln (/ 2) = - ln 2.
Proof. apply ln_Rinv. lra. Qed.

Lemma log2_half : log2 (/ 2) = -1.
Proof. unfold log2. rewrite ln_half. field. apply ln_neq_0; lra. Qed.

Lemma min_entropy_half : min_entropy (1#2) = 1.
Proof.
  unfold min_entropy. simpl.
  change (1 - (1#2))%Q with (1#2)%Q.
  replace (Q2R (1#2)) with (/ 2) by (unfold Q2R; simpl; lra).
  rewrite log2_half. lra.
Qed.

Lemma min_entropy_zero : min_entropy 0 = 0.
Proof. reflexivity. Qed.

Lemma ln_le_mono x y : 0 < x -> x <= y -> ln x <= ln y.
Proof.
  intros Hx Hxy. destruct (Rle_lt_or_eq_dec _ _ Hxy) as [Hlt|Heq].
  - left. by apply ln_increasing.
  - rewrite Heq. lra.
Qed.

Lemma ln2_pos : 0 < ln 2.
Proof. rewrite <- ln_1. apply ln_increasing; lra. Qed.

(** [-log2 x] is in [[0,1]] for [x] in [[1/2,1]]. *)
Lemma neg_log2_range x : / 2 <= x <= 1 -> 0 <= -1 * log2 x <= 1.
Proof.
  intros [H1 H2]. pose proof ln2_pos.
  assert (Hlo : ln (/ 2) <= ln x) by (apply ln_le_mono; lra).
  assert (Hhi : ln x <= ln 1) by (apply ln_le_mono; lra).
  rewrite ln_half in Hlo. rewrite ln_1 in Hhi. unfold log2.
  split.
  - apply Rmult_le_reg_r with (ln 2); [lra|]. field_simplify; lra.
  - apply Rmult_le_reg_r with (ln 2); [lra|]. field_simplify; lra.
Qed.

Lemma Q2R_le_iff p q : (p <= q)%Q <-> Q2R p <= Q2R q.
Proof. split; [apply Qle_Rle | apply Rle_Qle]. Qed.

Lemma Q2R_one : Q2R 1 = 1.
Proof. unfold Q2R. simpl. lra. Qed.

Lemma Q2R_half : Q2R (1#2) = / 2.
Proof. unfold Q2R. simpl. lra. Qed.

(** The code's [min_entropy] is symmetric: [p] and [1 - p] have the same
    min-entropy. *)
Lemma min_entropy_sym p : min_entropy (1 - p)%Q = min_entropy p.
Proof.
  unfold min_entropy.
  assert (Hpp : (1 - (1 - p) == p)%Q) by ring.
  assert (Hc : certain (1 - p)%Q = certain p).
  { unfold certain. rewrite (Qeqb_comp (1 - (1 - p))%Q p Hpp 0%Q 0%Q (Qeq_refl 0)). apply orb_comm. }
  rewrite Hc. destruct (certain p); [done|].
  rewrite (Qeq_eqR (1 - (1 - p))%Q p Hpp).
  destruct (Qle_bool p (1#2)) eqn:H1, (Qle_bool (1 - p) (1#2)) eqn:H2; simpl; try done.
  - apply Qle_bool_iff in H1, H2. do 2 f_equal. apply Qeq_eqR. lra.
  - apply not_true_iff_false in H1, H2. rewrite Qle_bool_iff in H1, H2. exfalso. lra.
Qed.

Lemma min_entropy_range p : is_prob p -> 0 <= min_entropy p <= 1.
Proof.
  intros [H0 H1]. unfold min_entropy. destruct (certain p); [lra|].
  destruct (Qle_bool p (1#2)) eqn:Hle; simpl; apply neg_log2_range.
  - apply Qle_bool_iff in Hle. rewrite <- Q2R_half, <- Q2R_one, <- !Q2R_le_iff. lra.
  - apply not_true_iff_false in Hle. rewrite Qle_bool_iff in Hle.
    rewrite <- Q2R_half, <- Q2R_one, <- !Q2R_le_iff. lra.
Qed.

(** ** Entropy of a buffer *)

Lemma map_replicate_eq {A B} (f : A -> B) k a : map f (replicate k a) = replicate k (f a).
Proof. induction k; simpl; f_equal; auto. Qed.

Lemma entropy_of_replicate k p : entropy_of (replicate k p) = INR k * min_entropy p.
Proof. unfold entropy_of. by rewrite map_replicate_eq, py_sum_replicate. Qed.

Lemma entropy_of_ext (l l' : list Q) :
  Forall2 Qeq l l' -> entropy_of l = entropy_of l'.
Proof.
  unfold entropy_of. intros H. f_equal. induction H as [|p p' l l' Hp _ IH]; [done|].
  simpl. by rewrite Hp, IH.
Qed.

Lemma entropy_of_bounds (l : list Q) :
  Forall is_prob l -> 0 <= entropy_of l <= INR (length l).
Proof.
  unfold entropy_of. induction 1 as [|p l Hp _ IH]; [unfold py_sum; simpl; lra|].
  simpl map. rewrite py_sum_cons. simpl length. rewrite S_INR.
  pose proof (min_entropy_range p Hp). lra.
Qed.

Lemma rb_entropy_spec s x o :
  heap s !! x = Some o -> rb_entropy x s = (s, Ok (entropy_of (_pr_one o))).
Proof. intros Hx. unfold rb_entropy. by rewrite (bind_deref _ _ _ o). Qed.

Lemma INR_to_nat_mul8 n : (0 <= n)%Z -> INR (Z.to_nat (n * 8)) = IZR (n * 8).
Proof. intros Hn. rewrite INR_IZR_INZ, Z2Nat.id by lia. reflexivity. Qed.

Lemma zip_with_replicate_eq {A B C} (f : A -> B -> C) k a b :
  zip_with f (replicate k a) (replicate k b) = replicate k (f a b).
Proof. induction k; simpl; f_equal; auto. Qed.

Lemma ln2_neq0 : ln 2 <> 0.
Proof. pose proof ln2_pos. lra. Qed.

Lemma min_entropy_quarter : min_entropy (1#4) = ln (4 / 3) / ln 2.
Proof.
  unfold min_entropy. change (certain (1#4)) with false.
  change (Qle_bool (1#4) (1#2)) with true. cbn [negb].
  change (1 - (1#4))%Q with (3#4)%Q.
  replace (Q2R (3#4)) with (/ (4 / 3)) by (unfold Q2R; simpl; field).
  unfold log2. rewrite ln_Rinv by lra. field. apply ln2_neq0.
Qed.

Lemma shannon_entropy_quarter : shannon_entropy (1#4) = / 2 + 3 / 4 * (ln (4 / 3) / ln 2).
Proof.
  unfold shannon_entropy. change (certain (1#4)) with false. cbv iota.
  change (1 - (1#4))%Q with (3#4)%Q.
  replace (Q2R (1#4)) with (/ (2 ^ 2)) by (unfold Q2R; simpl; field).
  replace (Q2R (3#4)) with (/ (4 / 3)) by (unfold Q2R; simpl; field).
  unfold log2. rewrite !ln_Rinv, ln_pow by lra. simpl INR. field. apply ln2_neq0.
Qed.

(** [64 log2(4/3)] lies strictly between 24 and 28. *)
Lemma quarter_bounds : 24 < 64 * (ln (4 / 3) / ln 2) < 28.
Proof.
  pose proof ln2_pos as Hb.
  assert (H8 : ln (2 ^ 3) < ln ((4 / 3) ^ 8)) by (apply ln_increasing; simpl; lra).
  assert (H16 : ln ((4 / 3) ^ 16) < ln (2 ^ 7)) by (apply ln_increasing; simpl; lra).
  rewrite !ln_pow in H8, H16 by lra. simpl INR in H8, H16.
  assert (Hi : ln 2 * / ln 2 = 1) by (field; apply ln2_neq0).
  assert (Hp : 0 < / ln 2) by (apply Rinv_0_lt_compat; lra).
  unfold Rdiv. split; nra.
Qed.

Lemma ln_four_thirds_pos : 0 < ln (4 / 3).
Proof. rewrite <- ln_1. apply ln_increasing; lra. Qed.

Lemma rb_entropy_fresh s n :
  (0 <= n)%Z ->
  rb_entropy (next_id s) (init_state s n) = (init_state s n, Ok (IZR (n * 8))).
Proof.
  intros Hn. rewrite (rb_entropy_spec _ _ (fresh_rb s n))
    by (unfold init_state; simpl; by rewrite lookup_insert_eq).
  unfold fresh_rb. simpl. rewrite entropy_of_replicate, min_entropy_half, INR_to_nat_mul8 by done.
  do 2 f_equal. lra.
Qed.

Lemma entropy_of_not (pr : list Q) : entropy_of (map not_pr pr) = entropy_of pr.
Proof.
  unfold entropy_of. rewrite map_map. f_equal. apply map_ext. intros p. apply min_entropy_sym.
Qed.

Lemma entropy_of_xor_lit (pr : list Q) (m : list bool) :
  length m = length pr -> entropy_of (zip_with xor_lit pr m) = entropy_of pr.
Proof.
  revert m. unfold entropy_of. induction pr as [|p pr IH]; intros [|b m] Hl; simpl in *; try lia.
  - done.
  - rewrite !py_sum_cons, IH by lia. unfold xor_lit.
    destruct b; [by rewrite min_entropy_sym | done].
Qed.

(** The 64 probabilities [1/4] of [a & b] for two fresh 8-byte buffers:
    min-entropy below 28 bits, Shannon entropy above. *)
Lemma and_quarter_entropies :
  entropy_of (zip_with and_pr (replicate 64 (1#2)) (replicate 64 (1#2))) < 28 /\
  shannon_of (zip_with and_pr (replicate 64 (1#2)) (replicate 64 (1#2))) > 28.
Proof.
  rewrite zip_with_replicate_eq. change (and_pr (1#2) (1#2)) with (1#4)%Q.
  unfold shannon_of. rewrite entropy_of_replicate, map_replicate_eq, py_sum_replicate.
  rewrite min_entropy_quarter, shannon_entropy_quarter.
  replace (INR 64) with 64 by (simpl; lra).
  pose proof quarter_bounds. pose proof ln_four_thirds_pos. pose proof ln2_pos.
  assert (0 < ln (4 / 3) / ln 2) by (apply Rdiv_lt_0_compat; lra).
  split; lra.
Qed.

(** ** Properties *)

(** C24 The buffer [RandBytes(n)] allocates, for [n >= 0], has entropy
    exactly [8 n]. *)
Theorem entropy_fresh s n :
  (0 <= n)%Z ->
  rb_entropy (next_id s) (fst (RandBytes_init n s)) = (fst (RandBytes_init n s), Ok (IZR (n * 8))).
Proof. intros Hn. rewrite rb_init_ok by done. by apply rb_entropy_fresh. Qed.



Lemma rb_entropy_self_xor s x ox :
  wf_state s -> heap s !! x = Some ox -> _wrapped ox = true ->
  rb_entropy (next_id s) (fst (rb_xor x (OpRB x) s)) = (fst (rb_xor x (OpRB x) s), Ok 0).
Proof.
  intros Hwf Hx Hw. unfold rb_xor. rewrite (rb_binop_self (f:=xorb) s Hwf x ox Hx Hw). simpl.
  rewrite (rb_entropy_spec _ _ (self_result (f:=xorb) (g_self:=fun _ => 0%Q) ox))
    by (simpl; rewrite lookup_insert_ne by (pose proof (wf_in_heap_lt _ _ _ Hwf Hx); lia);
        by rewrite lookup_insert_eq).
  unfold self_result. simpl. rewrite map_const_replicate, entropy_of_replicate, min_entropy_zero.
  do 2 f_equal. lra.
Qed.

(** The entropy of the object an operator allocated. *)
Lemma rb_entropy_post s x o' o h n :
  x <> next_id s ->
  rb_entropy (next_id s) (post_state s (<[x:=o']> (<[next_id s:=o]> h)) n) =
    (post_state s (<[x:=o']> (<[next_id s:=o]> h)) n, Ok (entropy_of (_pr_one o))).
Proof. intros Hx. apply rb_entropy_spec. simpl. rewrite lookup_insert_ne by done. apply lookup_insert_eq. Qed.

(** C25 The entropy of the buffers the operators derive from a live [x]:
    [x ^ x] has entropy 0, while [~x] and [x ^ m] with a bitarray [m]
    have the entropy of [x] ([min_entropy] gives [p] and [1 - p] the same
    value). *)
Theorem entropy_derived s x ox m :
  wf_state s -> heap s !! x = Some ox -> _wrapped ox = true -> length (_i ox) = length m ->
  rb_entropy (next_id s) (fst (rb_xor x (OpRB x) s)) = (fst (rb_xor x (OpRB x) s), Ok 0) /\
  rb_entropy (next_id s) (fst (rb_invert x s)) =
    (fst (rb_invert x s), Ok (entropy_of (_pr_one ox))) /\
  rb_entropy (next_id s) (fst (rb_xor x (OpBits m) s)) =
    (fst (rb_xor x (OpBits m) s), Ok (entropy_of (_pr_one ox))).
Proof.
  intros Hwf Hx Hw Hl. pose proof (wf_in_heap_lt _ _ _ Hwf Hx) as Hlt.
  pose proof (wf_lookup _ _ _ Hwf Hx) as (Hn & Hi & Hp & _).
  split_and!; [by apply (rb_entropy_self_xor _ _ ox)| |].
  - rewrite (rb_invert_ok s x ox Hx Hw (wf_fresh _ Hwf) Hn). cbn [fst].
    rewrite rb_entropy_post by lia. cbn [_pr_one]. by rewrite entropy_of_not.
  - unfold rb_xor. rewrite (rb_binop_bits (f:=xorb) s Hwf x ox m Hx Hw Hl). cbn [fst].
    rewrite rb_entropy_post by lia. unfold bits_result; cbn [_pr_one].
    rewrite entropy_of_xor_lit; [done | lia].
Qed.

Lemma rb_entropy_and_fresh s x y ox oy :
  wf_state s -> heap s !! x = Some ox -> heap s !! y = Some oy -> x <> y ->
  _wrapped ox = true -> _wrapped oy = true -> _n ox = 8%Z -> _n oy = 8%Z ->
  _pr_one ox = replicate 64 (1#2) -> _pr_one oy = replicate 64 (1#2) ->
  exists e, rb_entropy (next_id s) (fst (rb_and x (OpRB y) s)) = (fst (rb_and x (OpRB y) s), Ok e)
            /\ 24 < e < 28.
Proof.
  intros Hwf Hx Hy Hxy Hwx Hwy Hnx Hny Hpx Hpy.
  unfold rb_and. rewrite (rb_binop_pair (f:=andb) s Hwf x ox y oy) by (done || congruence). simpl.
  pose proof (wf_in_heap_lt _ _ _ Hwf Hx). pose proof (wf_in_heap_lt _ _ _ Hwf Hy).
  eexists. split.
  - apply rb_entropy_spec. simpl. rewrite !lookup_insert_ne by lia. by rewrite lookup_insert_eq.
  - simpl. rewrite Hpx, Hpy, zip_with_replicate_eq, entropy_of_replicate.
    change (and_pr (1#2) (1#2)) with (1#4)%Q. rewrite min_entropy_quarter.
    replace (INR 64) with 64 by (simpl; lra). apply quarter_bounds.
Qed.

(** C26 For two distinct fresh buffers of 8 bytes, [a & b] has
    min-entropy strictly between 24 and 28 bits ([64 log2(4/3)]). *)
Theorem entropy_and_fresh s x y ox oy :
  wf_state s -> heap s !! x = Some ox -> heap s !! y = Some oy -> x <> y ->
  _wrapped ox = true -> _wrapped oy = true -> _n ox = 8%Z -> _n oy = 8%Z ->
  _pr_one ox = replicate 64 (1#2) -> _pr_one oy = replicate 64 (1#2) ->
  exists e, rb_entropy (next_id s) (fst (rb_and x (OpRB y) s)) = (fst (rb_and x (OpRB y) s), Ok e)
            /\ 24 < e < 28.
Proof. apply rb_entropy_and_fresh. Qed.

(** C27 The driver's bound for [a & b] holds of min-entropy only: for
    two distinct fresh 8-byte buffers, the object [a & b] returns has
    probabilities whose Shannon entropy exceeds 28 bits, while the
    entropy [entropy] reports for it is below 28. *)
Theorem shannon_and_fresh_exceeds s x y ox oy :
  wf_state s -> heap s !! x = Some ox -> heap s !! y = Some oy -> x <> y ->
  _wrapped ox = true -> _wrapped oy = true -> _n ox = 8%Z -> _n oy = 8%Z ->
  _pr_one ox = replicate 64 (1#2) -> _pr_one oy = replicate 64 (1#2) ->
  exists o, heap (fst (rb_and x (OpRB y) s)) !! next_id s = Some o /\
            entropy_of (_pr_one o) < 28 /\ shannon_of (_pr_one o) > 28.
Proof.
  intros Hwf Hx Hy Hxy Hwx Hwy Hnx Hny Hpx Hpy.
  unfold rb_and. rewrite (rb_binop_pair (f:=andb) s Hwf x ox y oy) by (done || congruence). simpl.
  pose proof (wf_in_heap_lt _ _ _ Hwf Hx). pose proof (wf_in_heap_lt _ _ _ Hwf Hy).
  eexists. split; [rewrite !lookup_insert_ne by lia; by rewrite lookup_insert_eq|].
  simpl. rewrite Hpx, Hpy. apply and_quarter_entropies.
Qed.

(** C28 In a well-formed state the entropy of a buffer of [n] bytes is
    between [0] and [8 n]. *)
Theorem entropy_bounds s x o :
  wf_state s -> heap s !! x = Some o ->
  exists e, rb_entropy x s = (s, Ok e) /\ 0 <= e <= IZR (_n o * 8).
Proof.
  intros Hwf Hx. pose proof (wf_lookup _ _ _ Hwf Hx) as (Hn & _ & Hl & Hp).
  exists (entropy_of (_pr_one o)). split; [by apply rb_entropy_spec|].
  rewrite <- INR_to_nat_mul8, <- Hl by done. by apply entropy_of_bounds.
Qed.

(** C29 [entropy] does not check the one-shot flag: on a consumed buffer
    it returns the entropy of its probabilities instead of failing. *)
Theorem entropy_consumed s x ox :
  heap s !! x = Some ox -> _wrapped ox = false ->
  rb_entropy x s = (s, Ok (entropy_of (_pr_one ox))).
Proof. intros Hx _. by apply rb_entropy_spec. Qed.

(** ** Witnesses *)

(** Two live 8-byte buffers as [RandBytes(8)] builds them. *)
Definition demo8_obj (b : Z) : RandBytes :=
  mkRB true (frombytes (replicate 8 b)) 8 (replicate 64 (1#2)).
Definition demo8_st : St :=
  mkSt (<[1%nat := demo8_obj 77]> (<[0%nat := demo8_obj 13]> ∅)) 2 (fun _ => 0%Z) 0.

Lemma entropy_fresh_witness :
  rb_entropy (next_id demo_st) (fst (RandBytes_init 2 demo_st)) =
    (fst (RandBytes_init 2 demo_st), Ok (IZR (2 * 8))).
Proof. apply entropy_fresh. lia. Defined.

Lemma entropy_derived_witness :
  rb_entropy 3 (fst (rb_xor 1 (OpRB 1) demo_st)) = (fst (rb_xor 1 (OpRB 1) demo_st), Ok 0) /\
  rb_entropy 3 (fst (rb_invert 1 demo_st)) =
    (fst (rb_invert 1 demo_st), Ok (entropy_of (replicate 8 (1#2)))) /\
  rb_entropy 3 (fst (rb_xor 1 (OpBits (frombytes [5%Z])) demo_st)) =
    (fst (rb_xor 1 (OpBits (frombytes [5%Z])) demo_st), Ok (entropy_of (replicate 8 (1#2)))).
Proof. apply (entropy_derived demo_st 1 (demo_obj 200)); wit. Defined.

Lemma entropy_and_fresh_witness :
  exists e, rb_entropy 2 (fst (rb_and 0 (OpRB 1) demo8_st)) = (fst (rb_and 0 (OpRB 1) demo8_st), Ok e)
            /\ 24 < e < 28.
Proof. apply (entropy_and_fresh demo8_st 0 1 (demo8_obj 13) (demo8_obj 77)); wit. Defined.

Lemma shannon_and_fresh_exceeds_witness :
  exists o, heap (fst (rb_and 0 (OpRB 1) demo8_st)) !! 2%nat = Some o /\
            entropy_of (_pr_one o) < 28 /\ shannon_of (_pr_one o) > 28.
Proof. apply (shannon_and_fresh_exceeds demo8_st 0 1 (demo8_obj 13) (demo8_obj 77)); wit. Defined.

Lemma entropy_bounds_witness :
  exists e, rb_entropy 0 demo_st = (demo_st, Ok e) /\ 0 <= e <= IZR (1 * 8).
Proof. apply (entropy_bounds demo_st 0 (demo_obj 105)); wit. Defined.

Lemma entropy_consumed_witness :
  rb_entropy 2 demo_st = (demo_st, Ok (entropy_of (replicate 8 (1#2)))).
Proof. apply (entropy_consumed demo_st 2 (with_wrapped (demo_obj 7) false)); wit. Defined.
