(* ===== verification/Otp.v ===== *)
(** * The driver [src/otp.py]

    The world of the driver is the object state of [RandBytes] and the
    lines printed so far.  [otp msg] takes the UTF-8 bytes of the message
    (the string literals of [main] are given by their encodings),
    encrypts them with a fresh key by [key ^ m], asserts the entropies
    before and after, unwraps ciphertext and key, prints, and decrypts
    with [bxor].  [bxor] is modelled as written: it iterates over the key
    *bits* ([enumerate] of a bitarray) and XORs byte [i] of the
    ciphertext with bit [i] of the key, so index [n] of an [n]-byte
    ciphertext is read and Python raises [IndexError].  The assertions
    compare reals ([==], [<], [>]); they are decided classically, which is
    what the reals of the model allow.  [.decode('utf-8')] of the
    decrypted bytes is not modelled (it is never reached on a non-empty
    message).  [bxor_bytes] is the byte-wise decryption the specification
    describes; the theorems show that it recovers the message from the
    ciphertext [otp] prints and the key object's bits. *)

From S2P Require Import Prelude Bitarray Prob RandBytes Contract Operators Machine Entropy.
From stdpp Require Import gmap.
From Stdlib Require Import Reals Psatz.

Open Scope py_scope.

(** ** World, output and assertions *)

Inductive Output :=
| PrintEncrypted (rc : list bool)       (* print('Encrypted message:', rc) *)
| PrintBytes (n : Z)                     (* print('Bytes:', len(m)) *)
| PrintDecrypted (d : list Z).           (* print('Decrypted message:', ...) *)

Record World := mkWorld { rt : St; out : list Output }.

Abbreviation W := (PyM World).

(** Run a computation on the object state. *)
Definition rt_call {A} (c : M A) : W A :=
  fun w => let '(s', r) := c (rt w) in (mkWorld s' (out w), r).

Definition print (o : Output) : W unit :=
  fun w => (mkWorld (rt w) (out w ++ [o]), Ok tt).

(** [assert(b)] *)
Definition py_assert (b : bool) : W unit := if b then ret tt else raise AssertionError.

(** [x == y] and [x < y] on the reals of the model. *)
Definition Req_b (x y : R) : bool := if Req_EM_T x y then true else false.
Definition Rlt_b (x y : R) : bool := if Rlt_dec x y then true else false.

(** ** The functions of [otp.py] *)

(** [result[i] ^= bt] for the [i]-th bit [bt] of [b]. *)
Definition bxor_body (b : list bool) (i : nat) (res : list Z) : result (list Z) :=
  bt <-! py_getitem b i ;; r <-! py_getitem res i ;; py_setitem res i (Z.lxor r (Z.b2z bt)).

(** [bxor(a, b)]: [result = bytearray(a)], then
    [for i, bt in enumerate(b): result[i] ^= bt]. *)
Definition bxor (a b : list bool) : result (list Z) :=
  py_for 0 (length b) (bxor_body b) (tobytes a).

(** The decryption the driver means (the specification's step 5): the
    byte-wise XOR of the bytes of two bitarrays,
    [bytes(x ^ y for x, y in zip(a.tobytes(), b.tobytes()))]. *)
Definition bxor_bytes (a b : list bool) : list Z := zip_with Z.lxor (tobytes a) (tobytes b).

(** [otp(msg)], with [msg] given by [msg.encode('utf-8')]. *)
Definition otp (msg : list Z) : W unit :=
  let m := frombytes msg in
  key <- rt_call (RandBytes_init (Z.of_nat (length msg))) ;;
  e <- rt_call (rb_entropy key) ;;
  py_assert (Req_b e (INR (length m))) ;;
  c <- rt_call (rb_xor key (OpBits m)) ;;
  e' <- rt_call (rb_entropy c) ;;
  py_assert (Req_b e' (INR (length m))) ;;
  rc <- rt_call (unwrap c) ;;
  rkey <- rt_call (unwrap key) ;;
  print (PrintEncrypted rc) ;;
  print (PrintBytes (Z.of_nat (length m))) ;;
  d <- lift_res (bxor rc rkey) ;;
  print (PrintDecrypted d).

(** [selfXor()] *)
Definition selfXor : W unit :=
  i <- rt_call (RandBytes_init 4) ;;
  j <- rt_call (rb_xor i (OpRB i)) ;;
  e <- rt_call (rb_entropy j) ;;
  py_assert (Req_b e 0).

(** [newAnd()] *)
Definition newAnd : W unit :=
  i <- rt_call (RandBytes_init 8) ;;
  j <- rt_call (RandBytes_init 8) ;;
  k <- rt_call (rb_and i (OpRB j)) ;;
  e <- rt_call (rb_entropy k) ;;
  py_assert (Rlt_b 24 e && Rlt_b e 28).


(** ['☃'.encode('utf-8')] *)
Definition msg_snowman : list Z := [226; 152; 131]%Z.

(** ['hi'.encode('utf-8')], a two-byte message used by the witnesses. *)
Definition msg_hi : list Z := [104; 105]%Z.


(** ** [bxor] *)

Section Bxor.
Context (a b : list bool).

Lemma bxor_body_lt i (res : list Z) :
  i < length b -> i < length res ->
  bxor_body b i res = Ok (<[i := Z.lxor (res !!! i) (Z.b2z (b !!! i))]> res).
Proof.
  intros Hb Hr. unfold bxor_body.
  rewrite (py_getitem_lookup b i (b !!! i)) by (apply list_lookup_lookup_total_lt; lia). simpl.
  rewrite (py_getitem_lookup res i (res !!! i)) by (apply list_lookup_lookup_total_lt; lia).
  apply py_setitem_lt. lia.
Qed.

(** What [bxor] computes when it does not fail: byte [i] of the first
    argument XORed with bit [i] of the second. *)
Lemma bxor_prefix :
  length b <= length (tobytes a) ->
  bxor a b = Ok (imap (fun i x => if decide (0 <= i < 0 + length b)
                                  then Z.lxor x (Z.b2z (b !!! i)) else x) (tobytes a)).
Proof.
  intros Hl. unfold bxor.
  apply py_for_pointwise; [lia|]. intros i acc Hi Hacc. apply bxor_body_lt; lia.
Qed.

(** With more bits in [b] than bytes in [a], [bxor] raises [IndexError]. *)
Lemma bxor_index_error :
  length (tobytes a) < length b -> bxor a b = Raise IndexError.
Proof.
  intros Hl. unfold bxor.
  set (L := length (tobytes a)).
  replace (length b) with (L + S (length b - S L)) by lia.
  rewrite py_for_split.
  rewrite (py_for_pointwise (fun i x => Z.lxor x (Z.b2z (b !!! i)))); [simpl | lia |].
  - unfold bxor_body. rewrite (py_getitem_lookup b L (b !!! L)) by (apply list_lookup_lookup_total_lt; lia).
    simpl. rewrite py_getitem_ge; [done|]. rewrite length_imap. lia.
  - intros i acc Hi Hacc. apply bxor_body_lt; lia.
Qed.
End Bxor.

(** ** Steps of the driver *)

Section WSteps.
Context {A B : Type} (w : World).

Lemma bind_rt_call_ok (c : M A) (k : A -> W B) s' a :
  c (rt w) = (s', Ok a) -> bind (rt_call c) k w = k a (mkWorld s' (out w)).
Proof. intros H. unfold bind, rt_call. by rewrite H. Qed.

Lemma bind_rt_call_raise (c : M A) (k : A -> W B) s' e :
  c (rt w) = (s', Raise e) -> bind (rt_call c) k w = (mkWorld s' (out w), Raise e).
Proof. intros H. unfold bind, rt_call. by rewrite H. Qed.

Lemma bind_assert_true (k : unit -> W B) : bind (py_assert true) k w = k tt w.
Proof. reflexivity. Qed.

Lemma bind_print o (k : unit -> W B) :
  bind (print o) k w = k tt (mkWorld (rt w) (out w ++ [o])).
Proof. reflexivity. Qed.
End WSteps.

Lemma Req_b_refl x : Req_b x x = true.
Proof. unfold Req_b. by destruct (Req_EM_T x x). Qed.

Lemma Rlt_b_true x y : (x < y)%R -> Rlt_b x y = true.
Proof. unfold Rlt_b. by destruct (Rlt_dec x y). Qed.

Lemma INR_bits_of_bytes (msg : list Z) :
  INR (length (frombytes msg)) = IZR (Z.of_nat (length msg) * 8).
Proof. rewrite length_frombytes, INR_IZR_INZ. f_equal. lia. Qed.

Lemma length_urandom_bytes s n : length (urandom_bytes s n) = Z.to_nat n.
Proof. unfold urandom_bytes. by rewrite length_map, length_seq. Qed.

(** The ciphertext [key ^ m] of a fresh key has the entropy of the key. *)
Lemma entropy_cipher (msg : list Z) :
  entropy_of (zip_with xor_lit (replicate (Z.to_nat (Z.of_nat (length msg) * 8)) (1 # 2)) (frombytes msg))
  = IZR (Z.of_nat (length msg) * 8).
Proof.
  rewrite entropy_of_xor_lit.
  - rewrite entropy_of_replicate, min_entropy_half, INR_to_nat_mul8 by lia. lra.
  - rewrite length_replicate, length_frombytes. lia.
Qed.

(** [otp(msg)] on a non-empty message: both entropy assertions pass, the
    ciphertext and the bit count are printed, and [bxor] raises
    [IndexError] before anything is decrypted. *)
Lemma otp_run (msg : list Z) (w : World) :
  wf_state (rt w) -> msg <> [] ->
  exists s',
    otp msg w =
      (mkWorld s' (out w ++ [PrintEncrypted
                               (zip_with xorb (frombytes (urandom_bytes (rt w) (Z.of_nat (length msg))))
                                  (frombytes msg));
                             PrintBytes (Z.of_nat (length (frombytes msg)))]),
       Raise IndexError) /\
    heap s' !! next_id (rt w) = Some (with_wrapped (fresh_rb (rt w) (Z.of_nat (length msg))) false).
Proof.
  intros Hwf Hne. set (s := rt w). set (n := Z.of_nat (length msg)).
  assert (Hn : (0 <= n)%Z) by lia.
  assert (Hlen : length msg > 0) by (destruct msg; [done | simpl; lia]).
  set (key := fresh_rb s n).
  set (s1 := init_state s n).
  assert (Hwf1 : wf_state s1).
  { pose proof (rb_init_wf s n Hwf) as H. by rewrite rb_init_ok in H. }
  assert (Hk1 : heap s1 !! next_id s = Some key) by (unfold s1, init_state; simpl; by rewrite lookup_insert_eq).
  assert (Hkl : length (_i key) = length (frombytes msg)).
  { unfold key, fresh_rb. simpl. rewrite !length_frombytes, length_urandom_bytes. unfold n. lia. }
  unfold otp.
  rewrite (bind_rt_call_ok _ _ _ s1 (next_id s)) by (by apply rb_init_ok).
  rewrite (bind_rt_call_ok _ _ _ s1 (IZR (n * 8))) by (by apply rb_entropy_fresh). simpl.
  rewrite INR_bits_of_bytes, Req_b_refl, bind_assert_true.
  set (c := bits_result (f:=xorb) (g_lit:=xor_lit) key (frombytes msg)).
  set (s2 := post_state s1 (<[next_id s := with_wrapped key false]>
               (<[next_id s1 := c]> (heap s1))) n).
  rewrite (bind_rt_call_ok _ _ _ s2 (next_id s1))
    by (unfold rb_xor; exact (rb_binop_bits (f:=xorb) s1 Hwf1 (next_id s) key (frombytes msg) Hk1 eq_refl Hkl)).
  assert (Hc2 : heap s2 !! next_id s1 = Some c).
  { unfold s2; simpl. rewrite lookup_insert_ne by (unfold s1; simpl; lia). by rewrite lookup_insert_eq. }
  rewrite (bind_rt_call_ok _ _ _ s2 (entropy_of (_pr_one c))) by (by apply rb_entropy_spec). simpl.
  pose proof (entropy_cipher msg) as He. fold n in He. rewrite He. rewrite Req_b_refl, bind_assert_true.
  rewrite (bind_rt_call_ok _ _ _ _ (_i c)) by (by apply unwrap_spec). simpl.
  rewrite (bind_rt_call_ok _ _ _ _ (_i (with_wrapped key false)))
    by (apply unwrap_spec; simpl; rewrite lookup_insert_ne by (unfold s1; simpl; lia);
        unfold s2; simpl; rewrite lookup_insert_eq; done).
  rewrite !bind_print. simpl.
  unfold bind at 1, lift_res.
  rewrite bxor_index_error.
  - eexists. split; [simpl; rewrite <- app_assoc; reflexivity|].
    simpl. by rewrite lookup_insert_eq.
  - unfold c, bits_result, key, fresh_rb. simpl.
    rewrite (length_tobytes _ (length msg)).
    + rewrite length_frombytes, length_urandom_bytes. unfold n. lia.
    + rewrite length_zip_with, !length_frombytes, length_urandom_bytes. unfold n. lia.
Qed.

(** [selfXor()] passes its assertion from every well-formed state. *)
Lemma selfXor_run (w : World) :
  wf_state (rt w) -> exists s', selfXor w = (mkWorld s' (out w), Ok tt).
Proof.
  intros Hwf. set (s := rt w). set (s1 := init_state s 4).
  assert (Hwf1 : wf_state s1).
  { pose proof (rb_init_wf s 4 Hwf) as H. by rewrite rb_init_ok in H. }
  assert (Hk1 : heap s1 !! next_id s = Some (fresh_rb s 4))
    by (unfold s1, init_state; simpl; by rewrite lookup_insert_eq).
  assert (Hx : rb_xor (next_id s) (OpRB (next_id s)) s1 =
               (fst (rb_xor (next_id s) (OpRB (next_id s)) s1), Ok (next_id s1))).
  { unfold rb_xor. by rewrite (rb_binop_self (f:=xorb) s1 Hwf1 (next_id s) (fresh_rb s 4)). }
  unfold selfXor.
  rewrite (bind_rt_call_ok _ _ _ s1 (next_id s)) by (by apply rb_init_ok). cbv beta.
  rewrite (bind_rt_call_ok (mkWorld s1 (out w)) _ _ _ _ Hx). cbv beta.
  rewrite (bind_rt_call_ok (mkWorld _ (out w)) _ _ _ _
             (rb_entropy_self_xor s1 (next_id s) (fresh_rb s 4) Hwf1 Hk1 eq_refl)).
  rewrite Req_b_refl. eexists. reflexivity.
Qed.

(** [newAnd()] passes its assertion from every well-formed state. *)
Lemma newAnd_run (w : World) :
  wf_state (rt w) -> exists s', newAnd w = (mkWorld s' (out w), Ok tt).
Proof.
  intros Hwf. set (s := rt w). set (s1 := init_state s 8). set (s2 := init_state s1 8).
  assert (Hwf1 : wf_state s1).
  { pose proof (rb_init_wf s 8 Hwf) as H. by rewrite rb_init_ok in H. }
  assert (Hwf2 : wf_state s2).
  { pose proof (rb_init_wf s1 8 Hwf1) as H. by rewrite rb_init_ok in H. }
  assert (Hi : heap s2 !! next_id s = Some (fresh_rb s 8)).
  { unfold s2, s1, init_state; simpl. rewrite lookup_insert_ne by lia. by rewrite lookup_insert_eq. }
  assert (Hj : heap s2 !! next_id s1 = Some (fresh_rb s1 8))
    by (unfold s2, init_state; simpl; by rewrite lookup_insert_eq).
  assert (Hij : next_id s <> next_id s1) by (unfold s1; simpl; lia).
  assert (Hx : rb_and (next_id s) (OpRB (next_id s1)) s2 =
               (fst (rb_and (next_id s) (OpRB (next_id s1)) s2), Ok (next_id s2))).
  { unfold rb_and.
    by rewrite (rb_binop_pair (f:=andb) s2 Hwf2 (next_id s) (fresh_rb s 8) (next_id s1) (fresh_rb s1 8)). }
  destruct (rb_entropy_and_fresh s2 (next_id s) (next_id s1) (fresh_rb s 8) (fresh_rb s1 8))
    as (e & He & Hlo & Hhi); try done.
  unfold newAnd.
  rewrite (bind_rt_call_ok _ _ _ s1 (next_id s)) by (by apply rb_init_ok). cbv beta.
  rewrite (bind_rt_call_ok (mkWorld s1 (out w)) _ _ s2 (next_id s1)) by (by apply rb_init_ok). cbv beta.
  rewrite (bind_rt_call_ok (mkWorld s2 (out w)) _ _ _ _ Hx). cbv beta.
  rewrite (bind_rt_call_ok (mkWorld _ (out w)) _ _ _ _ He).
  rewrite !Rlt_b_true by done. eexists. reflexivity.
Qed.

(** ** The decryption the specification intends *)

(** One byte of the intended decryption: [((k ^ m) & 0xff) ^ (k & 0xff) = m]. *)
Lemma lxor_byte_cancel k m : is_byte m = true -> Z.lxor (Z.lxor k m mod 256) (k mod 256)%Z = m.
Proof.
  intros Hm. rewrite lxor_mod256, (is_byte_mod_small m Hm).
  by rewrite (Z.lxor_comm (k mod 256) m), Z.lxor_assoc, Z.lxor_nilpotent, Z.lxor_0_r.
Qed.

Lemma bxor_bytes_roundtrip (key msg : list Z) :
  Forall (fun b => is_byte b = true) msg -> length key = length msg ->
  bxor_bytes (zip_with xorb (frombytes key) (frombytes msg)) (frombytes key) = msg.
Proof.
  intros Hm Hl. unfold bxor_bytes. rewrite frombytes_lxor by done. rewrite !tobytes_frombytes_mod.
  revert key Hl. induction Hm as [|m msg Hm _ IH]; intros [|k key] Hl; simpl in *; try done; try lia.
  rewrite IH by lia. f_equal. by apply lxor_byte_cancel.
Qed.

(** ** Claims about the driver *)

(** C30 [otp(msg)] on a non-empty message: both entropy assertions hold,
    the ciphertext (key bits XOR message bits) and the bit count
    [8 * len(msg)] are printed, and then [bxor] raises [IndexError]:
    the message is never decrypted. *)
Theorem otp_nonempty_raises (msg : list Z) (w : World) :
  wf_state (rt w) -> msg <> [] ->
  exists s',
    otp msg w =
      (mkWorld s' (out w ++ [PrintEncrypted
                               (zip_with xorb (frombytes (urandom_bytes (rt w) (Z.of_nat (length msg))))
                                  (frombytes msg));
                             PrintBytes (Z.of_nat (length (frombytes msg)))]),
       Raise IndexError).
Proof. intros Hwf Hne. destruct (otp_run msg w Hwf Hne) as (s' & H & _). by exists s'. Qed.


(** C32 [bxor(a, b)] enumerates the *bits* of [b]: when [b] has no more
    bits than [a] has bytes, byte [i] of [a] is XORed with bit [i] of
    [b] for each [i < len(b)]; when [b] has more bits than [a] has bytes,
    it raises [IndexError]. *)
Theorem bxor_enumerates_bits (a b : list bool) :
  (length b <= length (tobytes a) ->
   bxor a b = Ok (imap (fun i x => if decide (0 <= i < 0 + length b)
                                   then Z.lxor x (Z.b2z (b !!! i)) else x) (tobytes a))) /\
  (length (tobytes a) < length b -> bxor a b = Raise IndexError).
Proof. split; [apply bxor_prefix | apply bxor_index_error]. Qed.

(** C33 The driver composes the class and the intended decryption
    correctly: after [otp(msg)] on a non-empty message of bytes, the key
    object is consumed and holds the bits [key.unwrap()] returned, and
    XORing the printed ciphertext with those key bits byte by byte gives
    back [msg]; only [bxor] stands between the program and the
    plaintext. *)
Theorem otp_cipher_decrypts (msg : list Z) (w : World) :
  wf_state (rt w) -> msg <> [] -> Forall (fun b => is_byte b = true) msg ->
  exists s' rc key,
    otp msg w = (mkWorld s' (out w ++ [PrintEncrypted rc; PrintBytes (Z.of_nat (length (frombytes msg)))]),
                 Raise IndexError) /\
    heap s' !! next_id (rt w) = Some key /\ _wrapped key = false /\ bxor_bytes rc (_i key) = msg.
Proof.
  intros Hwf Hne Hm. destruct (otp_run msg w Hwf Hne) as (s' & Hotp & Hkey).
  do 3 eexists. split_and!; [exact Hotp | exact Hkey | done |].
  apply bxor_bytes_roundtrip; [done|]. rewrite length_urandom_bytes. lia.
Qed.

(** C34 The two entropy checks of the driver hold from every well-formed
    state: [selfXor()] ([u ^ u] has entropy 0) and [newAnd()] (the AND of
    two fresh 8-byte keys has min-entropy strictly between 24 and 28 bits)
    pass their assertions and print nothing. *)
Theorem driver_checks_pass (w : World) :
  wf_state (rt w) ->
  (exists s', selfXor w = (mkWorld s' (out w), Ok tt)) /\
  (exists s', newAnd w = (mkWorld s' (out w), Ok tt)).
Proof. intros Hwf. split; [by apply selfXor_run | by apply newAnd_run]. Qed.

(** ** Witnesses *)

Definition demo_world : World := mkWorld demo_st [].

Lemma driver_checks_pass_witness :
  (exists s', selfXor demo_world = (mkWorld s' [], Ok tt)) /\
  (exists s', newAnd demo_world = (mkWorld s' [], Ok tt)).
Proof. apply (driver_checks_pass demo_world); wit. Defined.

Lemma otp_nonempty_raises_witness :
  exists s' o, otp msg_snowman demo_world = (mkWorld s' o, Raise IndexError).
Proof.
  destruct (otp_nonempty_raises msg_snowman demo_world) as [s' H]; [wit | discriminate |].
  exists s'. eexists. exact H.
Defined.


Lemma bxor_enumerates_bits_witness :
  bxor [true; false; false; false; false; false; false; true] [true] = Ok [128%Z] /\
  bxor [true; false; false; false; false; false; false; true] [true; true] = Raise IndexError.
Proof.
  destruct (bxor_enumerates_bits [true; false; false; false; false; false; false; true] [true; true])
    as [_ H2].
  split; [| apply H2; simpl; lia].
  destruct (bxor_enumerates_bits [true; false; false; false; false; false; false; true] [true])
    as [H1 _].
  rewrite H1; [reflexivity | simpl; lia].
Defined.

Lemma otp_cipher_decrypts_witness :
  exists s' rc key,
    otp msg_hi demo_world =
      (mkWorld s' (out demo_world ++ [PrintEncrypted rc; PrintBytes (Z.of_nat (length (frombytes msg_hi)))]),
       Raise IndexError) /\
    heap s' !! next_id (rt demo_world) = Some key /\ _wrapped key = false /\ bxor_bytes rc (_i key) = msg_hi.
Proof. apply otp_cipher_decrypts; [wit | discriminate | repeat constructor]. Defined.
