(* ===== verification/Runs.v ===== *)
(** * Runs of the class against the ideal random source

    The theorems of [Urandom] are about one fresh buffer.  Here whole
    runs of the code are checked against the uniform distribution of
    [os.urandom]: the random stream is the only input that varies, and
    the probability of an outcome is the fraction of the streams that
    produce it.

    - [and_then op n] is a client of the class,
      [x = RandBytes(n); y = RandBytes(n); z = RandBytes(n); (x & y) op z]:
      its result's [_pr_one] is the true frequency of a one in every bit,
      for probabilities [1/4] and [1/2] that differ, so that the
      operators' formulas are checked away from [p = q].
    - [otp(msg)] prints [key ^ m]: for every message and every bit string
      of its length exactly one value of the key bytes makes [otp] print
      it, so the printed ciphertext is uniform whatever the message. *)

From S2P Require Import Prelude Bitarray Prob RandBytes Urandom Contract Operators Otp.
From stdpp Require Import gmap.
From Stdlib Require Import Lqa.

Open Scope py_scope.

(** ** The programs and the source *)

(** The [j]-th block of [n] bytes the stream yields from its position. *)
Definition block (s : St) (n j : nat) : list Z :=
  map (fun i => urandom_src s (urandom_pos s + j * n + i)) (seq 0 n).

(** [x = RandBytes(n); y = RandBytes(n); z = RandBytes(n); (x & y) op z] *)
Definition and_then (op : nat -> Operand -> M nat) (n : Z) : M nat :=
  x <- RandBytes_init n ;; y <- RandBytes_init n ;; z <- RandBytes_init n ;;
  t <- rb_and x (OpRB y) ;; op t (OpRB z).

(** The run returns the object [next_id s + 4] whose bits are
    [(a & b) f c] for the three blocks [a], [b], [c] the constructors
    read, and whose [_pr_one] entry at every index is the frequency of a
    one there over three independent uniform keys. *)
Definition tracks (f : bool -> bool -> bool) (op : nat -> Operand -> M nat) (s : St) (n : nat) : Prop :=
  exists s' o,
    and_then op (Z.of_nat n) s = (s', Ok (next_id s + 4)) /\
    heap s' !! (next_id s + 4) = Some o /\
    _i o = zip_with f (zip_with andb (frombytes (block s n 0)) (frombytes (block s n 1)))
                      (frombytes (block s n 2)) /\
    forall i, i < 8 * n ->
      freq (fun abc => zip_with f (zip_with andb (frombytes abc.1.1) (frombytes abc.1.2))
                                  (frombytes abc.2) !!! i) (triples n)
      == _pr_one o !!! i.

#[export] Instance Output_eq_dec : EqDecision Output.
Proof. solve_decision. Defined.

(** The world in which the next [length k] bytes of the stream are [k]. *)
Definition with_key (w : World) (k : list Z) : World :=
  let s := rt w in
  mkWorld (mkSt (heap s) (next_id s)
                (fun j => if decide (urandom_pos s <= j < urandom_pos s + length k)
                          then k !!! (j - urandom_pos s) else urandom_src s j)
                (urandom_pos s))
          (out w).

(** ** Lemmas *)

Lemma urandom_bytes_block s t n j :
  urandom_src t = urandom_src s -> urandom_pos t = urandom_pos s + j * n ->
  urandom_bytes t (Z.of_nat n) = block s n j.
Proof.
  intros Hsrc Hpos. unfold urandom_bytes, block. by rewrite Nat2Z.id, Hsrc, Hpos.
Qed.

Lemma to_nat_mul8 n : Z.to_nat (Z.of_nat n * 8) = 8 * n.
Proof. lia. Qed.

Lemma fresh_rb_block s t n j :
  urandom_src t = urandom_src s -> urandom_pos t = urandom_pos s + j * n ->
  fresh_rb t (Z.of_nat n) = mkRB true (frombytes (block s n j)) (Z.of_nat n) (replicate (8 * n) (1#2)).
Proof. intros Hsrc Hpos. unfold fresh_rb. by rewrite (urandom_bytes_block s t n j), to_nat_mul8. Qed.

Lemma lookup_total_zip_with_Q (g : Q -> Q -> Q) l k i :
  i < length l -> i < length k -> zip_with g l k !!! i = g (l !!! i) (k !!! i).
Proof. apply lookup_total_zip_with. Qed.

Lemma lookup_total_zip_with_bool (g : bool -> bool -> bool) l k i :
  i < length l -> i < length k -> zip_with g l k !!! i = g (l !!! i) (k !!! i).
Proof. apply lookup_total_zip_with. Qed.

Lemma heap_post_state s h n : heap (post_state s h n) = h.
Proof. reflexivity. Qed.

Lemma init_state_wf s n : wf_state s -> (0 <= n)%Z -> wf_state (init_state s n).
Proof. intros Hwf Hn. pose proof (rb_init_wf s n Hwf) as H. by rewrite rb_init_ok in H. Qed.

Section Run.
Context {f g_lit g2 g_self bitop body pair} `{!BinopLaws f g_lit g2 g_self bitop body pair}.

(** The whole run of [and_then] for an operator built on [rb_binop]. *)
Lemma and_then_run s n :
  wf_state s ->
  exists s', and_then (rb_binop bitop body pair) (Z.of_nat n) s = (s', Ok (next_id s + 4)) /\
    heap s' !! (next_id s + 4) =
      Some (mkRB true
              (zip_with f (zip_with andb (frombytes (block s n 0)) (frombytes (block s n 1)))
                          (frombytes (block s n 2)))
              (Z.of_nat n)
              (zip_with g2 (zip_with and_pr (replicate (8 * n) (1#2)) (replicate (8 * n) (1#2)))
                           (replicate (8 * n) (1#2)))).
Proof.
  intros Hwf. set (N := Z.of_nat n).
  set (s1 := init_state s N). set (s2 := init_state s1 N). set (s3 := init_state s2 N).
  assert (Hwf3 : wf_state s3) by (repeat apply init_state_wf; done || lia).
  assert (H0 : heap s3 !! next_id s = Some (fresh_rb s N)).
  { unfold s3, s2, s1, init_state; simpl. rewrite !lookup_insert_ne by lia. apply lookup_insert_eq. }
  assert (H1 : heap s3 !! next_id s1 = Some (fresh_rb s1 N)).
  { unfold s3, s2, s1, init_state; simpl. rewrite !lookup_insert_ne by lia. apply lookup_insert_eq. }
  assert (H2 : heap s3 !! next_id s2 = Some (fresh_rb s2 N)).
  { unfold s3, s2, init_state; simpl. apply lookup_insert_eq. }
  unfold and_then. rewrite bind_init by lia. cbv beta. rewrite bind_init by lia. cbv beta.
  rewrite bind_init by lia. cbv beta. fold s1 s2 s3.
  pose proof (rb_binop_pair (f:=andb) s3 Hwf3 (next_id s) (fresh_rb s N) (next_id s1) (fresh_rb s1 N)
                H0 H1 ltac:(unfold s1; simpl; lia) eq_refl eq_refl eq_refl) as Hand.
  unfold rb_and. rewrite (bind_ok _ _ _ _ _ Hand).
  set (s4 := post_state s3 _ _).
  assert (Hwf4 : wf_state s4).
  { pose proof (rb_binop_wf (f:=andb) s3 (next_id s) (OpRB (next_id s1)) Hwf3) as H.
    by rewrite Hand in H. }
  assert (H3 : heap s4 !! next_id s3 = Some (pair_result (f:=andb) (g2:=and_pr) (fresh_rb s N) (fresh_rb s1 N))).
  { unfold s4, post_state; simpl. rewrite !lookup_insert_ne by (unfold s3, s2, s1; simpl; lia).
    apply lookup_insert_eq. }
  assert (H4 : heap s4 !! next_id s2 = Some (fresh_rb s2 N)).
  { unfold s4, post_state; simpl. rewrite !lookup_insert_ne by (unfold s3, s2, s1; simpl; lia).
    exact H2. }
  rewrite (rb_binop_pair s4 Hwf4 (next_id s3) _ (next_id s2) _ H3 H4) by (simpl; done || (unfold s3; simpl; lia)).
  eexists. split.
  { f_equal; try f_equal. unfold s4, s3, s2, s1, post_state, init_state; simpl; lia. }
  replace (next_id s + 4) with (next_id s4) by (unfold s4, s3, s2, s1, post_state, init_state; simpl; lia).
  rewrite heap_post_state, !lookup_insert_ne by (unfold s4, s3, s2, s1, post_state, init_state; simpl; lia).
  rewrite lookup_insert_eq. unfold N.
  rewrite (fresh_rb_block s s n 0), (fresh_rb_block s s1 n 1), (fresh_rb_block s s2 n 2)
    by (unfold s2, s1, init_state, N; simpl; lia || done).
  reflexivity.
Qed.

(** [and_then] tracks the true frequencies as soon as the operator's
    update at [p = 1/4], [q = 1/2] is the frequency of [f] on such bits. *)
Lemma tracks_intro s n :
  wf_state s ->
  g2 (and_pr (1#2) (1#2)) (1#2) ==
    inject_Z (Z.of_nat (Nat.b2n (f true true) + Nat.b2n (f true false) +
                        3 * Nat.b2n (f false true) + 3 * Nat.b2n (f false false))) / inject_Z 8 ->
  tracks f (rb_binop bitop body pair) s n.
Proof.
  intros Hwf Hg. destruct (and_then_run s n Hwf) as (s' & Hrun & Ho).
  do 2 eexists. split_and!; [exact Hrun | exact Ho | reflexivity |].
  intros i Hi. cbn [_pr_one].
  rewrite !lookup_total_zip_with_Q by (rewrite ?length_zip_with, ?length_replicate; lia).
  rewrite !lookup_total_replicate_2 by lia. rewrite Hg.
  rewrite <- (freq_and_then f n i Hi). unfold freq.
  erewrite (count_if_ext_in _ _ (triples n)); [reflexivity|]. intros [[a b] c] Habc. unfold triples in Habc.
  apply in_prod_iff in Habc as [Hab Hc]. apply in_prod_iff in Hab as [Ha Hb]. cbn [fst snd].
  pose proof (in_keys_length n a Ha). pose proof (in_keys_length n b Hb). pose proof (in_keys_length n c Hc).
  rewrite !lookup_total_zip_with_bool by (rewrite ?length_zip_with; lia). done.
Qed.
End Run.

Lemma map_lookup_total_seq (k : list Z) : map (fun j => k !!! j) (seq 0 (length k)) = k.
Proof.
  apply list_eq. intros i. rewrite list_lookup_fmap.
  destruct (decide (i < length k)).
  - rewrite lookup_seq_lt by done. simpl. symmetry. by apply list_lookup_lookup_total_lt.
  - rewrite lookup_seq_ge by lia. symmetry. apply lookup_ge_None_2. lia.
Qed.

Lemma urandom_bytes_with_key w k :
  urandom_bytes (rt (with_key w k)) (Z.of_nat (length k)) = k.
Proof.
  unfold urandom_bytes, with_key. simpl. rewrite Nat2Z.id.
  rewrite <- (map_lookup_total_seq k) at 2. apply map_ext_in. intros j Hj.
  apply in_seq in Hj. rewrite decide_True by lia. f_equal. lia.
Qed.

(** What [otp(msg)] prints with the key bytes [k]. *)
Lemma otp_prints_with_key w msg k :
  wf_state (rt w) -> msg <> [] -> length k = length msg ->
  out (fst (otp msg (with_key w k))) =
    out w ++ [PrintEncrypted (zip_with xorb (frombytes k) (frombytes msg));
              PrintBytes (Z.of_nat (length (frombytes msg)))].
Proof.
  intros Hwf Hne Hk. destruct (otp_run msg (with_key w k)) as (s' & Hrun & _); [exact Hwf | done |].
  rewrite Hrun. cbn [fst out]. rewrite <- Hk, urandom_bytes_with_key. done.
Qed.

(** ** Claims *)

(** C22 The probability model of the operators is exact along a run:
    for [x], [y], [z] fresh [RandBytes(n)] and [op] one of [&], [|], [^],
    the object [(x & y) op z] holds [(a & b) op c] for the three blocks
    of bytes the constructors read, and under three independent uniform
    keys each of its bits is one with exactly the probability its
    [_pr_one] entry gives ([1/8], [5/8], [1/2], from [p = 1/4] for
    [x & y] and [q = 1/2] for [z]). *)
Theorem and_then_tracks (s : St) (n : nat) :
  wf_state s -> tracks andb rb_and s n /\ tracks orb rb_or s n /\ tracks xorb rb_xor s n.
Proof.
  intros Hwf. split_and!;
    [apply (tracks_intro (f:=andb)) | apply (tracks_intro (f:=orb)) | apply (tracks_intro (f:=xorb))];
    done || (vm_compute; reflexivity).
Qed.

(** C23 Perfect secrecy of the ciphertext [otp] prints: from any
    well-formed state, for any non-empty message of bytes and any bit
    string [c] of its length, exactly one value of the [len(msg)] key
    bytes read by [RandBytes(len(msg))] makes [otp(msg)] print
    ['Encrypted message:', c] (and the bit count); under the uniform
    source every ciphertext is printed with probability [1 / 256^n],
    whatever the message. *)
Theorem otp_secrecy (w : World) (msg : list Z) (c : list bool) :
  wf_state (rt w) -> msg <> [] -> Forall (fun b => is_byte b = true) msg ->
  length c = 8 * length msg ->
  count_if (fun k => bool_decide (out (fst (otp msg (with_key w k))) =
                                  out w ++ [PrintEncrypted c; PrintBytes (Z.of_nat (8 * length msg))]))
    (keys (length msg)) = 1.
Proof.
  intros Hwf Hne Hm Hc. etransitivity; [|exact (count_cipher_keys msg c Hm Hc)].
  apply count_if_ext_in. intros k Hk. apply in_keys in Hk as [Hl _].
  rewrite otp_prints_with_key, length_frombytes by done.
  apply bool_decide_ext. split.
  - intros H. apply app_inv_head in H. by injection H.
  - by intros ->.
Qed.

(** ** Witnesses *)

Lemma and_then_tracks_witness : tracks andb rb_and demo_st 1 /\ tracks orb rb_or demo_st 1 /\ tracks xorb rb_xor demo_st 1.
Proof. apply and_then_tracks. wit. Defined.

Lemma otp_secrecy_witness :
  count_if (fun k => bool_decide (out (fst (otp [104%Z] (with_key demo_world k))) =
                                  out demo_world ++ [PrintEncrypted [true; false; true; false; true; false; true; false];
                                                     PrintBytes (Z.of_nat (8 * length [104%Z]))]))
    (keys (length [104%Z])) = 1.
Proof. apply otp_secrecy; [wit | done | repeat constructor | reflexivity]. Defined.
