(* ===== verification/Loops.v ===== *)
(** * Termination of the [for] loops

    The loops of [__and__], [__or__] and [__xor__] in [src/pyrand.py]
    are [for] loops over [range(len(self)*8)].  Elsewhere the development
    runs them as [py_for], a recursion on the number of iterations, which
    is total by construction.  Here the loop is run the way the interpreter runs
    it, through the iterator protocol,
<<
    it = iter(range(start, stop))
    while True:
        try: i = next(it)
        except StopIteration: break
        body
>>
    with one unit of fuel per call of [next], and [None] when the fuel is
    spent before [StopIteration].  Fuel beyond the number of iterations
    gives the result of [py_for]; the theorem applies this to the
    probability loops of the three binary operators on a well-formed
    state, which stop without raising and give the updates the operators
    store. *)

From S2P Require Import Prelude Bitarray Prob RandBytes Operators.
From Stdlib Require Import QArith.

Open Scope py_scope.
Open Scope nat_scope.

(** ** The iterator protocol *)



(** ** Lemmas *)

Section Fuel.
Context {A : Type} (body : nat -> A -> result A).




End Fuel.



(** ** Claim *)


(** ** Witness *)

