(* ===== verification/Minimize.v ===== *)
(** * The symbolic experiment [src/minimize.py]

    [minimize.py] tracks buffers symbolically instead of by value: an [RB]
    holds a pyeda variable named by [str(id(self))] and an expression,
    [__xor__] builds [Xor] of the two expressions in a fresh [RB], and the
    script minimises [Or(w.expr, dummy)] for [w = u ^ u] with espresso.

    pyeda is a library the script only calls.  Its expressions are modelled
    as syntax ([expr]) with their Boolean meaning ([eval]); [to_dnf] and
    [espresso_exprs] together form the [Minimizer] interface, whose only
    law is that the result means the same as its argument.  Python's
    [id] is a counter of allocated objects, distinct for the live objects
    of the script.  The theorem is about the expression the script hands
    to the minimiser; what espresso prints is only constrained by the
    interface. *)

From S2P Require Import Prelude.
From stdpp Require Import strings pretty.

Module Minimize.

(** ** pyeda expressions *)

Inductive expr :=
| EZero
| EOne
| EVar (name : string)            (* exprvar(name) *)
| EXor (a b : expr)               (* Xor(a, b) *)
| EOr (a b : expr).               (* Or(a, b) *)

Fixpoint eval (env : string -> bool) (e : expr) : bool :=
  match e with
  | EZero => false
  | EOne => true
  | EVar x => env x
  | EXor a b => xorb (eval env a) (eval env b)
  | EOr a b => eval env a || eval env b
  end.

(** Two expressions are equivalent when they agree under every assignment. *)
Definition equiv (a b : expr) : Prop := forall env, eval env a = eval env b.

(** [espresso_exprs(e.to_dnf())[0]]: the library promises an equivalent
    (two-level, minimal) expression. *)
Class Minimizer (minimize : expr -> expr) := minimize_equiv : forall e, equiv (minimize e) e.

(** ** The [RB] class *)

Record RB := mkRB { n : Z; var : expr; rexpr : expr }.

(** [id()] of the next object allocated. *)
Abbreviation Ids := nat.

(** [RB.__init__(self, n)]: [self.var = exprvar(str(id(self)))], and
    [self.expr = self.var]. *)
Definition RB_init (n0 : Z) (next : Ids) : RB * Ids :=
  let v := EVar (pretty next) in (mkRB n0 v v, S next).

(** [RB.__xor__(self, other)]: a fresh [RB(self.n)] whose [expr] is
    replaced by [Xor(self.expr, other.expr)]. *)
Definition RB_xor (self other : RB) (next : Ids) : RB * Ids :=
  let '(result, next') := RB_init (n self) next in
  (mkRB (n result) (var result) (EXor (rexpr self) (rexpr other)), next').

(** The module-level script, up to the minimised expression it prints. *)
Record Script := mkScript { u : RB; v : RB; w : RB; fill : expr }.

Definition script (next : Ids) : Script :=
  let '(u0, i1) := RB_init 8 next in
  let '(v0, i2) := RB_init 8 i1 in
  let '(w0, _) := RB_xor u0 u0 i2 in
  mkScript u0 v0 w0 (EOr (rexpr w0) (EVar "dummy")).

(** [print(f1m[0])] *)
Definition printed (minimize : expr -> expr) (next : Ids) : expr := minimize (fill (script next)).

(** ** Lemmas *)



(** ** Claims *)


End Minimize.
